(** * Levox license server: device binding, expiry, revocation and issuance

    A shallow embedding of the request handlers of the license server
    (verify-license, revoke-license, issue-license, generate-free-license,
    generate-pro-license, get-license-token), of [lib/crypto] and of
    [utils/fingerprint], together with the properties of the license
    lifecycle.

    Conventions.
    - A JavaScript string is a [string]: the sequence of its code units,
      restricted to code units below 256.
    - An instant ([new Date()], a [timestamptz] column) is the number of
      milliseconds since the epoch, a [Z].
    - A [throw] is the constructor [Throw] of [completion]; a handler's
      outer [try/catch] turns it into the 500 response.
    - The Supabase tables are lists of rows; whether the storage service
      fails a call is an input of the request, like the clock and the
      process environment.
    - A handler is the tree of its storage calls, so that requests can be
      served alone ([Supabase.run]) or interleaved call by call
      ([Concurrent.run_schedule]). *)

From Stdlib Require Import List String Ascii ZArith Bool Arith Lia.
Import ListNotations.

Local Open Scope string_scope.
Local Open Scope list_scope.

(** ** JavaScript values and strings *)

Module JS.

(** The values a JSON request field can hold.  [Number z] is a number
    that is an integer; a fraction, and the [Infinity] that an
    overflowing literal parses to, are not among these values. *)
Inductive value : Type :=
| Undefined
| Null
| Boolean (b : bool)
| Number (z : Z)
| Str (s : string).

(** [ToBoolean]: what [!x] and [if (x)] look at. *)
Definition truthy (v : value) : bool :=
  match v with
  | Undefined | Null => false
  | Boolean b => b
  | Number z => negb (Z.eqb z 0)
  | Str s => negb (String.eqb s EmptyString)
  end.

Definition is_string (v : value) : bool :=
  match v with Str _ => true | _ => false end.

(** Result of running code that may [throw new Error(msg)]. *)
Inductive completion (A : Type) : Type :=
| Return (a : A)
| Throw (msg : string).
Arguments Return {A} a.
Arguments Throw {A} msg.

Definition code (c : ascii) : nat := nat_of_ascii c.

Definition between (lo hi : nat) (c : ascii) : bool :=
  Nat.leb lo (code c) && Nat.leb (code c) hi.

(** WhiteSpace and LineTerminator code units below 256:
    TAB, LF, VT, FF, CR, SPACE, NBSP. *)
Definition is_space (c : ascii) : bool :=
  between 9 13 c || Nat.eqb (code c) 32 || Nat.eqb (code c) 160.

Fixpoint drop_space (l : list ascii) : list ascii :=
  match l with
  | [] => []
  | c :: r => if is_space c then drop_space r else l
  end.

(** [String.prototype.trim] *)
Definition trim_chars (l : list ascii) : list ascii :=
  rev (drop_space (rev (drop_space l))).

(** [String.prototype.toLowerCase] on one code unit below 256:
    A-Z and the Latin-1 capitals (except the multiplication sign) move
    up by 32. *)
Definition lower_char (c : ascii) : ascii :=
  if between 65 90 c then ascii_of_nat (code c + 32)
  else if between 192 222 c && negb (Nat.eqb (code c) 215)
       then ascii_of_nat (code c + 32)
  else c.

Definition lower_chars (l : list ascii) : list ascii := map lower_char l.

(** [s.replace(/[...]/g, r)] for a pattern that is one character class:
    every code unit the class matches is replaced by [r]. *)
Definition replace_class (matches : ascii -> bool) (r : list ascii)
  (l : list ascii) : list ascii :=
  flat_map (fun c => if matches c then r else [c]) l.

(** [String.prototype.substring(start, end)] with its clamping and
    swapping of the two indices. *)
Definition substring_chars (start stop : Z) (l : list ascii) : list ascii :=
  let len := Z.of_nat (List.length l) in
  let fs := Z.min (Z.max start 0) len in
  let fe := Z.min (Z.max stop 0) len in
  let from := Z.min fs fe in
  let to := Z.max fs fe in
  firstn (Z.to_nat (to - from)) (skipn (Z.to_nat from) l).

Definition on_chars (f : list ascii -> list ascii) (s : string) : string :=
  string_of_list_ascii (f (list_ascii_of_string s)).

Definition trim : string -> string := on_chars trim_chars.
Definition toLowerCase : string -> string := on_chars lower_chars.
Definition replace (matches : ascii -> bool) (r : string) : string -> string :=
  on_chars (replace_class matches (list_ascii_of_string r)).
Definition substring (start stop : Z) : string -> string :=
  on_chars (substring_chars start stop).

End JS.

(** ** utils/fingerprint.ts *)

Module Fingerprint.
Import JS.

(** The class [a-z0-9\-_]. *)
Definition in_charset (c : ascii) : bool :=
  between 97 122 c || between 48 57 c
  || Nat.eqb (code c) 45 || Nat.eqb (code c) 95.

(** The pattern [/[^a-z0-9\-_]/]. *)
Definition not_in_charset (c : ascii) : bool := negb (in_charset c).

Definition invalid_msg : string := "Invalid device fingerprint provided".
Definition too_short_msg : string :=
  "Device fingerprint must be at least 8 characters long".

Definition normalizeDeviceFingerprint (fingerprint : value)
  : completion string :=
  if negb (truthy fingerprint) || negb (is_string fingerprint) then
    Throw invalid_msg
  else
    match fingerprint with
    | Str s =>
        let normalized := toLowerCase (trim s) in
        let normalized := replace not_in_charset EmptyString normalized in
        if Nat.ltb (String.length normalized) 8 then
          Throw too_short_msg
        else
          let normalized :=
            if Nat.ltb 128 (String.length normalized)
            then substring 0 128 normalized
            else normalized in
          Return normalized
    | _ => Throw invalid_msg
    end.

(** [isValidDeviceFingerprint] *)
Definition isValidDeviceFingerprint (fingerprint : value) : bool :=
  match normalizeDeviceFingerprint fingerprint with
  | Return _ => true
  | Throw _ => false
  end.

(** *** The specification's [Normalize], written from its words *)

Inductive ValidationError : Type := Empty | TooShort.

(** [core] is [raw] without its surrounding whitespace. *)
Inductive trimmed_of (raw core : list ascii) : Prop :=
| trimmed_intro (before after : list ascii) :
    raw = before ++ core ++ after ->
    forallb is_space before = true ->
    forallb is_space after = true ->
    (forall c, hd_error core = Some c -> is_space c = false) ->
    (forall c, hd_error (rev core) = Some c -> is_space c = false) ->
    trimmed_of raw core.

(** Lowercase, and keep only the characters of [a-z0-9_-]. *)
Definition canonical (core : list ascii) : list ascii :=
  filter in_charset (map lower_char core).

(** What the specification yields once the surrounding whitespace is gone:
    the too-short error under 8 characters, else at most the first 128. *)
Definition spec_Normalize_trimmed (core : list ascii)
  : ValidationError + string :=
  if Nat.ltb (List.length (canonical core)) 8 then inl TooShort
  else inr (string_of_list_ascii (firstn 128 (canonical core))).

(** How the thrown errors of the code read as the specification's kinds. *)
Definition as_spec (r : completion string) : option (ValidationError + string) :=
  match r with
  | Return s => Some (inr s)
  | Throw m =>
      if String.eqb m invalid_msg then Some (inl Empty)
      else if String.eqb m too_short_msg then Some (inl TooShort)
      else None
  end.

End Fingerprint.

(** ** The jsonwebtoken package

    The package is a dependency of the server, not part of it.  Its tokens
    are modelled symbolically: a signature records the key that made it and
    the header and claims it was made over, and it verifies under a key
    exactly when all three agree. *)

Module Jwt.
Import JS.

(** Key material: what a PEM file or variable holds.  [RsaPrivate k] and
    [RsaPublic k] are the two halves of the key pair [k]. *)
Inductive pem : Type :=
| RsaPrivate (k : N)
| RsaPublic (k : N)
| NotAKey (text : string).

(** [LicensePayload] of lib/crypto.ts *)
Record LicensePayload : Type := mkPayload {
  lic : string;
  sub : string;
  jti : string;
  tier : string;
  device_limit : Z;
  iat : Z;
  exp : Z
}.

(** The claims of a token: the payload and the registered [iss] and [aud]. *)
Record claims : Type := mkClaims {
  payload : LicensePayload;
  iss : option string;
  aud : option string
}.

Record header : Type := mkHeader { alg : string; typ : string }.

Inductive signature : Type :=
| Signed (k : N) (h : header) (c : claims)
| NoSignature (text : string).

(** A token string: either not a three-part JWS at all, or one. *)
Inductive token : Type :=
| Malformed (text : string)
| Jws (h : header) (c : claims) (s : signature).

Definition option_eqb {A} (eqb : A -> A -> bool) (x y : option A) : bool :=
  match x, y with
  | Some a, Some b => eqb a b
  | None, None => true
  | _, _ => false
  end.

Definition payload_eqb (p q : LicensePayload) : bool :=
  String.eqb (lic p) (lic q) && String.eqb (sub p) (sub q)
  && String.eqb (jti p) (jti q) && String.eqb (tier p) (tier q)
  && Z.eqb (device_limit p) (device_limit q)
  && Z.eqb (iat p) (iat q) && Z.eqb (exp p) (exp q).

Definition claims_eqb (c d : claims) : bool :=
  payload_eqb (payload c) (payload d)
  && option_eqb String.eqb (iss c) (iss d)
  && option_eqb String.eqb (aud c) (aud d).

Definition header_eqb (h g : header) : bool :=
  String.eqb (alg h) (alg g) && String.eqb (typ h) (typ g).

(** The signature [s] is the one key pair [k] makes over [h] and [c]. *)
Definition signature_valid (k : N) (h : header) (c : claims) (s : signature)
  : bool :=
  match s with
  | Signed k' h' c' => N.eqb k k' && header_eqb h h' && claims_eqb c c'
  | NoSignature _ => false
  end.

Record SignOptions : Type := mkSignOptions {
  algorithm : string;
  issuer : string;
  audience : string
}.

Record VerifyOptions : Type := mkVerifyOptions {
  algorithms : list string;
  v_issuer : string;
  v_audience : string
}.

(** [payload.iat = payload.iat || Math.floor(Date.now() / 1000)]: the
    payload's own [iat] is kept unless it is 0, which the clock [now_s]
    (in whole seconds) replaces. *)
Definition stamped (now_s : Z) (p : LicensePayload) : LicensePayload :=
  mkPayload (lic p) (sub p) (jti p) (tier p) (device_limit p)
    (if Z.eqb (iat p) 0 then now_s else iat p) (exp p).

(** [jwt.sign(payload, privateKey, options)] at clock [now_s]: the
    payload stamped with its [iat], and [iss] and [aud] from the options.
    What it throws is an [Error]. *)
Definition sign (p : LicensePayload) (key : pem) (o : SignOptions) (now_s : Z)
  : completion token :=
  if negb (String.eqb (algorithm o) "RS256") then
    Throw "algorithm must be a valid string enum value"
  else
    match key with
    | RsaPrivate k =>
        let h := mkHeader "RS256" "JWT" in
        let c := mkClaims (stamped now_s p)
                   (Some (issuer o)) (Some (audience o)) in
        Return (Jws h c (Signed k h c))
    | _ => Throw "secretOrPrivateKey must be an asymmetric key when using RS256"
    end.

(** The key pair a verification key belongs to; a private key stands for
    its public half. *)
Definition verification_key (key : pem) : option N :=
  match key with
  | RsaPublic k => Some k
  | RsaPrivate k => Some k
  | NotAKey _ => None
  end.

(** The errors [jwt.verify] throws, by class, with their message. *)
Inductive VerifyError : Type :=
| JsonWebTokenError (message : string)
| TokenExpiredError (message : string).

(** [jwt.verify(token, publicKey, options)] at clock [now_s], the current
    time in whole seconds: algorithm, signature, [exp], [aud], [iss]. *)
Definition verify (t : token) (key : pem) (o : VerifyOptions) (now_s : Z)
  : VerifyError + claims :=
  match t with
  | Malformed _ => inl (JsonWebTokenError "jwt malformed")
  | Jws h c s =>
      if negb (existsb (String.eqb (alg h)) (algorithms o)) then
        inl (JsonWebTokenError "invalid algorithm")
      else
        match verification_key key with
        | None =>
            inl (JsonWebTokenError
                   "secretOrPublicKey must be an asymmetric key when using RS256")
        | Some k =>
            if negb (signature_valid k h c s) then
              inl (JsonWebTokenError "invalid signature")
            else if Z.leb (exp (payload c)) now_s then
              inl (TokenExpiredError "jwt expired")
            else if negb (option_eqb String.eqb (aud c) (Some (v_audience o)))
            then inl (JsonWebTokenError
                        ("jwt audience invalid. expected: " ++ v_audience o))
            else if negb (option_eqb String.eqb (iss c) (Some (v_issuer o)))
            then inl (JsonWebTokenError
                        ("jwt issuer invalid. expected: " ++ v_issuer o))
            else inr c
        end
  end.

(** [jwt.decode(token, { complete: true })]: no check at all. *)
Definition decode (t : token) : option (header * claims) :=
  match t with
  | Malformed _ => None
  | Jws h c _ => Some (h, c)
  end.

End Jwt.

(** ** lib/crypto.ts *)

Module Crypto.
Import JS Jwt.

(** [process.env] and the files the key paths point to. *)
Record Env : Type := mkEnv {
  PRIVATE_KEY_PATH : option string;
  PUBLIC_KEY_PATH : option string;
  NODE_ENV : option string;
  PRIVATE_KEY : option pem;
  PUBLIC_KEY : option pem;
  JWT_ISSUER : option string;
  JWT_AUDIENCE : option string;
  ADMIN_ISSUE_TOKEN : option string;
  readFileSync : string -> option pem
}.

(** [!x] for a variable of [process.env]. *)
Definition unset (v : option string) : bool :=
  match v with
  | None => true
  | Some s => String.eqb s EmptyString
  end.

Definition unset_key (v : option pem) : bool :=
  match v with
  | None => true
  | Some (NotAKey text) => String.eqb text EmptyString
  | Some _ => false
  end.

(** [process.env.X || d] *)
Definition or_default (v : option string) (d : string) : string :=
  match v with
  | None => d
  | Some s => if String.eqb s EmptyString then d else s
  end.

(** [try { ... } catch (error) { throw new Error(`${prefix}: ${error}`) }]
    around code whose errors are of class [Error], which print as
    [Error: message]. *)
Definition rethrow {A} (prefix : string) (r : completion A) : completion A :=
  match r with
  | Return a => Return a
  | Throw m => Throw (prefix ++ ": Error: " ++ m)
  end.

(** [`${error}`] for an error of [jwt.verify]: its class, then its
    message. *)
Definition printed (err : VerifyError) : string :=
  match err with
  | JsonWebTokenError m => "JsonWebTokenError: " ++ m
  | TokenExpiredError m => "TokenExpiredError: " ++ m
  end.

Definition read_key (e : Env) (path : string) : completion pem :=
  match readFileSync e path with
  | Some k => Return k
  | None => Throw "ENOENT: no such file or directory"
  end.

Definition loadPrivateKey (e : Env) : completion pem :=
  if unset (PRIVATE_KEY_PATH e) then
    Throw "PRIVATE_KEY_PATH environment variable is not set"
  else
    rethrow "Failed to load private key"
      (if option_eqb String.eqb (NODE_ENV e) (Some "development") then
         read_key e (or_default (PRIVATE_KEY_PATH e) EmptyString)
       else
         match PRIVATE_KEY e with
         | Some k =>
             if unset_key (PRIVATE_KEY e) then
               Throw "PRIVATE_KEY environment variable is not set in production"
             else Return k
         | None =>
             Throw "PRIVATE_KEY environment variable is not set in production"
         end).

Definition loadPublicKey (e : Env) : completion pem :=
  if unset (PUBLIC_KEY_PATH e) then
    Throw "PUBLIC_KEY_PATH environment variable is not set"
  else
    rethrow "Failed to load public key"
      (if option_eqb String.eqb (NODE_ENV e) (Some "development") then
         read_key e (or_default (PUBLIC_KEY_PATH e) EmptyString)
       else
         match PUBLIC_KEY e with
         | Some k =>
             if unset_key (PUBLIC_KEY e) then
               Throw "PUBLIC_KEY environment variable is not set in production"
             else Return k
         | None =>
             Throw "PUBLIC_KEY environment variable is not set in production"
         end).

(** [now] is [Date.now()], in milliseconds, when the token is signed. *)
Definition signLicenseToken (e : Env) (now : Z) (p : LicensePayload)
  : completion token :=
  rethrow "Failed to sign license token"
    (match loadPrivateKey e with
     | Throw m => Throw m
     | Return privateKey =>
         sign p privateKey
           (mkSignOptions "RS256"
              (or_default (JWT_ISSUER e) "levox-license-server")
              (or_default (JWT_AUDIENCE e) "levox-cli"))
           (now / 1000)
     end).

(** [now] is [Date.now()], in milliseconds; the package's clock is
    [Math.floor(Date.now() / 1000)]. *)
Definition verifyLicenseToken (e : Env) (now : Z) (t : token)
  : completion claims :=
  match loadPublicKey e with
  | Throw m => rethrow "Failed to verify license token" (Throw m)
  | Return publicKey =>
      match verify t publicKey
              (mkVerifyOptions ["RS256"]
                 (or_default (JWT_ISSUER e) "levox-license-server")
                 (or_default (JWT_AUDIENCE e) "levox-cli"))
              (now / 1000) with
      | inr decoded => Return decoded
      | inl err =>
          Throw ("Failed to verify license token: " ++ printed err)
      end
  end.

Definition decodeToken (t : token) : option (header * claims) := decode t.

End Crypto.

(** ** The Supabase tables and client *)

Module Supabase.

(** A row of table [licenses]; [expires_at] is NULL ([None]) or an
    instant, [current_devices] NULL or an array.  The columns [id] and
    [created_at] are filled by the database and never read back. *)
Record License : Type := mkLicense {
  license_key : string;
  jwt : Jwt.token;
  email : string;
  plan : string;
  device_limit : Z;
  current_devices : option (list string);
  expires_at : option Z;
  revoked : bool
}.

(** A row of table [license_activations] with its [meta] object. *)
Record Activation : Type := mkActivation {
  a_license_key : string;
  device_fingerprint : string;
  meta_timestamp : Z;
  meta_success : bool;
  meta_device_limit_exceeded : bool
}.

Record Database : Type := mkDatabase {
  licenses : list License;
  license_activations : list Activation
}.

(** The calls the handlers make. *)
Inductive query : Type :=
| SelectByKey (key : string)
    (* from('licenses').select(..).eq('license_key', key).single() *)
| SelectByEmailPlan (mail tier : string)
    (* from('licenses').select('id').eq('email', mail).eq('plan', tier).single() *)
| UpdateCurrentDevices (key : string) (devices : list string)
    (* from('licenses').update({ current_devices }).eq('license_key', key) *)
| UpdateRevoked (key : string)
    (* from('licenses').update({ revoked: true }).eq('license_key', key) *)
| InsertLicense (row : License)
| InsertActivation (row : Activation).

(** The client's [{ data, error }]. *)
Record answer : Type := mkAnswer {
  data : option License;
  error : bool
}.

(** Whether the service fails a call, by kind of call; an input of each
    request. *)
Record Service : Type := mkService {
  select_fails : bool;
  update_fails : bool;
  insert_fails : bool;
  log_fails : bool
}.

Definition available : Service := mkService false false false false.

Definition has_key (key : string) (r : License) : bool :=
  String.eqb (license_key r) key.

Definition has_email_plan (mail tier : string) (r : License) : bool :=
  String.eqb (email r) mail && String.eqb (plan r) tier.

(** [.single()]: the one matching row, an error when there is none or
    more than one. *)
Definition single (rows : list License) : answer :=
  match rows with
  | [r] => mkAnswer (Some r) false
  | _ => mkAnswer None true
  end.

Definition set_devices (key : string) (devices : list string) (r : License)
  : License :=
  if has_key key r then
    mkLicense (license_key r) (jwt r) (email r) (plan r) (device_limit r)
      (Some devices) (expires_at r) (revoked r)
  else r.

Definition set_revoked (key : string) (r : License) : License :=
  if has_key key r then
    mkLicense (license_key r) (jwt r) (email r) (plan r) (device_limit r)
      (current_devices r) (expires_at r) true
  else r.

(** [plan text check (plan in ('free','pro','enterprise'))] *)
Definition plan_check (p : string) : bool :=
  existsb (String.eqb p) ["free"; "pro"; "enterprise"].

(** [device_limit int]: the values a four-byte integer column takes. *)
Definition int4 (z : Z) : bool :=
  (Z.leb (-2147483648) z && Z.leb z 2147483647)%bool.

(** [expires_at timestamptz], sent as the text of [toISOString()]: a date
    of the years 1 to 9999.  Outside them the text has a signed six-digit
    year (or the year 0000), which the column does not read. *)
Definition timestamptz (t : option Z) : bool :=
  match t with
  | None => true
  | Some ms =>
      (Z.leb (-62135596800000) ms && Z.leb ms 253402300799999)%bool
  end.

Definition failed : answer := mkAnswer None true.
Definition succeeded : answer := mkAnswer None false.

(** One call against the tables.  A failed call leaves them as they were.
    [license_key] is [unique], [plan] is checked, [device_limit] is an
    [int], [expires_at] a [timestamptz]; an activation [references] a
    license. *)
Definition exec (s : Service) (q : query) (db : Database) : Database * answer :=
  match q with
  | SelectByKey key =>
      if select_fails s then (db, failed)
      else (db, single (filter (has_key key) (licenses db)))
  | SelectByEmailPlan mail tier =>
      if select_fails s then (db, failed)
      else (db, single (filter (has_email_plan mail tier) (licenses db)))
  | UpdateCurrentDevices key devices =>
      if update_fails s then (db, failed)
      else (mkDatabase (map (set_devices key devices) (licenses db))
              (license_activations db), succeeded)
  | UpdateRevoked key =>
      if update_fails s then (db, failed)
      else (mkDatabase (map (set_revoked key) (licenses db))
              (license_activations db), succeeded)
  | InsertLicense row =>
      if insert_fails s
         || existsb (has_key (license_key row)) (licenses db)
         || negb (plan_check (plan row))
         || negb (int4 (device_limit row))
         || negb (timestamptz (expires_at row))
      then (db, failed)
      else (mkDatabase (licenses db ++ [row]) (license_activations db), succeeded)
  | InsertActivation row =>
      if log_fails s
         || negb (existsb (has_key (a_license_key row)) (licenses db))
      then (db, failed)
      else (mkDatabase (licenses db) (license_activations db ++ [row]), succeeded)
  end.

(** [l] is the one row of [licenses] with key [key]. *)
Definition stored (db : Database) (key : string) (l : License) : Prop :=
  filter (has_key key) (licenses db) = [l].

(** The license with key [key] is there and revoked. *)
Definition revoked_in (db : Database) (key : string) : Prop :=
  exists l, stored db key l /\ revoked l = true.

(** Some record of [db] has this email and this plan. *)
Definition has_record (db : Database) (mail tier : string) : Prop :=
  exists l, In l (licenses db) /\ email l = mail /\ plan l = tier.

(** A handler: it answers, or awaits one call and goes on with its
    result. *)
Inductive handler (R : Type) : Type :=
| Respond (r : R)
| Await (q : query) (k : answer -> handler R).
Arguments Respond {R} r.
Arguments Await {R} q k.

(** A request served alone, from its first call to its response. *)
Fixpoint run {R} (s : Service) (h : handler R) (db : Database)
  : Database * R :=
  match h with
  | Respond r => (db, r)
  | Await q k => let (db', a) := exec s q db in run s (k a) db'
  end.

End Supabase.

(** ** Requests in flight at once

    Each request is a thread of its handler; a step lets one thread make
    its next call.  Between two calls of one request, calls of the others
    may be served. *)

Module Concurrent.
Import Supabase.

Record thread (R : Type) : Type := mkThread {
  service : Service;
  code : handler R
}.
Arguments mkThread {R} service code.
Arguments service {R} t.
Arguments code {R} t.

Definition state (R : Type) : Type := (Database * list (thread R))%type.

Fixpoint replace_nth {A} (i : nat) (x : A) (l : list A) : list A :=
  match l, i with
  | [], _ => []
  | _ :: r, O => x :: r
  | y :: r, S j => y :: replace_nth j x r
  end.

(** Thread [i] makes its next call, if it still has one to make. *)
Definition step {R} (i : nat) (st : state R) : state R :=
  let (db, threads) := st in
  match nth_error threads i with
  | Some (mkThread s (Await q k)) =>
      let (db', a) := exec s q db in
      (db', replace_nth i (mkThread s (k a)) threads)
  | _ => st
  end.

Definition run_schedule {R} (schedule : list nat) (st : state R) : state R :=
  fold_left (fun st i => step i st) schedule st.

Definition response_of {R} (t : thread R) : option R :=
  match code t with
  | Respond r => Some r
  | Await _ _ => None
  end.

Definition responses {R} (st : state R) : list (option R) :=
  map response_of (snd st).

End Concurrent.

(** ** What a handler runs in, and what it answers *)

Module Http.
Local Open Scope Z_scope.

(** The process environment, the clock and the next [uuidv4()]. *)
Record Runtime : Type := mkRuntime {
  env : Crypto.Env;
  now : Z;
  uuid : string
}.

(** [NextResponse.json({ ok, error, data }, { status })] *)
Record Response (D : Type) : Type := mkResponse {
  status : Z;
  ok : bool;
  error : option string;
  data : option D
}.
Arguments mkResponse {D} status ok error data.
Arguments status {D} r.
Arguments ok {D} r.
Arguments error {D} r.
Arguments data {D} r.

Definition refuse {D} (code : Z) (msg : string) : Response D :=
  mkResponse code false (Some msg) None.

Definition accept {D} (d : D) : Response D :=
  mkResponse 200 true None (Some d).

(** The outer [catch (error)] of every handler. *)
Definition internal_error {D} : Response D :=
  refuse 500 "Internal server error".

(** [!s] for a string field; a field that is missing reads as the empty
    string. *)
Definition blank (s : string) : bool := String.eqb s EmptyString.

Definition day_ms : Z := 86400000.

(** Days since the epoch of a civil date, and back (proleptic Gregorian
    calendar, months 1 to 12); a day of the month past the end of the
    month runs into the next one, as in [MakeDay]. *)
Definition days_from_civil (y m d : Z) : Z :=
  let y := if Z.leb m 2 then y - 1 else y in
  let era := y / 400 in
  let yoe := y - era * 400 in
  let mp := if Z.ltb 2 m then m - 3 else m + 9 in
  let doy := (153 * mp + 2) / 5 + d - 1 in
  let doe := yoe * 365 + yoe / 4 - yoe / 100 + doy in
  era * 146097 + doe - 719468.

Definition civil_from_days (z : Z) : Z * Z * Z :=
  let z := z + 719468 in
  let era := z / 146097 in
  let doe := z - era * 146097 in
  let yoe := (doe - doe / 1460 + doe / 36524 - doe / 146096) / 365 in
  let y := yoe + era * 400 in
  let doy := doe - (365 * yoe + yoe / 4 - yoe / 100) in
  let mp := (5 * doy + 2) / 153 in
  let d := doy - (153 * mp + 2) / 5 + 1 in
  let m := if Z.ltb mp 10 then mp + 3 else mp - 9 in
  (if Z.leb m 2 then y + 1 else y, m, d).

(** [d.setFullYear(d.getFullYear() + 1)] on a server whose time zone is
    UTC. *)
Definition setFullYear_next (t : Z) : Z :=
  let '(y, m, d) := civil_from_days (t / day_ms) in
  days_from_civil (y + 1) m d * day_ms + t mod day_ms.

(** [d.setDate(d.getDate() + n)] on a server whose time zone is UTC. *)
Definition setDate_plus (t n : Z) : Z := t + n * day_ms.

(** The instants a [Date] can hold ([TimeClip]); past them the date is
    invalid and [toISOString] throws. *)
Definition valid_date (t : Z) : bool := Z.leb (Z.abs t) 8640000000000000.

End Http.

(** ** app/api/verify-license/route.ts *)

Module VerifyLicense.
Import Supabase Http.
Local Open Scope Z_scope.

Record VerifyLicenseRequest : Type := mkRequest {
  token : Jwt.token;
  device_fingerprint : JS.value
}.

(** The [data] of a [VerifyLicenseResponse]. *)
Record VerifyData : Type := mkData {
  valid : bool;
  tier : string;
  expires_at : option Z;
  device_limit : Z;
  current_devices_count : Z;
  device_limit_exceeded : bool
}.

(** [!body.token]: the empty string is no token. *)
Definition no_token (t : Jwt.token) : bool :=
  match t with
  | Jwt.Malformed text => blank text
  | Jwt.Jws _ _ _ => false
  end.

(** [decodedHeader?.payload?.jti], when it is there and not empty. *)
Definition payload_jti (t : Jwt.token) : option string :=
  match Jwt.decode t with
  | Some (_, c) =>
      let jti := Jwt.jti (Jwt.payload c) in
      if blank jti then None else Some jti
  | None => None
  end.

(** [license.current_devices?.length || 0] *)
Definition devices_length (l : License) : Z :=
  match current_devices l with
  | Some devices => Z.of_nat (List.length devices)
  | None => 0
  end.

(** [license.current_devices?.includes(fp)], as the condition reads it. *)
Definition devices_include (l : License) (fp : string) : bool :=
  match current_devices l with
  | Some devices => existsb (String.eqb fp) devices
  | None => false
  end.

(** [license.current_devices || []] *)
Definition devices_or_empty (l : License) : list string :=
  match current_devices l with
  | Some devices => devices
  | None => []
  end.

(** [license.expires_at && new Date(license.expires_at) < new Date()] *)
Definition record_expired (l : License) (now : Z) : bool :=
  match Supabase.expires_at l with
  | Some e => Z.ltb e now
  | None => false
  end.

Definition result (l : License) (currentDevicesCount : Z)
  (deviceLimitExceeded : bool) : Response VerifyData :=
  accept (mkData true (plan l) (Supabase.expires_at l) (Supabase.device_limit l)
            currentDevicesCount deviceLimitExceeded).

(** The [license_activations] insert; its outcome is not looked at. *)
Definition log_activation {R} (rt : Runtime) (licenseKey fp : string)
  (deviceLimitExceeded : bool) (next : handler R) : handler R :=
  Await (InsertActivation
           (mkActivation licenseKey fp (now rt)
              (negb deviceLimitExceeded) deviceLimitExceeded))
        (fun _ => next).

(** Lines 108 to 162: the device fingerprint and the response. *)
Definition bind_device (rt : Runtime) (licenseKey : string) (license : License)
  (fingerprint : JS.value) : handler (Response VerifyData) :=
  let currentDevicesCount := devices_length license in
  if JS.truthy fingerprint then
    match Fingerprint.normalizeDeviceFingerprint fingerprint with
    | JS.Throw _ => Respond internal_error
    | JS.Return normalizedFingerprint =>
        let isDeviceRegistered := devices_include license normalizedFingerprint in
        if negb isDeviceRegistered then
          if currentDevicesCount <? Supabase.device_limit license then
            let updatedDevices :=
              devices_or_empty license ++ [normalizedFingerprint] in
            Await (UpdateCurrentDevices licenseKey updatedDevices)
              (fun u =>
                 let currentDevicesCount :=
                   if negb (Supabase.error u)
                   then Z.of_nat (List.length updatedDevices)
                   else currentDevicesCount in
                 log_activation rt licenseKey normalizedFingerprint false
                   (Respond (result license currentDevicesCount false)))
          else
            log_activation rt licenseKey normalizedFingerprint true
              (Respond (result license currentDevicesCount true))
        else Respond (result license currentDevicesCount false)
    end
  else Respond (result license currentDevicesCount false).

(** The refusals of lines 82 to 96. *)
Definition revoked_response : Response VerifyData :=
  refuse 403 "License has been revoked".

Definition expired_response : Response VerifyData :=
  refuse 403 "License has expired".

(** Lines 82 to 106: revocation, expiry of the record, the token. *)
Definition checks (rt : Runtime) (licenseKey : string) (license : License)
  (body : VerifyLicenseRequest) : handler (Response VerifyData) :=
  if revoked license then Respond revoked_response
  else if record_expired license (now rt) then Respond expired_response
  else
    match Crypto.verifyLicenseToken (env rt) (now rt) (token body) with
    | JS.Throw _ => Respond (refuse 403 "Invalid license token signature")
    | JS.Return _ =>
        bind_device rt licenseKey license (device_fingerprint body)
    end.

(** [POST]; [body] is [None] when the request is not JSON. *)
Definition POST (rt : Runtime) (body : option VerifyLicenseRequest)
  : handler (Response VerifyData) :=
  match body with
  | None => Respond (refuse 400 "Invalid JSON in request body")
  | Some body =>
      if no_token (token body) then
        Respond (refuse 400 "Missing required field: token")
      else
        match payload_jti (token body) with
        | None => Respond (refuse 400 "Invalid JWT token - missing jti")
        | Some licenseKey =>
            Await (SelectByKey licenseKey)
              (fun fetched =>
                 match Supabase.error fetched, Supabase.data fetched with
                 | false, Some license => checks rt licenseKey license body
                 | _, _ => Respond (refuse 404 "License not found")
                 end)
        end
  end.

End VerifyLicense.

(** ** app/api/revoke-license/route.ts *)

Module RevokeLicense.
Import Supabase Http.

Record RevokeLicenseRequest : Type := mkRequest { license_key : string }.

Record RevokeData : Type := mkData {
  message : string;
  d_license_key : string;
  d_revoked : bool
}.

(** [!providedToken || providedToken !== adminToken] *)
Definition unauthorized (adminToken : string) (provided : option string)
  : bool :=
  match provided with
  | None => true
  | Some p => blank p || negb (String.eqb p adminToken)
  end.

(** [POST]; [header] is the request's [X-ADMIN-TOKEN]. *)
Definition POST (rt : Runtime) (header : option string)
  (body : option RevokeLicenseRequest) : handler (Response RevokeData) :=
  if Crypto.unset (Crypto.ADMIN_ISSUE_TOKEN (env rt)) then
    Respond (refuse 500 "Server configuration error")
  else
    let adminToken := Crypto.or_default (Crypto.ADMIN_ISSUE_TOKEN (env rt)) EmptyString in
    if unauthorized adminToken header then
      Respond (refuse 401 "Unauthorized - Invalid admin token")
    else
      match body with
      | None => Respond (refuse 400 "Invalid JSON in request body")
      | Some body =>
          if blank (license_key body) then
            Respond (refuse 400 "Missing required field: license_key")
          else
            Await (SelectByKey (license_key body))
              (fun fetched =>
                 match Supabase.error fetched, Supabase.data fetched with
                 | false, Some existingLicense =>
                     if revoked existingLicense then
                       Respond (refuse 400 "License is already revoked")
                     else
                       Await (UpdateRevoked (license_key body))
                         (fun u =>
                            if Supabase.error u then
                              Respond (refuse 500 "Failed to revoke license in database")
                            else
                              Respond (accept (mkData "License revoked successfully"
                                                 (license_key body) true)))
                 | _, _ => Respond (refuse 404 "License not found")
                 end)
      end.

End RevokeLicense.

(** ** app/api/issue-license/route.ts *)

Module IssueLicense.
Import Supabase Http.
Local Open Scope Z_scope.

Record IssueLicenseRequest : Type := mkRequest {
  email : string;
  plan : string;
  device_limit : JS.value;
  period_days : JS.value
}.

Record IssueData : Type := mkData {
  token : Jwt.token;
  license_key : string;
  expires_at : Z
}.

(** [typeof x !== 'number' || x < 1] is false: the number. *)
Definition positive_number (v : JS.value) : option Z :=
  match v with
  | JS.Number z => if z <? 1 then None else Some z
  | _ => None
  end.

Definition POST (rt : Runtime) (header : option string)
  (body : option IssueLicenseRequest) : handler (Response IssueData) :=
  if Crypto.unset (Crypto.ADMIN_ISSUE_TOKEN (env rt)) then
    Respond (refuse 500 "Server configuration error")
  else
    let adminToken := Crypto.or_default (Crypto.ADMIN_ISSUE_TOKEN (env rt)) EmptyString in
    if RevokeLicense.unauthorized adminToken header then
      Respond (refuse 401 "Unauthorized - Invalid admin token")
    else
      match body with
      | None => Respond (refuse 400 "Invalid JSON in request body")
      | Some body =>
          if blank (email body) || blank (plan body)
             || negb (JS.truthy (device_limit body))
             || negb (JS.truthy (period_days body))
          then
            Respond (refuse 400
              "Missing required fields: email, plan, device_limit, period_days")
          else if negb (existsb (String.eqb (plan body)) ["pro"; "enterprise"])
          then
            (* the message, without the quotation marks around the two plans *)
            Respond (refuse 400 "Invalid plan. Must be pro or enterprise")
          else
            match positive_number (device_limit body) with
            | None =>
                Respond (refuse 400 "device_limit must be a positive number")
            | Some limit =>
                match positive_number (period_days body) with
                | None =>
                    Respond (refuse 400 "period_days must be a positive number")
                | Some days =>
                    let licenseKey := uuid rt in
                    let expiresAt := setDate_plus (now rt) days in
                    let payload :=
                      Jwt.mkPayload "LVX" (email body) licenseKey (plan body)
                        limit (now rt / 1000) (expiresAt / 1000) in
                    match Crypto.signLicenseToken (env rt) (now rt) payload with
                    | JS.Throw _ => Respond internal_error
                    | JS.Return token =>
                        if negb (valid_date expiresAt) then
                          (* expiresAt.toISOString() throws *)
                          Respond internal_error
                        else
                          Await (InsertLicense
                                   (mkLicense licenseKey token (email body)
                                      (plan body) limit (Some [])
                                      (Some expiresAt) false))
                            (fun inserted =>
                               if Supabase.error inserted then
                                 Respond (refuse 500
                                   "Failed to store license in database")
                               else
                                 Respond (accept
                                            (mkData token licenseKey expiresAt)))
                    end
                end
            end
      end.

End IssueLicense.

(** ** app/api/generate-free-license/route.ts and
       app/api/generate-pro-license/route.ts *)

Module GenerateLicense.
Import Supabase Http.
Local Open Scope Z_scope.

(** [{ success, error, license_key, expires_at, message }] and the
    status. *)
Record GenerateResponse : Type := mkGenerated {
  status : Z;
  success : bool;
  error : option string;
  license_key : option string;
  expires_at : option Z;
  message : option string
}.

Definition refuse (code : Z) (msg : string) : GenerateResponse :=
  mkGenerated code false (Some msg) None None None.

Definition generated (key : string) (expiresAt : Z) (msg : string)
  : GenerateResponse :=
  mkGenerated 200 true None (Some key) (Some expiresAt) (Some msg).

(** The class [[^\s@]]. *)
Definition not_space_nor_at (c : ascii) : bool :=
  negb (JS.is_space c) && negb (Ascii.eqb c "@"%char).

(** [cls+] followed by what [k] matches: at least one character of the
    class, then any split that lets the rest match. *)
Fixpoint plus (cls : ascii -> bool) (k : list ascii -> bool) (l : list ascii)
  : bool :=
  match l with
  | [] => false
  | c :: r => cls c && (k r || plus cls k r)
  end.

(** One literal character followed by what [k] matches. *)
Definition lit (x : ascii) (k : list ascii -> bool) (l : list ascii) : bool :=
  match l with
  | [] => false
  | c :: r => Ascii.eqb c x && k r
  end.

(** End of input. *)
Definition eos (l : list ascii) : bool :=
  match l with [] => true | _ => false end.

(** [/^[^\s@]+@[^\s@]+\.[^\s@]+$/.test(email)] *)
Definition emailRegex_test (mail : string) : bool :=
  plus not_space_nor_at
    (lit "@"%char
       (plus not_space_nor_at
          (lit "."%char (plus not_space_nor_at eos))))
    (list_ascii_of_string mail).

(** What the two routes share from the lookup on: the enterprise license
    of this email, the key, the token, the row. *)
Definition generate (rt : Runtime) (mail : string) (success_message : string)
  : handler GenerateResponse :=
  Await (SelectByEmailPlan mail "enterprise")
    (fun found =>
       match Supabase.data found with
       | Some existingLicense =>
           Respond (refuse 409
             "An enterprise license already exists for this email")
       | None =>
           let licenseKey := uuid rt in
           let expiresAt := setFullYear_next (now rt) in
           let payload :=
             Jwt.mkPayload "LVX" mail licenseKey "enterprise" 1
               (now rt / 1000) (expiresAt / 1000) in
           match Crypto.signLicenseToken (env rt) (now rt) payload with
           | JS.Throw _ => Respond (refuse 500 "License generation failed")
           | JS.Return token =>
               Await (InsertLicense
                        (mkLicense licenseKey token mail "enterprise" 1
                           (Some []) (Some expiresAt) false))
                 (fun inserted =>
                    if Supabase.error inserted then
                      Respond (refuse 500 "Failed to store license")
                    else
                      Respond (generated licenseKey expiresAt success_message))
           end
       end).

(** generate-free-license: [body] is the request's [email], [None] when
    the request is not JSON. *)
Definition POST_free (rt : Runtime) (body : option string)
  : handler GenerateResponse :=
  match body with
  | None => Respond (refuse 500 "Internal server error")
  | Some mail =>
      if blank mail || blank (JS.trim mail) then
        Respond (refuse 400 "Email is required")
      else if negb (emailRegex_test mail) then
        Respond (refuse 400 "Invalid email format")
      else generate rt mail "Enterprise license generated successfully!"
  end.

(** generate-pro-license *)
Definition POST_pro (rt : Runtime) (body : option string)
  : handler GenerateResponse :=
  match body with
  | None => Respond (refuse 400 "Invalid JSON in request body")
  | Some mail =>
      if blank mail then Respond (refuse 400 "Email is required")
      else generate rt mail "Enterprise license generated successfully"
  end.

End GenerateLicense.

(** ** app/api/get-license-token/route.ts *)

Module GetLicenseToken.
Import Supabase Http.
Local Open Scope Z_scope.

Record TokenData : Type := mkData {
  jwt : Jwt.token;
  expires_at : option Z;
  tier : string
}.

(** [new Date(license.expires_at)]; [new Date(null)] is the epoch. *)
Definition date_of (e : option Z) : Z :=
  match e with Some t => t | None => 0 end.

Definition POST (rt : Runtime) (body : option string)
  : handler (Response TokenData) :=
  match body with
  | None => Respond (Http.refuse 400 "Invalid JSON in request body")
  | Some key =>
      if blank key then
        Respond (Http.refuse 400 "Missing required field: license_key")
      else
        Await (SelectByKey key)
          (fun fetched =>
             match Supabase.error fetched, Supabase.data fetched with
             | false, Some license =>
                 if revoked license then
                   Respond (Http.refuse 403 "License has been revoked")
                 else if date_of (Supabase.expires_at license) <? now rt then
                   Respond (Http.refuse 403 "License has expired")
                 else
                   Respond (accept (mkData (Supabase.jwt license)
                                      (Supabase.expires_at license)
                                      (plan license)))
             | _, _ => Respond (Http.refuse 404 "License key not found")
             end)
  end.

End GetLicenseToken.

(** ** The server as a whole: any request, served one after another *)

Module Server.
Import Supabase Http.

Inductive request : Type :=
| VerifyRequest (body : option VerifyLicense.VerifyLicenseRequest)
| RevokeRequest (header : option string)
    (body : option RevokeLicense.RevokeLicenseRequest)
| IssueRequest (header : option string)
    (body : option IssueLicense.IssueLicenseRequest)
| FreeRequest (body : option string)
| ProRequest (body : option string)
| TokenRequest (body : option string).

(** A request with the runtime and the storage service it meets. *)
Record call : Type := mkCall {
  runtime : Runtime;
  service : Service;
  req : request
}.

(** The tables after the request has been served. *)
Definition serve (c : call) (db : Database) : Database :=
  match req c with
  | VerifyRequest body =>
      fst (run (service c) (VerifyLicense.POST (runtime c) body) db)
  | RevokeRequest header body =>
      fst (run (service c) (RevokeLicense.POST (runtime c) header body) db)
  | IssueRequest header body =>
      fst (run (service c) (IssueLicense.POST (runtime c) header body) db)
  | FreeRequest body =>
      fst (run (service c) (GenerateLicense.POST_free (runtime c) body) db)
  | ProRequest body =>
      fst (run (service c) (GenerateLicense.POST_pro (runtime c) body) db)
  | TokenRequest body =>
      fst (run (service c) (GetLicenseToken.POST (runtime c) body) db)
  end.

Definition serve_all (cs : list call) (db : Database) : Database :=
  fold_left (fun db c => serve c db) cs db.

(** Verification calls for one token served in a row, each with its own
    runtime, service and fingerprint: the tables at the end and the
    responses in order. *)
Fixpoint verify_all (t : Jwt.token)
  (cs : list (Runtime * Service * JS.value)) (db : Database)
  : Database * list (Response VerifyLicense.VerifyData) :=
  match cs with
  | [] => (db, [])
  | (rt, s, fp) :: rest =>
      let (db1, r) :=
        run s (VerifyLicense.POST rt (Some (VerifyLicense.mkRequest t fp))) db in
      let (db2, rs) := verify_all t rest db1 in
      (db2, r :: rs)
  end.

End Server.

(** ** The specification's admission outcomes, as they show in the tables
       and in the response *)

Module Admission.
Import Supabase Http.
Local Open Scope Z_scope.

Inductive Outcome : Type := already_bound | bound | limit_exceeded.

(** What the call on license row [l] with normalized fingerprint [fp]
    left behind: the [licenses] table before and after, and the response.
    - [already_bound]: nothing written, the count as it was, no flag;
    - [bound]: [fp] appended to the row's devices, the count one more;
    - [limit_exceeded]: nothing written, the count as it was, the flag. *)
Definition produced (l : License) (fp : string) (before after : Database)
  (r : Response VerifyLicense.VerifyData) (o : Outcome) : Prop :=
  match o with
  | already_bound =>
      licenses after = licenses before
      /\ r = VerifyLicense.result l (VerifyLicense.devices_length l) false
  | bound =>
      licenses after =
        map (set_devices (license_key l)
               (VerifyLicense.devices_or_empty l ++ [fp])) (licenses before)
      /\ r = VerifyLicense.result l (VerifyLicense.devices_length l + 1) false
  | limit_exceeded =>
      licenses after = licenses before
      /\ r = VerifyLicense.result l (VerifyLicense.devices_length l) true
  end.

(** A verification call for token [t] that nothing stops before the
    device fingerprint: the store answers, the record of [l] has not
    expired, the token verifies. *)
Definition reaches_admission (t : Jwt.token) (l : License)
  (c : Runtime * Service * JS.value) : Prop :=
  let '(rt, s, _) := c in
  select_fails s = false
  /\ VerifyLicense.record_expired l (now rt) = false
  /\ exists cl, Crypto.verifyLicenseToken (env rt) (now rt) t = JS.Return cl.

(** The outcome a response reports, when it reports one. *)
Definition flagged (r : Response VerifyLicense.VerifyData) : bool :=
  match data r with
  | Some d => VerifyLicense.device_limit_exceeded d
  | None => false
  end.

Definition admitted (r : Response VerifyLicense.VerifyData) : bool :=
  ok r && negb (flagged r).

Definition count_of (r : Response VerifyLicense.VerifyData) : option Z :=
  match data r with
  | Some d => Some (VerifyLicense.current_devices_count d)
  | None => None
  end.

End Admission.

(** ** Raw fingerprints that name the same device *)

Module SameDevice.
Import JS Fingerprint.

(** A character that normalization drops: anything that, lowercased, is
    outside [a-z0-9_-]. *)
Definition extraneous (c : ascii) : bool := negb (in_charset (lower_char c)).

(** Two raw inputs that differ only by case, by surrounding whitespace or
    by extraneous characters. *)
Inductive differ_only : list ascii -> list ascii -> Prop :=
| same : forall l, differ_only l l
| by_case : forall l1 c c' l2,
    lower_char c = lower_char c' ->
    differ_only (l1 ++ c :: l2) (l1 ++ c' :: l2)
| by_surrounding_whitespace : forall before l after,
    forallb is_space before = true ->
    forallb is_space after = true ->
    differ_only l (before ++ l ++ after)
| by_punctuation : forall l1 p l2,
    extraneous p = true ->
    differ_only (l1 ++ l2) (l1 ++ p :: l2)
| symmetric : forall a b, differ_only a b -> differ_only b a
| transitive : forall a b c,
    differ_only a b -> differ_only b c -> differ_only a c.

End SameDevice.

(** ** A license to try things on

    The license of the specification's scenario: one device, thirty
    days. *)

Module Scenario.
Import Supabase Http.
Local Open Scope Z_scope.

(** A production environment with both halves of key pair 1. *)
Definition env0 : Crypto.Env :=
  Crypto.mkEnv (Some "./private_key.pem") (Some "./public_key.pem")
    (Some "production") (Some (Jwt.RsaPrivate 1)) (Some (Jwt.RsaPublic 1))
    None None (Some "admin-secret") (fun _ => None).

(** Issued at 1700000000 s, expiring thirty days later. *)
Definition issued_s : Z := 1700000000.
Definition expires_s : Z := 1702592000.

Definition payload0 : Jwt.LicensePayload :=
  Jwt.mkPayload "LVX" "user@example.com" "lic-0001" "pro" 1
    issued_s expires_s.

Definition header0 : Jwt.header := Jwt.mkHeader "RS256" "JWT".

Definition claims0 : Jwt.claims :=
  Jwt.mkClaims payload0 (Some "levox-license-server") (Some "levox-cli").

Definition token0 : Jwt.token :=
  Jwt.Jws header0 claims0 (Jwt.Signed 1 header0 claims0).

Definition license0 : License :=
  mkLicense "lic-0001" token0 "user@example.com" "pro" 1 (Some [])
    (Some (expires_s * 1000)) false.

Definition db0 : Database := mkDatabase [license0] [].

(** A runtime at instant [t]. *)
Definition at_time (t : Z) : Runtime := mkRuntime env0 t "lic-0002".

(** Some instant during the license's life. *)
Definition midlife : Z := 1701000000000.

Definition verify_with (fp : JS.value)
  : option VerifyLicense.VerifyLicenseRequest :=
  Some (VerifyLicense.mkRequest token0 fp).

End Scenario.

(** ** What the tables keep through the requests *)

Module Invariants.
Import Supabase.
Local Open Scope Z_scope.

Definition no_rows : Database := mkDatabase [] [].

(** No license has more devices in its list than its limit. *)
Definition within_quota (db : Database) : Prop :=
  Forall (fun r => VerifyLicense.devices_length r <= device_limit r)
    (licenses db).

(** No two rows of [licenses] have the same key. *)
Definition keys_unique (db : Database) : Prop :=
  NoDup (map license_key (licenses db)).

(** The columns of a license that no handler writes after the insert. *)
Definition issued_as (r : License)
  : string * Jwt.token * string * string * Z * option Z :=
  (license_key r, jwt r, email r, plan r, device_limit r, expires_at r).

(** [db'] is [db] with rows added at the end of either table, and with
    nothing but device lists and revocation flags changed in the rows
    that were there. *)
Definition grown_from (db db' : Database) : Prop :=
  (exists more,
     map issued_as (licenses db') = map issued_as (licenses db) ++ more)
  /\ (exists more,
        license_activations db' = license_activations db ++ more)
  /\ (forall key, revoked_in db key -> revoked_in db' key).

(** The activation row a verification call writes for fingerprint [fp]:
    [success] is the negation of [device_limit_exceeded]. *)
Definition activation_of (rt : Http.Runtime) (key fp : string) (flag : bool)
  : Activation :=
  mkActivation key fp (Http.now rt) (negb flag) flag.

(** The activations after a call that logs, by whether the log is
    written. *)
Definition logged (rt : Http.Runtime) (s : Service) (db : Database)
  (key fp : string) (flag : bool) : list Activation :=
  if log_fails s then license_activations db
  else license_activations db ++ [activation_of rt key fp flag].

(** The row the issue route inserts. *)
Definition issued_row (rt : Http.Runtime) (mail tier : string) (limit days : Z)
  (t : Jwt.token) : License :=
  mkLicense (Http.uuid rt) t mail tier limit (Some [])
    (Some (Http.setDate_plus (Http.now rt) days)) false.

(** The payload the issue route signs. *)
Definition issued_payload (rt : Http.Runtime) (mail tier : string)
  (limit days : Z) : Jwt.LicensePayload :=
  Jwt.mkPayload "LVX" mail (Http.uuid rt) tier limit (Http.now rt / 1000)
    (Http.setDate_plus (Http.now rt) days / 1000).

(** The row and the payload of the two generation routes. *)
Definition generated_payload (rt : Http.Runtime) (mail : string)
  : Jwt.LicensePayload :=
  Jwt.mkPayload "LVX" mail (Http.uuid rt) "enterprise" 1 (Http.now rt / 1000)
    (Http.setFullYear_next (Http.now rt) / 1000).

Definition generated_row (rt : Http.Runtime) (mail : string) (t : Jwt.token)
  : License :=
  mkLicense (Http.uuid rt) t mail "enterprise" 1 (Some [])
    (Some (Http.setFullYear_next (Http.now rt))) false.

(** *** Calls in flight against tables that started as [db0] *)

(** A write that cannot take a license of [db0] over its limit: a device
    list no longer than the limit of every license with that key, a
    revocation, an activation; never a new license. *)
Definition quota_safe_query (db0 : Database) (q : query) : Prop :=
  match q with
  | UpdateCurrentDevices key devices =>
      forall r0, In r0 (licenses db0) -> license_key r0 = key ->
                 Z.of_nat (List.length devices) <= device_limit r0
  | InsertLicense _ => False
  | _ => True
  end.

(** What a lookup by key can answer while the licenses are those of
    [db0]: the row with that key, with the limit every license of [db0]
    with that key has. *)
Definition faithful_answer (db0 : Database) (q : query) (a : answer) : Prop :=
  match q with
  | SelectByKey key =>
      forall l, data a = Some l ->
        license_key l = key
        /\ forall r0, In r0 (licenses db0) -> license_key r0 = key ->
                      device_limit r0 = device_limit l
  | _ => True
  end.

(** A handler all of whose writes are safe, whatever it is answered. *)
Inductive quota_safe {R : Type} (db0 : Database) : handler R -> Prop :=
| safe_respond : forall r, quota_safe db0 (Respond r)
| safe_await : forall q k,
    quota_safe_query db0 q ->
    (forall a, faithful_answer db0 q a -> quota_safe db0 (k a)) ->
    quota_safe db0 (Await q k).

(** The licenses are those of [db0], device lists and flags apart, and
    none is over its limit. *)
Definition same_licenses_within_quota (db0 db : Database) : Prop :=
  map issued_as (licenses db) = map issued_as (licenses db0)
  /\ within_quota db.

End Invariants.

(** * Properties *)

(** ** Characters and strings *)

Module JSFacts.
Import JS Fingerprint.

(** A property of characters that computes holds of all 256 of them. *)
Ltac all_chars c :=
  destruct c as [[] [] [] [] [] [] [] []]; vm_compute; reflexivity.

Lemma space_not_in_charset (c : ascii) :
  is_space c = true -> in_charset (lower_char c) = false.
Proof.
  revert c.
  assert (H : forall c, implb (is_space c) (negb (in_charset (lower_char c))) = true)
    by (intro c; all_chars c).
  intros c Hc. specialize (H c). rewrite Hc in H. simpl in H.
  now apply negb_true_iff.
Qed.

Lemma charset_lower_fixed (c : ascii) :
  in_charset c = true -> lower_char c = c.
Proof.
  assert (H : forall c, implb (in_charset c) (Ascii.eqb (lower_char c) c) = true)
    by (intro d; all_chars d).
  intros Hc. specialize (H c). rewrite Hc in H. simpl in H.
  now apply Ascii.eqb_eq.
Qed.

Lemma charset_not_space (c : ascii) :
  in_charset c = true -> is_space c = false.
Proof.
  assert (H : forall c, implb (in_charset c) (negb (is_space c)) = true)
    by (intro d; all_chars d).
  intros Hc. specialize (H c). rewrite Hc in H. simpl in H.
  now apply negb_true_iff.
Qed.

Lemma length_string_of_list (l : list ascii) :
  String.length (string_of_list_ascii l) = List.length l.
Proof. induction l; simpl; congruence. Qed.

Lemma chars_of_string_of_list (l : list ascii) :
  list_ascii_of_string (string_of_list_ascii l) = l.
Proof. apply list_ascii_of_string_of_list_ascii. Qed.

Lemma string_of_chars (s : string) :
  string_of_list_ascii (list_ascii_of_string s) = s.
Proof. apply string_of_list_ascii_of_string. Qed.

(** Deleting the characters the pattern matches keeps the others. *)
Lemma replace_class_delete (cls : ascii -> bool) (l : list ascii) :
  replace_class cls [] l = filter (fun c => negb (cls c)) l.
Proof.
  unfold replace_class. induction l as [|c r IH]; simpl; [reflexivity|].
  destruct (cls c); simpl; now rewrite IH.
Qed.

Lemma filter_not_not_in_charset (l : list ascii) :
  filter (fun c => negb (not_in_charset c)) l = filter in_charset l.
Proof.
  apply filter_ext. intro c. unfold not_in_charset. apply negb_involutive.
Qed.

Lemma substring_prefix (n : nat) (l : list ascii) :
  substring_chars 0 (Z.of_nat n) l = firstn n l.
Proof.
  unfold substring_chars.
  set (len := Z.of_nat (List.length l)).
  set (fs := Z.min (Z.max 0 0) len).
  set (fe := Z.min (Z.max (Z.of_nat n) 0) len).
  assert (Hfrom : Z.min fs fe = 0%Z) by (subst fs fe len; lia).
  assert (Hto : Z.max fs fe = Z.of_nat (Nat.min n (List.length l)))
    by (subst fs fe len; lia).
  rewrite Hfrom, Hto, Z.sub_0_r, Nat2Z.id. simpl.
  destruct (Nat.le_gt_cases n (List.length l)) as [Hle|Hgt].
  - now rewrite Nat.min_l.
  - rewrite Nat.min_r by lia. rewrite !firstn_all2 by lia. reflexivity.
Qed.

(** [drop_space] removes a prefix of whitespace and stops at the first
    character that is none. *)
Lemma drop_space_split (l : list ascii) :
  exists before,
    l = before ++ drop_space l
    /\ forallb is_space before = true
    /\ (forall c, hd_error (drop_space l) = Some c -> is_space c = false).
Proof.
  induction l as [|c r (before & Heq & Hsp & Hhd)]; simpl.
  - exists []. repeat split; simpl; try reflexivity. discriminate.
  - destruct (is_space c) eqn:Hc.
    + exists (c :: before). simpl. rewrite Hc, Hsp. repeat split; auto.
      now rewrite <- Heq.
    + exists []. simpl. repeat split; auto.
      intros d [= <-]. exact Hc.
Qed.

Lemma forallb_rev {A} (f : A -> bool) (l : list A) :
  forallb f (rev l) = forallb f l.
Proof.
  induction l as [|a r IH]; simpl; [reflexivity|].
  rewrite forallb_app, IH. simpl. rewrite andb_true_r. apply andb_comm.
Qed.

(** [trim] removes the whitespace around its argument and nothing else. *)
Lemma trim_chars_trimmed (l : list ascii) : trimmed_of l (trim_chars l).
Proof.
  unfold trim_chars.
  destruct (drop_space_split l) as (before & Heq & Hb & Hhd).
  destruct (drop_space_split (rev (drop_space l))) as (after & Heq' & Ha & Hhd').
  remember (drop_space l) as d eqn:Hd.
  remember (drop_space (rev d)) as e eqn:He.
  assert (Hcore : d = rev e ++ rev after).
  { rewrite <- (rev_involutive d), Heq', rev_app_distr. reflexivity. }
  apply (trimmed_intro l (rev e) before (rev after)).
  - rewrite Heq at 1. now rewrite Hcore.
  - exact Hb.
  - now rewrite forallb_rev.
  - intros c Hc. apply Hhd. rewrite Hcore.
    destruct (rev e) as [|y ys]; [discriminate|]. exact Hc.
  - rewrite rev_involutive. exact Hhd'.
Qed.

End JSFacts.

(** ** The fingerprint normalizer *)

Module FingerprintFacts.
Import JS Fingerprint JSFacts.

Lemma canonical_app (a b : list ascii) :
  canonical (a ++ b) = canonical a ++ canonical b.
Proof. unfold canonical. now rewrite map_app, filter_app. Qed.

Lemma canonical_spaces (l : list ascii) :
  forallb is_space l = true -> canonical l = [].
Proof.
  unfold canonical. induction l as [|c r IH]; simpl; [reflexivity|].
  intros [Hc Hr]%andb_true_iff.
  rewrite (space_not_in_charset c Hc). auto.
Qed.

(** Trimming does not change what is kept. *)
Lemma canonical_trimmed (l core : list ascii) :
  trimmed_of l core -> canonical l = canonical core.
Proof.
  intros [before after -> Hb Ha _ _].
  rewrite !canonical_app, (canonical_spaces before Hb),
    (canonical_spaces after Ha), app_nil_r.
  reflexivity.
Qed.

Lemma canonical_in_charset (l : list ascii) :
  forallb in_charset (canonical l) = true.
Proof.
  unfold canonical. apply forallb_forall. intros c Hc.
  now apply filter_In in Hc.
Qed.

(** A string over the character set is its own canonical form. *)
Lemma canonical_fixed (l : list ascii) :
  forallb in_charset l = true -> canonical l = l.
Proof.
  unfold canonical. induction l as [|c r IH]; simpl; [reflexivity|].
  intros [Hc Hr]%andb_true_iff.
  rewrite (charset_lower_fixed c Hc), Hc. f_equal. auto.
Qed.

Lemma forallb_firstn {A} (f : A -> bool) (n : nat) (l : list A) :
  forallb f l = true -> forallb f (firstn n l) = true.
Proof.
  revert n. induction l as [|a r IH]; intros [|n]; simpl; auto.
  intros [Ha Hr]%andb_true_iff. rewrite Ha. simpl. auto.
Qed.

(** The code path of [normalizeDeviceFingerprint] on a string that is not
    empty, in closed form. *)
Lemma normalize_nonempty (s : string) :
  s <> EmptyString ->
  normalizeDeviceFingerprint (Str s) =
    if Nat.ltb (List.length (canonical (list_ascii_of_string s))) 8
    then Throw too_short_msg
    else Return (string_of_list_ascii
                   (firstn 128 (canonical (list_ascii_of_string s)))).
Proof.
  intros Hs. unfold normalizeDeviceFingerprint, truthy, is_string.
  destruct (String.eqb s EmptyString) eqn:E.
  - apply String.eqb_eq in E. contradiction.
  - cbn [negb orb]. unfold replace, toLowerCase, trim, substring, on_chars.
    rewrite !chars_of_string_of_list. cbn [list_ascii_of_string].
    rewrite replace_class_delete, filter_not_not_in_charset.
    change (filter in_charset (lower_chars (trim_chars (list_ascii_of_string s))))
      with (canonical (trim_chars (list_ascii_of_string s))).
    rewrite (canonical_trimmed _ _ (trim_chars_trimmed (list_ascii_of_string s))).
    rewrite !length_string_of_list.
    set (c := canonical (trim_chars (list_ascii_of_string s))).
    destruct (Nat.ltb (List.length c) 8); [reflexivity|].
    destruct (Nat.ltb 128 (List.length c)) eqn:E128.
    + change 128%Z with (Z.of_nat 128). now rewrite substring_prefix.
    + apply Nat.ltb_ge in E128. now rewrite firstn_all2.
Qed.

(** Anything but a string, and the empty string, is refused before any
    normalization. *)
Lemma normalize_not_a_string (v : value) :
  (forall s, v = Str s -> s = EmptyString) ->
  normalizeDeviceFingerprint v = Throw invalid_msg.
Proof.
  intros H. destruct v as [| |b|z|s]; try reflexivity.
  - unfold normalizeDeviceFingerprint. simpl. now rewrite orb_true_r.
  - unfold normalizeDeviceFingerprint. simpl. now rewrite orb_true_r.
  - rewrite (H s eq_refl). reflexivity.
Qed.

(** A normalized fingerprint: what it looks like. *)
Lemma normalize_shape (v : value) (fp : string) :
  normalizeDeviceFingerprint v = Return fp ->
  exists s, v = Str s /\ s <> EmptyString
    /\ Nat.leb 8 (List.length (canonical (list_ascii_of_string s))) = true
    /\ fp = string_of_list_ascii
              (firstn 128 (canonical (list_ascii_of_string s))).
Proof.
  intros H. destruct v as [| |b|z|s];
    try (unfold normalizeDeviceFingerprint in H; simpl in H;
         rewrite ?orb_true_r in H; discriminate).
  destruct (string_dec s EmptyString) as [->|Hs]; [discriminate|].
  rewrite (normalize_nonempty s Hs) in H.
  destruct (Nat.ltb _ 8) eqn:E; [discriminate|].
  injection H as <-. exists s. repeat split; auto.
  apply Nat.ltb_ge in E. now apply Nat.leb_le.
Qed.

End FingerprintFacts.

Module FingerprintSpec.
Import JS Fingerprint JSFacts FingerprintFacts SameDevice.

(** C6.  [normalizeDeviceFingerprint] does what the specification's
    [Normalize] says on every raw input: a value that is not a string and
    the empty string give the empty-input error; any other string is
    trimmed of its surrounding whitespace and lowercased, every character
    outside [a-z0-9_-] is dropped, fewer than 8 remaining characters give
    the too-short error, and otherwise the first 128 characters at most are
    returned (so a result has 8 to 128 characters, all of the set). *)
Theorem normalize_meets_spec (raw : value) :
  match raw with
  | Str s =>
      if String.eqb s EmptyString then
        as_spec (normalizeDeviceFingerprint raw) = Some (inl Empty)
      else
        exists core,
          trimmed_of (list_ascii_of_string s) core
          /\ as_spec (normalizeDeviceFingerprint raw)
             = Some (spec_Normalize_trimmed core)
          /\ forall fp, normalizeDeviceFingerprint raw = Return fp ->
               8 <= String.length fp <= 128
               /\ forallb in_charset (list_ascii_of_string fp) = true
  | _ => as_spec (normalizeDeviceFingerprint raw) = Some (inl Empty)
  end.
Proof.
  destruct raw as [| |b|z|s];
    try (rewrite normalize_not_a_string by (intros ? [=]); reflexivity).
  destruct (String.eqb s EmptyString) eqn:E.
  - apply String.eqb_eq in E. subst s. reflexivity.
  - assert (Hs : s <> EmptyString) by (intros ->; discriminate).
    exists (trim_chars (list_ascii_of_string s)).
    pose proof (trim_chars_trimmed (list_ascii_of_string s)) as Ht.
    split; [exact Ht|].
    rewrite (normalize_nonempty s Hs). unfold spec_Normalize_trimmed.
    rewrite <- (canonical_trimmed _ _ Ht).
    set (c := canonical (list_ascii_of_string s)).
    split.
    + destruct (Nat.ltb (List.length c) 8); reflexivity.
    + intros fp. destruct (Nat.ltb (List.length c) 8) eqn:E8; [discriminate|].
      intros Hfp.
      assert (Heq : fp = string_of_list_ascii (firstn 128 c)) by congruence.
      subst fp. clear Hfp. apply Nat.ltb_ge in E8.
      rewrite length_string_of_list, chars_of_string_of_list, length_firstn.
      split; [lia|]. apply forallb_firstn, canonical_in_charset.
Qed.

(** Inputs that differ only by case, surrounding whitespace or extraneous
    characters keep the same characters. *)
Lemma differ_only_canonical (a b : list ascii) :
  differ_only a b -> canonical a = canonical b.
Proof.
  induction 1 as [l|l1 c c' l2 Hc|before l after Hb Ha|l1 p l2 Hp
                  |a b _ IH|a b c _ IH1 _ IH2].
  - reflexivity.
  - rewrite !canonical_app. f_equal. unfold canonical. simpl. now rewrite Hc.
  - now rewrite !canonical_app, (canonical_spaces _ Hb),
      (canonical_spaces _ Ha), app_nil_r.
  - rewrite !canonical_app. f_equal. unfold canonical. simpl.
    unfold extraneous in Hp. apply negb_true_iff in Hp. now rewrite Hp.
  - now symmetry.
  - congruence.
Qed.

(** C8.  Normalization depends on its input only: raw inputs that differ
    only by case, surrounding whitespace or extraneous punctuation get the
    same canonical string, and normalizing a canonical string gives it
    back. *)
Theorem normalize_canonical_and_idempotent (a b y : string) :
  differ_only (list_ascii_of_string a) (list_ascii_of_string b) ->
  normalizeDeviceFingerprint (Str a) = Return y ->
  normalizeDeviceFingerprint (Str b) = Return y
  /\ normalizeDeviceFingerprint (Str y) = Return y.
Proof.
  intros Hab Ha.
  destruct (normalize_shape _ _ Ha) as (s & [= <-] & Hne & Hlen & Hy).
  apply Nat.leb_le in Hlen.
  pose proof (differ_only_canonical _ _ Hab) as Hc.
  assert (Hnonempty : forall t,
             8 <= List.length (canonical (list_ascii_of_string t)) ->
             t <> EmptyString).
  { intros t Ht ->. simpl in Ht. lia. }
  split.
  - rewrite (normalize_nonempty b) by (apply Hnonempty; rewrite <- Hc; exact Hlen).
    rewrite <- Hc.
    destruct (Nat.ltb_spec (List.length (canonical (list_ascii_of_string a))) 8);
      [lia|]. now rewrite Hy.
  - set (c := canonical (list_ascii_of_string a)) in *.
    assert (Hfix : canonical (list_ascii_of_string y) = firstn 128 c).
    { rewrite Hy, chars_of_string_of_list.
      apply canonical_fixed, forallb_firstn, canonical_in_charset. }
    rewrite (normalize_nonempty y)
      by (apply Hnonempty; rewrite Hfix, length_firstn; lia).
    rewrite Hfix, length_firstn.
    destruct (Nat.ltb_spec (Nat.min 128 (List.length c)) 8); [lia|].
    rewrite firstn_firstn, Nat.min_id. now rewrite Hy.
Qed.

(** The fingerprint with capitals, spaces around it and a colon in it is
    the fingerprint without. *)
Lemma normalize_canonical_and_idempotent_witness :
  normalizeDeviceFingerprint (Str "  DEVICE:-aaa111 ") = Return "device-aaa111"
  /\ normalizeDeviceFingerprint (Str "device-aaa111") = Return "device-aaa111".
Proof.
  apply (normalize_canonical_and_idempotent
           "device-aaa111" "  DEVICE:-aaa111 " "device-aaa111").
  - apply transitive with (list_ascii_of_string "DEVICE:-aaa111").
    + apply transitive with (list_ascii_of_string "DEVICE-aaa111").
      * apply transitive with (list_ascii_of_string "DEVICe-aaa111").
        -- apply transitive with (list_ascii_of_string "DEVIce-aaa111").
           ++ apply transitive with (list_ascii_of_string "DEVice-aaa111").
              ** apply transitive with (list_ascii_of_string "DEvice-aaa111").
                 --- apply transitive with (list_ascii_of_string "Device-aaa111").
                     +++ apply (by_case [] "d"%char "D"%char
                                  (list_ascii_of_string "evice-aaa111")).
                         reflexivity.
                     +++ apply (by_case (list_ascii_of_string "D")
                                  "e"%char "E"%char
                                  (list_ascii_of_string "vice-aaa111")).
                         reflexivity.
                 --- apply (by_case (list_ascii_of_string "DE")
                              "v"%char "V"%char
                              (list_ascii_of_string "ice-aaa111")).
                     reflexivity.
              ** apply (by_case (list_ascii_of_string "DEV")
                          "i"%char "I"%char
                          (list_ascii_of_string "ce-aaa111")).
                 reflexivity.
           ++ apply (by_case (list_ascii_of_string "DEVI")
                       "c"%char "C"%char (list_ascii_of_string "e-aaa111")).
              reflexivity.
        -- apply (by_case (list_ascii_of_string "DEVIC")
                    "e"%char "E"%char (list_ascii_of_string "-aaa111")).
           reflexivity.
      * apply (by_punctuation (list_ascii_of_string "DEVICE") ":"%char
                 (list_ascii_of_string "-aaa111")).
        reflexivity.
    + apply (by_surrounding_whitespace (list_ascii_of_string "  ")
               (list_ascii_of_string "DEVICE:-aaa111")
               (list_ascii_of_string " ")); reflexivity.
  - vm_compute. reflexivity.
Defined.

End FingerprintSpec.

(** ** Signing and verifying tokens *)

Module CryptoFacts.
Import JS Jwt Crypto.
Local Open Scope Z_scope.

Lemma option_eqb_refl (o : option string) : option_eqb String.eqb o o = true.
Proof. destruct o; simpl; [apply String.eqb_refl|reflexivity]. Qed.

Lemma payload_eqb_refl (p : LicensePayload) : payload_eqb p p = true.
Proof.
  unfold payload_eqb. now rewrite !String.eqb_refl, !Z.eqb_refl.
Qed.

Lemma claims_eqb_refl (c : claims) : claims_eqb c c = true.
Proof.
  unfold claims_eqb. now rewrite payload_eqb_refl, !option_eqb_refl.
Qed.

Lemma header_eqb_refl (h : header) : header_eqb h h = true.
Proof. unfold header_eqb. now rewrite !String.eqb_refl. Qed.

Lemma rethrow_return {A} (prefix : string) (r : completion A) (a : A) :
  rethrow prefix r = Return a <-> r = Return a.
Proof. destruct r; simpl; split; congruence. Qed.

Lemma rethrow_throw {A} (prefix : string) (r : completion A) (m : string) :
  r = Throw m -> rethrow prefix r = Throw (prefix ++ ": Error: " ++ m)%string.
Proof. now intros ->. Qed.

(** Only an [iat] of 0 is replaced. *)
Lemma stamped_nonzero (now_s : Z) (p : LicensePayload) :
  iat p <> 0 -> stamped now_s p = p.
Proof.
  intros H. unfold stamped. apply Z.eqb_neq in H. rewrite H.
  now destruct p.
Qed.

(** A payload whose [iat] is the clock's second is signed as it is. *)
Lemma stamped_at_clock (now_s : Z) (p : LicensePayload) :
  iat p = now_s -> stamped now_s p = p.
Proof.
  intros H. unfold stamped. rewrite H.
  destruct (Z.eqb now_s 0); destruct p; simpl in *; now subst.
Qed.

(** With the private half of a key pair loaded, signing succeeds and the
    token carries the stamped payload. *)
Lemma signLicenseToken_signs (e : Env) (k : N) (now : Z) (p : LicensePayload) :
  loadPrivateKey e = Return (RsaPrivate k) ->
  let h := mkHeader "RS256" "JWT" in
  let c := mkClaims (stamped (now / 1000) p)
             (Some (or_default (JWT_ISSUER e) "levox-license-server"))
             (Some (or_default (JWT_AUDIENCE e) "levox-cli")) in
  signLicenseToken e now p = Return (Jws h c (Signed k h c)).
Proof.
  intros Hk. unfold signLicenseToken. rewrite Hk. reflexivity.
Qed.

(** What a successful verification has checked. *)
Lemma verifyLicenseToken_checked (e : Env) (now : Z) (t : token) (c : claims) :
  verifyLicenseToken e now t = Return c ->
  exists pk k h s,
    loadPublicKey e = Return pk /\ verification_key pk = Some k
    /\ t = Jws h c s
    /\ String.eqb (alg h) "RS256" = true
    /\ signature_valid k h c s = true
    /\ now / 1000 < exp (payload c)
    /\ aud c = Some (or_default (JWT_AUDIENCE e) "levox-cli")
    /\ iss c = Some (or_default (JWT_ISSUER e) "levox-license-server").
Proof.
  unfold verifyLicenseToken. intros H.
  destruct (loadPublicKey e) as [pk|m]; [|discriminate].
  destruct t as [text|h c' s]; [discriminate|]. cbn [verify algorithms
    v_audience v_issuer existsb] in H.
  rewrite orb_false_r in H.
  destruct (String.eqb (alg h) "RS256") eqn:Ealg; [|discriminate].
  cbn [negb] in H.
  destruct (verification_key pk) as [k|] eqn:Ek; [|discriminate].
  destruct (signature_valid k h c' s) eqn:Es; [|discriminate].
  cbn [negb] in H.
  destruct (Z.leb_spec (exp (payload c')) (now / 1000)); [discriminate|].
  destruct (aud c') as [a|] eqn:Ea; cbn [option_eqb negb] in H;
    [|discriminate].
  destruct (String.eqb a _) eqn:Eaud; [|discriminate]. cbn [negb] in H.
  destruct (iss c') as [i|] eqn:Ei; cbn [option_eqb negb] in H;
    [|discriminate].
  destruct (String.eqb i _) eqn:Eiss; [|discriminate]. cbn [negb] in H.
  injection H as <-.
  apply String.eqb_eq in Eaud, Eiss. subst a i.
  exists pk, k, h, s. repeat split; auto.
Qed.

(** The checks in the other direction. *)
Lemma verifyLicenseToken_accepts (e : Env) (now : Z) (pk : pem) (k : N)
  (h : header) (c : claims) (s : signature) :
  loadPublicKey e = Return pk -> verification_key pk = Some k ->
  String.eqb (alg h) "RS256" = true ->
  signature_valid k h c s = true ->
  now / 1000 < exp (payload c) ->
  aud c = Some (or_default (JWT_AUDIENCE e) "levox-cli") ->
  iss c = Some (or_default (JWT_ISSUER e) "levox-license-server") ->
  verifyLicenseToken e now (Jws h c s) = Return c.
Proof.
  intros Hpk Hk Halg Hs Hexp Haud Hiss.
  unfold verifyLicenseToken. rewrite Hpk.
  cbn [verify algorithms v_audience v_issuer existsb].
  rewrite Halg. cbn [orb negb]. rewrite Hk, Hs. cbn [negb].
  destruct (Z.leb_spec (exp (payload c)) (now / 1000)); [lia|].
  rewrite Haud, Hiss. cbn [option_eqb]. now rewrite !String.eqb_refl.
Qed.

(** Time enters verification through the expiry check only. *)
Lemma verifyLicenseToken_at (e : Env) (t0 now : Z) (t : token) (c : claims) :
  verifyLicenseToken e t0 t = Return c ->
  now / 1000 < exp (payload c) ->
  verifyLicenseToken e now t = Return c.
Proof.
  intros H Hexp.
  destruct (verifyLicenseToken_checked _ _ _ _ H)
    as (pk & k & h & s & Hpk & Hk & -> & Halg & Hs & _ & Haud & Hiss).
  now apply (verifyLicenseToken_accepts e now pk k).
Qed.

(** A token at or past its [exp] is refused, whatever else holds of it. *)
Lemma verifyLicenseToken_expired (e : Env) (now : Z) (t : token)
  (h : header) (c : claims) :
  decode t = Some (h, c) ->
  exp (payload c) <= now / 1000 ->
  exists m, verifyLicenseToken e now t = Throw m.
Proof.
  intros Hd Hexp.
  destruct (verifyLicenseToken e now t) as [c'|m] eqn:E; [|now exists m].
  destruct (verifyLicenseToken_checked _ _ _ _ E)
    as (pk & k & h' & s & _ & _ & -> & _ & _ & Hlt & _).
  simpl in Hd. injection Hd as _ <-. lia.
Qed.

End CryptoFacts.

Module TokenRoundTrip.
Import JS Jwt Crypto CryptoFacts.
Local Open Scope Z_scope.

(** C7, as amended.  Under a matching key pair, a token signed for any
    payload, at any time, verifies at every instant before the payload's
    [exp]; the verified claims carry (next to the [iss] and [aud] that
    signing adds) the payload as signing stamped it: with an [iat] of 0
    replaced by the second of signing, and, for every other [iat], as it
    was given. *)
Theorem sign_verify_round_trip (e : Env) (k : N) (pk : pem)
  (p : LicensePayload) (signed_at now : Z) :
  loadPrivateKey e = Return (RsaPrivate k) ->
  loadPublicKey e = Return pk ->
  verification_key pk = Some k ->
  now / 1000 < exp p ->
  exists t c,
    signLicenseToken e signed_at p = Return t
    /\ verifyLicenseToken e now t = Return c
    /\ payload c = stamped (signed_at / 1000) p
    /\ (iat p <> 0 -> payload c = p).
Proof.
  intros Hsk Hpk Hk Hexp.
  pose proof (signLicenseToken_signs e k signed_at p Hsk) as Hsign.
  cbv zeta in Hsign.
  eexists. eexists. split; [exact Hsign|]. split; [|split].
  - apply (verifyLicenseToken_accepts e now pk k); auto.
    cbn [signature_valid].
    now rewrite N.eqb_refl, header_eqb_refl, claims_eqb_refl.
  - reflexivity.
  - intros Hiat. cbn [payload]. now apply stamped_nonzero.
Qed.

(** The scenario's payload, signed at its [iat] and verified in the middle
    of its thirty days. *)
Lemma sign_verify_round_trip_witness :
  exists t c,
    signLicenseToken Scenario.env0 (Scenario.issued_s * 1000)
      Scenario.payload0 = Return t
    /\ verifyLicenseToken Scenario.env0 Scenario.midlife t = Return c
    /\ payload c = stamped (Scenario.issued_s * 1000 / 1000) Scenario.payload0
    /\ (iat Scenario.payload0 <> 0 -> payload c = Scenario.payload0).
Proof.
  apply (sign_verify_round_trip Scenario.env0 1%N (RsaPublic 1)
           Scenario.payload0 (Scenario.issued_s * 1000) Scenario.midlife).
  - reflexivity.
  - reflexivity.
  - reflexivity.
  - vm_compute. reflexivity.
Defined.

(** C7 as stated fails, in two ways.  The scenario's payload satisfies the
    invariants of the data model, and its token, verified one second after
    the expiry, is refused.  And a payload within the invariants whose
    [iat] is 0, signed a hundred seconds after the epoch and verified
    fifty seconds later, comes back with the second of signing as its
    [iat]. *)
Lemma round_trip_fails_once_expired :
  (iat Scenario.payload0 < exp Scenario.payload0
   /\ 1 <= device_limit Scenario.payload0
   /\ signLicenseToken Scenario.env0 (Scenario.issued_s * 1000)
        Scenario.payload0 = Return Scenario.token0
   /\ verifyLicenseToken Scenario.env0 ((Scenario.expires_s + 1) * 1000)
        Scenario.token0
      = Throw "Failed to verify license token: TokenExpiredError: jwt expired")
  /\ (let p := mkPayload "LVX" "user@example.com" "key-1" "pro" 1 0 200 in
      iat p < exp p
      /\ 1 <= device_limit p
      /\ exists t,
           signLicenseToken Scenario.env0 100000 p = Return t
           /\ verifyLicenseToken Scenario.env0 150000 t
              = Return (mkClaims
                          (mkPayload "LVX" "user@example.com" "key-1" "pro"
                             1 100 200)
                          (Some "levox-license-server") (Some "levox-cli"))).
Proof.
  split.
  - vm_compute. repeat split; intros; discriminate.
  - cbv zeta. split; [reflexivity|]. split; [discriminate|].
    eexists. split; reflexivity.
Qed.

End TokenRoundTrip.

(** ** The tables *)

Module SupabaseFacts.
Import Supabase.

Lemma stored_key (db : Database) (key : string) (l : License) :
  stored db key l -> license_key l = key.
Proof.
  unfold stored. intros H.
  assert (Hin : In l (filter (has_key key) (licenses db)))
    by (rewrite H; now left).
  apply filter_In in Hin. destruct Hin as [_ Hk].
  now apply String.eqb_eq.
Qed.

Lemma stored_exists (db : Database) (key : string) (l : License) :
  stored db key l -> existsb (has_key key) (licenses db) = true.
Proof.
  unfold stored. intros H. apply existsb_exists. exists l.
  assert (Hin : In l (filter (has_key key) (licenses db)))
    by (rewrite H; now left).
  now apply filter_In in Hin.
Qed.

(** A lookup the service answers finds the stored row. *)
Lemma select_stored (s : Service) (db : Database) (key : string) (l : License) :
  select_fails s = false -> stored db key l ->
  exec s (SelectByKey key) db = (db, mkAnswer (Some l) false).
Proof.
  intros Hs Hl. simpl. rewrite Hs. unfold stored in Hl. now rewrite Hl.
Qed.

(** An update that keeps the keys commutes with the lookup by key. *)
Lemma filter_map_key (f : License -> License) (key : string)
  (rows : list License) :
  (forall r, license_key (f r) = license_key r) ->
  filter (has_key key) (map f rows) = map f (filter (has_key key) rows).
Proof.
  intros Hf. induction rows as [|r rs IH]; simpl; [reflexivity|].
  unfold has_key at 1. rewrite Hf. fold (has_key key r).
  destruct (has_key key r); simpl; now rewrite IH.
Qed.

Lemma set_devices_key (key : string) (devices : list string) (r : License) :
  license_key (set_devices key devices r) = license_key r.
Proof. unfold set_devices. now destruct (has_key key r). Qed.

Lemma set_revoked_key (key : string) (r : License) :
  license_key (set_revoked key r) = license_key r.
Proof. unfold set_revoked. now destruct (has_key key r). Qed.

Lemma set_devices_revoked (key : string) (devices : list string) (r : License) :
  revoked (set_devices key devices r) = revoked r.
Proof. unfold set_devices. now destruct (has_key key r). Qed.

Lemma set_revoked_stays (key : string) (r : License) :
  revoked r = true -> revoked (set_revoked key r) = true.
Proof. unfold set_revoked. now destruct (has_key key r). Qed.

Lemma has_key_refl (r : License) : has_key (license_key r) r = true.
Proof. apply String.eqb_refl. Qed.

(** No call against the tables brings a revoked license back, and none
    removes or duplicates it. *)
Lemma exec_keeps_revoked (s : Service) (q : query) (db : Database)
  (key : string) :
  revoked_in db key -> revoked_in (fst (exec s q db)) key.
Proof.
  intros (l & Hl & Hr). pose proof Hl as Hl0. unfold stored in Hl.
  destruct q as [k|m t|k devices|k|row|row]; simpl.
  - destruct (select_fails s); simpl; exists l; auto.
  - destruct (select_fails s); simpl; exists l; auto.
  - destruct (update_fails s); simpl; [exists l; auto|].
    exists (set_devices k devices l). split.
    + unfold stored. simpl.
      rewrite filter_map_key by apply set_devices_key. now rewrite Hl.
    + now rewrite set_devices_revoked.
  - destruct (update_fails s); simpl; [exists l; auto|].
    exists (set_revoked k l). split.
    + unfold stored. simpl.
      rewrite filter_map_key by apply set_revoked_key. now rewrite Hl.
    + now apply set_revoked_stays.
  - destruct (insert_fails s || existsb (has_key (license_key row)) (licenses db)
              || negb (plan_check (plan row))
              || negb (int4 (Supabase.device_limit row))
              || negb (timestamptz (expires_at row))) eqn:E; simpl;
      [exists l; auto|].
    exists l. split; [|exact Hr].
    unfold stored. simpl. rewrite filter_app, Hl. simpl.
    destruct (has_key key row) eqn:Ek; [|reflexivity].
    (* a row with this key would have been refused *)
    apply String.eqb_eq in Ek. rewrite Ek in E.
    rewrite (stored_exists db key l Hl0) in E.
    now rewrite orb_true_r in E.
  - destruct (log_fails s || negb (existsb (has_key (a_license_key row)) (licenses db)));
      simpl; exists l; auto.
Qed.

Lemma run_keeps_revoked {R} (s : Service) (h : handler R) (db : Database)
  (key : string) :
  revoked_in db key -> revoked_in (fst (run s h db)) key.
Proof.
  revert db. induction h as [r|q k IH]; intros db Hdb; simpl; [exact Hdb|].
  pose proof (exec_keeps_revoked s q db key Hdb) as Hq.
  destruct (exec s q db) as [db' a]. simpl in Hq. now apply IH.
Qed.

End SupabaseFacts.

(** ** Verification up to the device fingerprint *)

Module VerifyFacts.
Import Supabase Http VerifyLicense SupabaseFacts.
Local Open Scope Z_scope.

Lemma payload_jti_token (t : Jwt.token) (key : string) :
  payload_jti t = Some key -> no_token t = false.
Proof. destruct t; simpl; [discriminate|reflexivity]. Qed.

(** A call whose token names a stored license, and whose lookup is
    answered, gets to the checks on that record. *)
Lemma POST_loads (rt : Runtime) (s : Service) (db : Database)
  (body : VerifyLicenseRequest) (key : string) (l : License) :
  payload_jti (token body) = Some key ->
  select_fails s = false ->
  stored db key l ->
  run s (POST rt (Some body)) db = run s (checks rt key l body) db.
Proof.
  intros Hjti Hs Hl. unfold POST.
  rewrite (payload_jti_token _ _ Hjti), Hjti.
  cbn [run]. rewrite (select_stored s db key l Hs Hl). reflexivity.
Qed.

(** Past revocation, expiry and token verification, what is left is the
    device fingerprint. *)
Lemma POST_reaches_admission (rt : Runtime) (s : Service) (db : Database)
  (body : VerifyLicenseRequest) (key : string) (l : License) (c : Jwt.claims) :
  payload_jti (token body) = Some key ->
  select_fails s = false ->
  stored db key l ->
  revoked l = false ->
  record_expired l (now rt) = false ->
  Crypto.verifyLicenseToken (env rt) (now rt) (token body) = JS.Return c ->
  run s (POST rt (Some body)) db
  = run s (bind_device rt key l (device_fingerprint body)) db.
Proof.
  intros Hjti Hs Hl Hr He Hv.
  rewrite (POST_loads rt s db body key l Hjti Hs Hl).
  unfold checks. now rewrite Hr, He, Hv.
Qed.

(** Logging an activation leaves [licenses] alone, whether it is written
    or not. *)
Lemma run_log_activation {R} (rt : Runtime) (s : Service) (db : Database)
  (key fp : string) (flag : bool) (r : R) :
  licenses (fst (run s (log_activation rt key fp flag (Respond r)) db))
  = licenses db
  /\ snd (run s (log_activation rt key fp flag (Respond r)) db) = r.
Proof.
  unfold log_activation. cbn [run exec].
  destruct (log_fails s || negb (existsb (has_key (a_license_key _)) (licenses db)));
    split; reflexivity.
Qed.

(** A fingerprint that normalizes is one the handler looks at. *)
Lemma normalized_truthy (v : JS.value) (fp : string) :
  Fingerprint.normalizeDeviceFingerprint v = JS.Return fp ->
  JS.truthy v = true.
Proof.
  intros H.
  destruct (FingerprintFacts.normalize_shape v fp H) as (s & -> & Hs & _).
  simpl. destruct (String.eqb_spec s EmptyString); [contradiction|reflexivity].
Qed.

(** The three ways through [bind_device] for a fingerprint that
    normalizes, when the store takes the update. *)
Lemma bind_device_registered (rt : Runtime) (s : Service) (db : Database)
  (key : string) (l : License) (v : JS.value) (fp : string) :
  Fingerprint.normalizeDeviceFingerprint v = JS.Return fp ->
  devices_include l fp = true ->
  run s (bind_device rt key l v) db = (db, result l (devices_length l) false).
Proof.
  intros Hn Hin. unfold bind_device.
  now rewrite (normalized_truthy v fp Hn), Hn, Hin.
Qed.

Lemma bind_device_appends (rt : Runtime) (s : Service) (db : Database)
  (key : string) (l : License) (v : JS.value) (fp : string) :
  Fingerprint.normalizeDeviceFingerprint v = JS.Return fp ->
  devices_include l fp = false ->
  devices_length l < Supabase.device_limit l ->
  update_fails s = false ->
  licenses (fst (run s (bind_device rt key l v) db))
  = map (set_devices key (devices_or_empty l ++ [fp])) (licenses db)
  /\ snd (run s (bind_device rt key l v) db)
     = result l (devices_length l + 1) false.
Proof.
  intros Hn Hin Hlt Hu. unfold bind_device.
  rewrite (normalized_truthy v fp Hn), Hn, Hin. cbn [negb].
  destruct (Z.ltb_spec (devices_length l) (Supabase.device_limit l)); [|lia].
  cbn [run exec]. rewrite Hu. cbn [Supabase.error succeeded negb].
  match goal with
  | |- context [run s (log_activation ?a ?b ?c ?d (Respond ?r)) ?db'] =>
      destruct (run_log_activation a s db' b c d r) as [H1 H2]
  end.
  rewrite H1, H2. split; [reflexivity|].
  f_equal. rewrite length_app. simpl.
  unfold devices_length, devices_or_empty.
  destruct (current_devices l); simpl; lia.
Qed.

Lemma bind_device_refused (rt : Runtime) (s : Service) (db : Database)
  (key : string) (l : License) (v : JS.value) (fp : string) :
  Fingerprint.normalizeDeviceFingerprint v = JS.Return fp ->
  devices_include l fp = false ->
  ~ devices_length l < Supabase.device_limit l ->
  licenses (fst (run s (bind_device rt key l v) db)) = licenses db
  /\ snd (run s (bind_device rt key l v) db)
     = result l (devices_length l) true.
Proof.
  intros Hn Hin Hge. unfold bind_device.
  rewrite (normalized_truthy v fp Hn), Hn, Hin. cbn [negb].
  destruct (Z.ltb_spec (devices_length l) (Supabase.device_limit l)); [lia|].
  apply run_log_activation.
Qed.

(** The update the store does not take. *)
Lemma bind_device_update_failed (rt : Runtime) (s : Service) (db : Database)
  (key : string) (l : License) (v : JS.value) (fp : string) :
  Fingerprint.normalizeDeviceFingerprint v = JS.Return fp ->
  devices_include l fp = false ->
  devices_length l < Supabase.device_limit l ->
  update_fails s = true ->
  licenses (fst (run s (bind_device rt key l v) db)) = licenses db
  /\ snd (run s (bind_device rt key l v) db)
     = result l (devices_length l) false.
Proof.
  intros Hn Hin Hlt Hu. unfold bind_device.
  rewrite (normalized_truthy v fp Hn), Hn, Hin. cbn [negb].
  destruct (Z.ltb_spec (devices_length l) (Supabase.device_limit l)); [|lia].
  cbn [run exec]. rewrite Hu. cbn [Supabase.error failed negb].
  apply run_log_activation.
Qed.

Lemma result_count (l : License) (n m : Z) (f g : bool) :
  result l n f = result l m g -> n = m /\ f = g.
Proof. unfold result, accept. intros [= -> ->]. auto. Qed.

End VerifyFacts.

(** ** Device admission *)

Module AdmissionSpec.
Import Supabase Http VerifyLicense SupabaseFacts VerifyFacts Admission.
Local Open Scope Z_scope.

(** C1, as amended.  A verification call on an unrevoked, unexpired
    license with a valid token, whose fingerprint normalizes and whose
    update (if one is made) the store takes, produces exactly one of the
    three outcomes: [already_bound] with the count unchanged when the
    normalized fingerprint is in the record's list; otherwise [bound],
    the fingerprint appended and the count one more, when the count is
    below [device_limit]; otherwise [limit_exceeded], the record unchanged
    and the flag set in the response. *)
Theorem admission_outcome (rt : Runtime) (s : Service) (db : Database)
  (body : VerifyLicenseRequest) (key : string) (l : License)
  (c : Jwt.claims) (fp : string) :
  payload_jti (token body) = Some key ->
  select_fails s = false ->
  stored db key l ->
  revoked l = false ->
  record_expired l (now rt) = false ->
  Crypto.verifyLicenseToken (env rt) (now rt) (token body) = JS.Return c ->
  Fingerprint.normalizeDeviceFingerprint (device_fingerprint body)
    = JS.Return fp ->
  update_fails s = false ->
  let db' := fst (run s (POST rt (Some body)) db) in
  let r := snd (run s (POST rt (Some body)) db) in
  (devices_include l fp = true -> produced l fp db db' r already_bound)
  /\ (devices_include l fp = false ->
      devices_length l < Supabase.device_limit l ->
      produced l fp db db' r bound)
  /\ (devices_include l fp = false ->
      ~ devices_length l < Supabase.device_limit l ->
      produced l fp db db' r limit_exceeded /\ flagged r = true)
  /\ exists! o, produced l fp db db' r o.
Proof.
  intros Hjti Hs Hl Hr He Hv Hn Hu db' r. subst db' r.
  rewrite (POST_reaches_admission rt s db body key l c Hjti Hs Hl Hr He Hv).
  pose proof (stored_key db key l Hl) as Hkey.
  assert (A : devices_include l fp = true ->
              produced l fp db
                (fst (run s (bind_device rt key l (device_fingerprint body)) db))
                (snd (run s (bind_device rt key l (device_fingerprint body)) db))
                already_bound).
  { intros Hin. rewrite (bind_device_registered rt s db key l _ fp Hn Hin).
    simpl. auto. }
  assert (B : devices_include l fp = false ->
              devices_length l < Supabase.device_limit l ->
              produced l fp db
                (fst (run s (bind_device rt key l (device_fingerprint body)) db))
                (snd (run s (bind_device rt key l (device_fingerprint body)) db))
                bound).
  { intros Hin Hlt.
    destruct (bind_device_appends rt s db key l _ fp Hn Hin Hlt Hu) as [H1 H2].
    simpl. now rewrite H1, H2, Hkey. }
  assert (C : devices_include l fp = false ->
              ~ devices_length l < Supabase.device_limit l ->
              produced l fp db
                (fst (run s (bind_device rt key l (device_fingerprint body)) db))
                (snd (run s (bind_device rt key l (device_fingerprint body)) db))
                limit_exceeded
              /\ flagged
                   (snd (run s (bind_device rt key l (device_fingerprint body)) db))
                 = true).
  { intros Hin Hge.
    destruct (bind_device_refused rt s db key l _ fp Hn Hin Hge) as [H1 H2].
    simpl. rewrite H1, H2. auto. }
  split; [exact A|]. split; [exact B|]. split; [exact C|].
  (* exactly one: the responses of the three outcomes differ *)
  destruct (devices_include l fp) eqn:Hin.
  - exists already_bound. split; [auto|].
    destruct (A eq_refl) as [_ Ha].
    intros [| |] [_ Ho]; rewrite Ha in Ho; apply result_count in Ho;
      destruct Ho; try reflexivity; try lia; discriminate.
  - destruct (Z_lt_dec (devices_length l) (Supabase.device_limit l)) as [Hlt|Hge].
    + exists bound. split; [auto|].
      destruct (B eq_refl Hlt) as [_ Hb].
      intros [| |] [_ Ho]; rewrite Hb in Ho; apply result_count in Ho;
        destruct Ho; try reflexivity; try lia; discriminate.
    + exists limit_exceeded. split; [apply (C eq_refl Hge)|].
      destruct (C eq_refl Hge) as [[_ Hc] _].
      intros [| |] [_ Ho]; rewrite Hc in Ho; apply result_count in Ho;
        destruct Ho; try reflexivity; try lia; discriminate.
Qed.

(** The scenario's first verification: "device-aaa111" on the fresh
    one-device license is bound. *)
Lemma admission_outcome_witness :
  let s := available in
  let rt := Scenario.at_time Scenario.midlife in
  let body := mkRequest Scenario.token0 (JS.Str "device-aaa111") in
  let db' := fst (run s (POST rt (Some body)) Scenario.db0) in
  let r := snd (run s (POST rt (Some body)) Scenario.db0) in
  produced Scenario.license0 "device-aaa111" Scenario.db0 db' r bound.
Proof.
  intros s rt body db' r.
  pose proof (admission_outcome rt s Scenario.db0 body "lic-0001"
                Scenario.license0 Scenario.claims0 "device-aaa111"
                eq_refl eq_refl eq_refl eq_refl eq_refl eq_refl eq_refl eq_refl)
    as H.
  cbv zeta in H. destruct H as (_ & H & _).
  apply H; reflexivity.
Defined.

(** C1 as stated fails twice on the scenario's fresh license.  With a
    store that refuses the update, "device-aaa111" is neither in the list
    nor over the limit, and yet is not bound: nothing is appended and the
    count stays 0.  With the fingerprint "abc", which normalizes to fewer
    than 8 characters, the call ends in the 500 response and no outcome at
    all. *)
Lemma admission_outcome_not_always :
  let rt := Scenario.at_time Scenario.midlife in
  let l := Scenario.license0 in
  (stored Scenario.db0 "lic-0001" l /\ revoked l = false
   /\ record_expired l (now rt) = false
   /\ Crypto.verifyLicenseToken (env rt) (now rt) Scenario.token0
      = JS.Return Scenario.claims0)
  /\ (let s := mkService false true false false in
      let body := mkRequest Scenario.token0 (JS.Str "device-aaa111") in
      devices_include l "device-aaa111" = false
      /\ devices_length l < Supabase.device_limit l
      /\ ~ produced l "device-aaa111" Scenario.db0
             (fst (run s (POST rt (Some body)) Scenario.db0))
             (snd (run s (POST rt (Some body)) Scenario.db0)) bound)
  /\ (let body := mkRequest Scenario.token0 (JS.Str "abc") in
      JS.truthy (device_fingerprint body) = true
      /\ snd (run available (POST rt (Some body)) Scenario.db0) = internal_error
      /\ forall fp o,
           ~ produced l fp Scenario.db0
               (fst (run available (POST rt (Some body)) Scenario.db0))
               (snd (run available (POST rt (Some body)) Scenario.db0)) o).
Proof.
  intros rt l. split; [|split].
  - repeat split; reflexivity.
  - intros s body. split; [reflexivity|]. split; [reflexivity|].
    intros [_ H]. vm_compute in H. discriminate.
  - intros body. split; [reflexivity|]. split; [reflexivity|].
    intros fp [| |] [_ H]; vm_compute in H; discriminate.
Qed.

(** C9.  When the store refuses the update that would append a new
    fingerprint, the call still answers [valid] with the flag unset and
    the count from before the attempt; the response is the one the same
    call gets without a fingerprint, and the record is as it was. *)
Theorem update_failure_not_surfaced (rt : Runtime) (s : Service)
  (db : Database) (body : VerifyLicenseRequest) (key : string) (l : License)
  (c : Jwt.claims) (fp : string) :
  payload_jti (token body) = Some key ->
  select_fails s = false ->
  stored db key l ->
  revoked l = false ->
  record_expired l (now rt) = false ->
  Crypto.verifyLicenseToken (env rt) (now rt) (token body) = JS.Return c ->
  Fingerprint.normalizeDeviceFingerprint (device_fingerprint body)
    = JS.Return fp ->
  devices_include l fp = false ->
  devices_length l < Supabase.device_limit l ->
  update_fails s = true ->
  let r := snd (run s (POST rt (Some body)) db) in
  r = mkResponse 200 true None
        (Some (mkData true (plan l) (Supabase.expires_at l)
                 (Supabase.device_limit l) (devices_length l) false))
  /\ r = snd (run s (POST rt (Some (mkRequest (token body) JS.Undefined))) db)
  /\ licenses (fst (run s (POST rt (Some body)) db)) = licenses db.
Proof.
  intros Hjti Hs Hl Hr He Hv Hn Hin Hlt Hu r. subst r.
  rewrite (POST_reaches_admission rt s db body key l c Hjti Hs Hl Hr He Hv).
  rewrite (POST_reaches_admission rt s db (mkRequest (token body) JS.Undefined)
             key l c Hjti Hs Hl Hr He Hv).
  destruct (bind_device_update_failed rt s db key l _ fp Hn Hin Hlt Hu)
    as [H1 H2].
  rewrite H1, H2. repeat split; reflexivity.
Qed.

(** The scenario's first verification against a store that refuses the
    update. *)
Lemma update_failure_not_surfaced_witness :
  let s := mkService false true false false in
  let rt := Scenario.at_time Scenario.midlife in
  let body := mkRequest Scenario.token0 (JS.Str "device-aaa111") in
  let r := snd (run s (POST rt (Some body)) Scenario.db0) in
  r = mkResponse 200 true None
        (Some (mkData true "pro" (Some (Scenario.expires_s * 1000)) 1 0 false))
  /\ r = snd (run s (POST rt (Some (mkRequest Scenario.token0 JS.Undefined)))
                Scenario.db0)
  /\ licenses (fst (run s (POST rt (Some body)) Scenario.db0))
     = licenses Scenario.db0.
Proof.
  intros s rt body.
  apply (update_failure_not_surfaced rt s Scenario.db0 body "lic-0001"
           Scenario.license0 Scenario.claims0 "device-aaa111");
    reflexivity.
Defined.

End AdmissionSpec.

(** ** Expiry *)

Module ExpirySpec.
Import Supabase Http VerifyLicense SupabaseFacts VerifyFacts CryptoFacts.
Local Open Scope Z_scope.

(** Whatever the device fingerprint, [bind_device] ends in the 500
    response or in a result. *)
Lemma bind_device_response (rt : Runtime) (s : Service) (db : Database)
  (key : string) (l : License) (v : JS.value) :
  snd (run s (bind_device rt key l v) db) = internal_error
  \/ exists n f, snd (run s (bind_device rt key l v) db) = result l n f.
Proof.
  unfold bind_device.
  destruct (JS.truthy v); [|right; simpl; eauto].
  destruct (Fingerprint.normalizeDeviceFingerprint v) as [fp|m]; [|now left].
  right. destruct (devices_include l fp); cbn [negb]; [simpl; eauto|].
  destruct (devices_length l <? Supabase.device_limit l).
  - cbn [run].
    match goal with
    | |- context [exec s ?q db] => destruct (exec s q db) as [db' u]
    end.
    match goal with
    | |- context [run s (log_activation ?a ?b ?c ?d (Respond ?r)) ?db''] =>
        destruct (run_log_activation a s db'' b c d r) as [_ H2]
    end.
    rewrite H2. eauto.
  - match goal with
    | |- context [run s (log_activation ?a ?b ?c ?d (Respond ?r)) ?db''] =>
        destruct (run_log_activation a s db'' b c d r) as [_ H2]
    end.
    rewrite H2. eauto.
Qed.

(** Once the record check has let a call through, its response is not
    the expiry refusal. *)
Lemma checks_not_expired (rt : Runtime) (s : Service) (db : Database)
  (key : string) (l : License) (body : VerifyLicenseRequest) :
  revoked l = false ->
  record_expired l (now rt) = false ->
  snd (run s (checks rt key l body) db) <> expired_response.
Proof.
  intros Hr He. unfold checks. rewrite Hr, He.
  destruct (Crypto.verifyLicenseToken _ _ _) as [c|m]; [|discriminate].
  destruct (bind_device_response rt s db key l (device_fingerprint body))
    as [H|(n & f & H)]; rewrite H; discriminate.
Qed.

(** C10.  A record whose [expires_at] is NULL passes the record's expiry
    check at every instant: the response is never the expiry refusal, and
    with a valid token the call goes on to the device fingerprint and the
    result, as for an unexpired license. *)
Theorem null_expiry_never_expires (rt : Runtime) (s : Service) (db : Database)
  (body : VerifyLicenseRequest) (key : string) (l : License) :
  payload_jti (token body) = Some key ->
  select_fails s = false ->
  stored db key l ->
  revoked l = false ->
  Supabase.expires_at l = None ->
  snd (run s (POST rt (Some body)) db) <> expired_response
  /\ forall c,
       Crypto.verifyLicenseToken (env rt) (now rt) (token body) = JS.Return c ->
       run s (POST rt (Some body)) db
       = run s (bind_device rt key l (device_fingerprint body)) db
       /\ (JS.truthy (device_fingerprint body) = false ->
           run s (POST rt (Some body)) db
           = (db, result l (devices_length l) false)).
Proof.
  intros Hjti Hs Hl Hr He.
  assert (Hexp : record_expired l (now rt) = false)
    by (unfold record_expired; now rewrite He).
  split.
  - rewrite (POST_loads rt s db body key l Hjti Hs Hl).
    now apply checks_not_expired.
  - intros c Hv.
    rewrite (POST_reaches_admission rt s db body key l c Hjti Hs Hl Hr Hexp Hv).
    split; [reflexivity|].
    intros Hf. unfold bind_device. now rewrite Hf.
Qed.

(** The scenario's license with its [expires_at] set to NULL, verified in
    mid-life without a fingerprint. *)
Lemma null_expiry_never_expires_witness :
  let perpetual :=
    mkLicense "lic-0001" Scenario.token0 "user@example.com" "pro" 1
      (Some []) None false in
  let db := mkDatabase [perpetual] [] in
  let rt := Scenario.at_time Scenario.midlife in
  let body := mkRequest Scenario.token0 JS.Undefined in
  snd (run available (POST rt (Some body)) db) <> expired_response
  /\ run available (POST rt (Some body)) db = (db, result perpetual 0 false).
Proof.
  intros perpetual db rt body.
  destruct (null_expiry_never_expires rt available db body "lic-0001"
              perpetual eq_refl eq_refl eq_refl eq_refl eq_refl) as [H1 H2].
  split; [exact H1|].
  destruct (H2 Scenario.claims0 eq_refl) as [_ H3].
  apply H3. reflexivity.
Defined.

(** C3, as amended.  The record check refuses as expired exactly the
    records whose [expires_at] is strictly before the current time.  At
    [expires_at] equal to the current time the record check lets the call
    through; a token whose [exp] is that instant in whole seconds is then
    refused by token verification, with the signature error.  One second
    before the expiry such a token, otherwise valid, verifies and the call
    succeeds. *)
Theorem expiry_boundary (rt : Runtime) (s : Service) (db : Database)
  (body : VerifyLicenseRequest) (key : string) (l : License) (e : Z) :
  payload_jti (token body) = Some key ->
  select_fails s = false ->
  stored db key l ->
  revoked l = false ->
  Supabase.expires_at l = Some e ->
  let r := snd (run s (POST rt (Some body)) db) in
  (r = expired_response <-> e < now rt)
  /\ (forall h c,
        Jwt.decode (token body) = Some (h, c) ->
        Jwt.exp (Jwt.payload c) = e / 1000 ->
        e = now rt ->
        r = refuse 403 "Invalid license token signature")
  /\ (forall t0 c,
        Crypto.verifyLicenseToken (env rt) t0 (token body) = JS.Return c ->
        Jwt.exp (Jwt.payload c) = e / 1000 ->
        e = now rt + 1000 ->
        JS.truthy (device_fingerprint body) = false ->
        r = result l (devices_length l) false).
Proof.
  intros Hjti Hs Hl Hr He r. subst r.
  rewrite (POST_loads rt s db body key l Hjti Hs Hl).
  assert (Hrec : record_expired l (now rt) = (e <? now rt))
    by (unfold record_expired; now rewrite He).
  split; [|split].
  - split.
    + intros H. destruct (Z.ltb_spec e (now rt)) as [Hlt|Hge]; [exact Hlt|].
      exfalso. revert H. now apply checks_not_expired.
    + intros Hlt. unfold checks. rewrite Hr, Hrec.
      apply Z.ltb_lt in Hlt. now rewrite Hlt.
  - intros h c Hd Hexp Hnow. unfold checks. rewrite Hr, Hrec.
    rewrite (proj2 (Z.ltb_ge e (now rt))) by lia.
    destruct (verifyLicenseToken_expired (env rt) (now rt) (token body) h c Hd)
      as [m Hm]; [rewrite Hexp, Hnow; lia|].
    now rewrite Hm.
  - intros t0 c Hv Hexp Hnow Hf. unfold checks. rewrite Hr, Hrec.
    rewrite (proj2 (Z.ltb_ge e (now rt))) by lia.
    assert (Hlater : now rt / 1000 < Jwt.exp (Jwt.payload c)).
    { rewrite Hexp, Hnow.
      replace (now rt + 1000) with (now rt + 1 * 1000) by lia.
      rewrite Z.div_add by lia. lia. }
    rewrite (verifyLicenseToken_at (env rt) t0 (now rt) (token body) c Hv Hlater).
    unfold bind_device. now rewrite Hf.
Qed.

(** The scenario's license one second before its expiry. *)
Lemma expiry_boundary_witness :
  let rt := Scenario.at_time (Scenario.expires_s * 1000 - 1000) in
  let body := mkRequest Scenario.token0 JS.Undefined in
  snd (run available (POST rt (Some body)) Scenario.db0)
  = result Scenario.license0 0 false.
Proof.
  intros rt body.
  pose proof (expiry_boundary rt available Scenario.db0 body "lic-0001"
                Scenario.license0 (Scenario.expires_s * 1000)
                eq_refl eq_refl eq_refl eq_refl eq_refl) as H.
  cbv zeta in H. destruct H as (_ & _ & H).
  apply (H Scenario.midlife Scenario.claims0); reflexivity.
Defined.

(** C3 as stated fails at the boundary.  The scenario's license verified
    at the very instant of its expiry is not refused as expired: the
    record check lets it through and the refusal is the token's, as an
    invalid signature.  And a record whose [expires_at] is the current
    instant, under a token that runs longer, is accepted as valid. *)
Lemma expiry_boundary_not_expired :
  let at_expiry := Scenario.expires_s * 1000 in
  Supabase.expires_at Scenario.license0 = Some at_expiry
  /\ snd (run available
            (POST (Scenario.at_time at_expiry)
               (Some (mkRequest Scenario.token0 JS.Undefined)))
            Scenario.db0)
     = refuse 403 "Invalid license token signature"
  /\ (let shorter :=
        mkLicense "lic-0001" Scenario.token0 "user@example.com" "pro" 1
          (Some []) (Some Scenario.midlife) false in
      Supabase.expires_at shorter = Some Scenario.midlife
      /\ snd (run available
                (POST (Scenario.at_time Scenario.midlife)
                   (Some (mkRequest Scenario.token0 JS.Undefined)))
                (mkDatabase [shorter] []))
         = result shorter 0 false).
Proof.
  intros at_expiry. split; [reflexivity|]. split; [reflexivity|].
  intros shorter. split; reflexivity.
Qed.

End ExpirySpec.

(** ** Revocation *)

Module RevocationSpec.
Import Supabase Http SupabaseFacts VerifyFacts Server.

(** A revocation that answers [ok] has left the license revoked. *)
Lemma revoke_ok_revokes (rt : Runtime) (s : Service) (db : Database)
  (header : option string) (body : RevokeLicense.RevokeLicenseRequest) :
  ok (snd (run s (RevokeLicense.POST rt header (Some body)) db)) = true ->
  revoked_in (fst (run s (RevokeLicense.POST rt header (Some body)) db))
    (RevokeLicense.license_key body).
Proof.
  unfold RevokeLicense.POST.
  destruct (Crypto.unset _); [discriminate|].
  destruct (RevokeLicense.unauthorized _ _); [discriminate|].
  destruct (blank _); [discriminate|].
  cbn [run exec].
  destruct (select_fails s); [discriminate|].
  destruct (filter (has_key (RevokeLicense.license_key body)) (licenses db))
    as [|l [|l' rest]] eqn:Hf; try discriminate.
  cbn [single Supabase.error Supabase.data].
  destruct (revoked l); [discriminate|].
  cbn [run exec].
  destruct (update_fails s); [discriminate|].
  cbn [fst snd Supabase.error succeeded]. intros _.
  exists (set_revoked (RevokeLicense.license_key body) l). split.
  - unfold stored. cbn [run fst licenses].
    rewrite filter_map_key by apply set_revoked_key. now rewrite Hf.
  - unfold set_revoked.
    assert (Hin : In l (filter (has_key (RevokeLicense.license_key body))
                          (licenses db))) by (rewrite Hf; now left).
    apply filter_In in Hin. destruct Hin as [_ Hk]. now rewrite Hk.
Qed.

Lemma serve_keeps_revoked (c : call) (db : Database) (key : string) :
  revoked_in db key -> revoked_in (serve c db) key.
Proof.
  intros H. unfold serve. destruct (req c); now apply run_keeps_revoked.
Qed.

Lemma serve_all_keeps_revoked (cs : list call) (db : Database) (key : string) :
  revoked_in db key -> revoked_in (serve_all cs db) key.
Proof.
  revert db. induction cs as [|c cs IH]; intros db H; simpl; [exact H|].
  apply IH. now apply serve_keeps_revoked.
Qed.

(** Verification of a revoked license stops at the revocation check,
    whatever the time and whatever the token is worth. *)
Lemma verify_revoked (rt : Runtime) (s : Service) (db : Database)
  (body : VerifyLicense.VerifyLicenseRequest) (key : string) :
  VerifyLicense.payload_jti (VerifyLicense.token body) = Some key ->
  select_fails s = false ->
  revoked_in db key ->
  run s (VerifyLicense.POST rt (Some body)) db
  = (db, VerifyLicense.revoked_response).
Proof.
  intros Hjti Hs (l & Hl & Hr).
  rewrite (POST_loads rt s db body key l Hjti Hs Hl).
  unfold VerifyLicense.checks. now rewrite Hr.
Qed.

(** C4.  Once a revocation has succeeded, the license stays revoked
    through every later request of any kind, and every later verification
    of it (a call whose token names the license and whose lookup the store
    answers) is refused as revoked: before the expiry check and before the
    token is verified, so at any time and for any token. *)
Theorem revocation_is_absorbing (rt : Runtime) (s : Service) (db : Database)
  (header : option string) (body : RevokeLicense.RevokeLicenseRequest)
  (later : list call) (rt' : Runtime) (s' : Service)
  (vbody : VerifyLicense.VerifyLicenseRequest) :
  ok (snd (run s (RevokeLicense.POST rt header (Some body)) db)) = true ->
  VerifyLicense.payload_jti (VerifyLicense.token vbody)
    = Some (RevokeLicense.license_key body) ->
  select_fails s' = false ->
  let revoked_db := fst (run s (RevokeLicense.POST rt header (Some body)) db) in
  revoked_in (serve_all later revoked_db) (RevokeLicense.license_key body)
  /\ snd (run s' (VerifyLicense.POST rt' (Some vbody))
            (serve_all later revoked_db))
     = VerifyLicense.revoked_response.
Proof.
  intros Hok Hjti Hs' revoked_db.
  assert (H : revoked_in (serve_all later revoked_db)
                (RevokeLicense.license_key body))
    by now apply serve_all_keeps_revoked, revoke_ok_revokes.
  split; [exact H|].
  now rewrite (verify_revoked rt' s' _ vbody _ Hjti Hs' H).
Qed.

(** The scenario's license, revoked in mid-life, then a device bound and
    another license issued for the same owner, then verified long before
    its expiry. *)
Lemma revocation_is_absorbing_witness :
  let rt := Scenario.at_time Scenario.midlife in
  let revoke := RevokeLicense.POST rt (Some "admin-secret")
                  (Some (RevokeLicense.mkRequest "lic-0001")) in
  let later :=
    [ mkCall rt available
        (VerifyRequest (Scenario.verify_with (JS.Str "device-aaa111")));
      mkCall rt available
        (IssueRequest (Some "admin-secret")
           (Some (IssueLicense.mkRequest "user@example.com" "pro"
                    (JS.Number 1) (JS.Number 30)))) ] in
  let revoked_db := fst (run available revoke Scenario.db0) in
  revoked_in (serve_all later revoked_db) "lic-0001"
  /\ snd (run available
            (VerifyLicense.POST rt (Scenario.verify_with JS.Undefined))
            (serve_all later revoked_db))
     = VerifyLicense.revoked_response.
Proof.
  intros rt revoke later revoked_db.
  apply (revocation_is_absorbing rt available Scenario.db0
           (Some "admin-secret") (RevokeLicense.mkRequest "lic-0001")
           later rt available
           (VerifyLicense.mkRequest Scenario.token0 JS.Undefined));
    reflexivity.
Defined.

End RevocationSpec.

(** ** Issuance and duplicates *)

Module IssuanceSpec.
Import Supabase Http GenerateLicense.
Local Open Scope Z_scope.

Lemma filter_nil_none {A} (f : A -> bool) (l : list A) :
  filter f l = [] -> forall x, In x l -> f x = false.
Proof.
  intros H x Hx. destruct (f x) eqn:E; [|reflexivity].
  assert (Hin : In x (filter f l)) by (apply filter_In; auto).
  rewrite H in Hin. destruct Hin.
Qed.

(** The lookup both generation routes start with decides the conflict. *)
Lemma generate_conflict (rt : Runtime) (s : Service) (db : Database)
  (mail msg : string) :
  select_fails s = false ->
  (List.length (filter (has_email_plan mail "enterprise") (licenses db)) <= 1)%nat ->
  status (snd (run s (generate rt mail msg) db)) = 409
  <-> has_record db mail "enterprise".
Proof.
  intros Hs Hone. unfold generate. cbn [run exec]. rewrite Hs.
  destruct (filter (has_email_plan mail "enterprise") (licenses db))
    as [|l [|l' rest]] eqn:Hf.
  - cbn [single Supabase.data]. split.
    + intros H. exfalso. revert H.
      destruct (Crypto.signLicenseToken _ _ _) as [t|m]; [|discriminate].
      cbn [run]. destruct (exec s _ db) as [db' a].
      destruct (Supabase.error a); discriminate.
    + intros (l & Hin & He & Hp). exfalso.
      pose proof (filter_nil_none _ _ Hf l Hin) as Hno.
      unfold has_email_plan in Hno. rewrite He, Hp, !String.eqb_refl in Hno.
      discriminate.
  - cbn [single Supabase.data run snd]. split; [|reflexivity].
    intros _. exists l.
    assert (Hin : In l (filter (has_email_plan mail "enterprise") (licenses db)))
      by (rewrite Hf; now left).
    apply filter_In in Hin. destruct Hin as [Hin Hm].
    unfold has_email_plan in Hm. apply andb_true_iff in Hm.
    destruct Hm as [He Hp]. apply String.eqb_eq in He, Hp. auto.
  - simpl in Hone. lia.
Qed.

(** The admin route has no conflict response. *)
Lemma issue_never_conflicts (rt : Runtime) (s : Service) (db : Database)
  (header : option string) (body : option IssueLicense.IssueLicenseRequest) :
  Http.status (snd (run s (IssueLicense.POST rt header body) db)) <> 409.
Proof.
  unfold IssueLicense.POST.
  destruct (Crypto.unset _); [discriminate|].
  destruct (RevokeLicense.unauthorized _ _); [discriminate|].
  destruct body as [body|]; [|discriminate].
  destruct (_ || _); [discriminate|].
  destruct (negb _); [discriminate|].
  destruct (IssueLicense.positive_number (IssueLicense.device_limit body));
    [|discriminate].
  destruct (IssueLicense.positive_number (IssueLicense.period_days body));
    [|discriminate].
  destruct (Crypto.signLicenseToken _ _ _) as [t|m]; [|discriminate].
  destruct (negb (valid_date _)); [discriminate|].
  cbn [run]. destruct (exec s _ db) as [db' a].
  destruct (Supabase.error a); discriminate.
Qed.

(** C5, as amended.  In a store that holds at most one enterprise record
    per email and answers the lookup, the generation routes (free and
    pro, which both issue plan enterprise) answer 409 exactly when a
    record with the request's email and plan enterprise exists, revoked or
    expired or neither; the admin issue route never answers 409. *)
Theorem duplicate_check (rt : Runtime) (s : Service) (db : Database)
  (mail : string) :
  select_fails s = false ->
  (List.length (filter (has_email_plan mail "enterprise") (licenses db)) <= 1)%nat ->
  blank mail = false ->
  (status (snd (run s (POST_pro rt (Some mail)) db)) = 409
   <-> has_record db mail "enterprise")
  /\ (blank (JS.trim mail) = false -> emailRegex_test mail = true ->
      (status (snd (run s (POST_free rt (Some mail)) db)) = 409
       <-> has_record db mail "enterprise"))
  /\ (forall header body,
        Http.status (snd (run s (IssueLicense.POST rt header body) db)) <> 409).
Proof.
  intros Hs Hone Hb. split; [|split].
  - unfold POST_pro. rewrite Hb. now apply generate_conflict.
  - intros Ht Hre. unfold POST_free. rewrite Hb, Ht, Hre.
    now apply generate_conflict.
  - intros header body. apply issue_never_conflicts.
Qed.

(** A first enterprise license for an address that has none. *)
Lemma duplicate_check_witness :
  let rt := Scenario.at_time Scenario.midlife in
  (status (snd (run available (POST_pro rt (Some "new@example.com"))
                  Scenario.db0)) = 409
   <-> has_record Scenario.db0 "new@example.com" "enterprise")
  /\ status (snd (run available (POST_free rt (Some "new@example.com"))
                    Scenario.db0)) = 200.
Proof.
  intros rt.
  destruct (duplicate_check rt available Scenario.db0 "new@example.com")
    as (H1 & _ & _).
  - reflexivity.
  - simpl. lia.
  - reflexivity.
  - split; [exact H1|reflexivity].
Defined.

(** C5 as stated fails in both directions.  An address whose only
    enterprise record is revoked and expired is refused with 409, not
    issued a fresh license; and the admin route issues a second pro
    license to the owner of the scenario's active one. *)
Lemma duplicate_check_ignores_state :
  let rt := Scenario.at_time Scenario.midlife in
  (let lapsed :=
     mkLicense "lic-0000" Scenario.token0 "user@example.com" "enterprise" 1
       (Some []) (Some 1600000000000) true in
   revoked lapsed = true
   /\ Supabase.expires_at lapsed = Some 1600000000000
   /\ 1600000000000 < now rt
   /\ snd (run available (POST_free rt (Some "user@example.com"))
             (mkDatabase [lapsed] []))
      = refuse 409 "An enterprise license already exists for this email")
  /\ (let body := IssueLicense.mkRequest "user@example.com" "pro"
                    (JS.Number 1) (JS.Number 30) in
      revoked Scenario.license0 = false
      /\ VerifyLicense.record_expired Scenario.license0 (now rt) = false
      /\ email Scenario.license0 = IssueLicense.email body
      /\ plan Scenario.license0 = IssueLicense.plan body
      /\ Http.ok (snd (run available
                         (IssueLicense.POST rt (Some "admin-secret") (Some body))
                         Scenario.db0)) = true
      /\ List.length
           (licenses (fst (run available
                             (IssueLicense.POST rt (Some "admin-secret")
                                (Some body)) Scenario.db0))) = 2%nat).
Proof.
  intros rt. split.
  - intros lapsed. repeat split; reflexivity.
  - intros body. repeat split; reflexivity.
Qed.

End IssuanceSpec.

(** ** The device quota, one call after another and all at once *)

Module QuotaSpec.
Import Supabase Http VerifyLicense SupabaseFacts VerifyFacts Admission Server.
Local Open Scope Z_scope.

Lemma set_devices_stored (db : Database) (key : string) (l : License)
  (devices : list string) :
  stored db key l ->
  filter (has_key key) (map (set_devices key devices) (licenses db))
  = [mkLicense (license_key l) (jwt l) (email l) (plan l)
       (Supabase.device_limit l) (Some devices) (Supabase.expires_at l)
       (revoked l)].
Proof.
  intros Hl. rewrite filter_map_key by apply set_devices_key.
  unfold stored in Hl. rewrite Hl. simpl. unfold set_devices.
  assert (Hk : has_key key l = true).
  { unfold has_key. rewrite (stored_key db key l Hl). apply String.eqb_refl. }
  now rewrite Hk.
Qed.

Lemma devices_include_app (l : License) (fp x : string) :
  devices_include l x = false -> x <> fp ->
  existsb (String.eqb x) (devices_or_empty l ++ [fp]) = false.
Proof.
  intros Hin Hne. rewrite existsb_app. simpl. rewrite orb_false_r.
  unfold devices_include in Hin. unfold devices_or_empty.
  destruct (current_devices l) as [d|]; simpl.
  - rewrite Hin. simpl. now apply String.eqb_neq.
  - now apply String.eqb_neq.
Qed.

Lemma reaches_admission_expiry (t : Jwt.token) (l l' : License)
  (c : Runtime * Service * JS.value) :
  Supabase.expires_at l' = Supabase.expires_at l ->
  reaches_admission t l c -> reaches_admission t l' c.
Proof.
  destruct c as [[rt s] v]. unfold reaches_admission, record_expired.
  now intros ->.
Qed.

(** Calls served one after another fill the room that is left, in order,
    and flag every call after that. *)
Lemma verify_all_fills (t : Jwt.token) (key : string)
  (cs : list (Runtime * Service * JS.value)) :
  payload_jti t = Some key ->
  forall (fps : list string) (db : Database) (l : License),
  stored db key l ->
  revoked l = false ->
  Forall (fun c => update_fails (snd (fst c)) = false
                   /\ reaches_admission t l c) cs ->
  map (fun c => Fingerprint.normalizeDeviceFingerprint (snd c)) cs
  = map JS.Return fps ->
  NoDup fps ->
  (forall fp, In fp fps -> devices_include l fp = false) ->
  let room := Z.to_nat (Supabase.device_limit l - devices_length l) in
  exists l',
    stored (fst (verify_all t cs db)) key l'
    /\ Supabase.device_limit l' = Supabase.device_limit l
    /\ Supabase.expires_at l' = Supabase.expires_at l
    /\ revoked l' = false
    /\ devices_or_empty l' = devices_or_empty l ++ firstn room fps
    /\ map flagged (snd (verify_all t cs db))
       = repeat false (Nat.min room (List.length fps))
         ++ repeat true (List.length fps - room)
    /\ Forall (fun r => ok r = true) (snd (verify_all t cs db)).
Proof.
  intros Hjti. induction cs as [|[[rt s] v] cs IH];
    intros fps db l Hl Hr Hcs Hfps Hnd Hfresh room.
  - destruct fps; [|discriminate]. exists l. simpl.
    rewrite firstn_nil, app_nil_r, Nat.min_0_r. repeat split; auto.
  - destruct fps as [|fp fps]; [discriminate|].
    injection Hfps as Hn Hfps.
    apply Forall_cons_iff in Hcs. destruct Hcs as [[Hu Hreach] Hcs].
    destruct Hreach as (Hsel & Hexp & cl & Hv).
    apply NoDup_cons_iff in Hnd. destruct Hnd as [Hnotin Hnd].
    cbn [verify_all].
    rewrite (POST_reaches_admission rt s db (mkRequest t v) key l cl
               Hjti Hsel Hl Hr Hexp Hv).
    cbn [device_fingerprint]. cbn [fst snd] in Hu.
    assert (Hin : devices_include l fp = false) by (apply Hfresh; now left).
    destruct (Z_lt_dec (devices_length l) (Supabase.device_limit l)) as [Hlt|Hge].
    + (* room left: the fingerprint is appended *)
      destruct (bind_device_appends rt s db key l v fp Hn Hin Hlt Hu) as [H1 H2].
      destruct (run s (bind_device rt key l v) db) as [db1 r] eqn:E.
      cbn [fst snd] in H1, H2.
      set (l1 := mkLicense (license_key l) (jwt l) (email l) (plan l)
                   (Supabase.device_limit l) (Some (devices_or_empty l ++ [fp]))
                   (Supabase.expires_at l) (revoked l)).
      assert (Hl1 : stored db1 key l1).
      { unfold stored. rewrite H1. now apply set_devices_stored. }
      assert (Hlen1 : devices_length l1 = devices_length l + 1).
      { unfold devices_length. subst l1. cbn [current_devices].
        rewrite length_app, Nat2Z.inj_add. unfold devices_or_empty.
        destruct (current_devices l); cbn [List.length]; lia. }
      destruct (IH fps db1 l1 Hl1 Hr) as (l' & S1 & S2 & S3 & S4 & S5 & S6 & S7).
      * eapply Forall_impl; [|exact Hcs]. intros c [Hcu Hc]. split; [exact Hcu|].
        now apply (reaches_admission_expiry t l l1 c).
      * exact Hfps.
      * exact Hnd.
      * intros x Hx. unfold devices_include. simpl.
        apply devices_include_app; [apply Hfresh; now right|].
        intros ->. contradiction.
      * destruct (verify_all t cs db1) as [db2 rs].
        cbn [fst snd] in *. exists l'.
        assert (Hroom : room = S (Z.to_nat (Supabase.device_limit l1
                                           - devices_length l1))).
        { subst room. rewrite Hlen1. simpl Supabase.device_limit. lia. }
        rewrite Hroom.
        repeat split; auto.
        -- rewrite S5. change (devices_or_empty l1) with (devices_or_empty l ++ [fp]).
           cbn [firstn]. now rewrite <- app_assoc.
        -- simpl. f_equal; [now rewrite H2|]. exact S6.
        -- constructor; [now rewrite H2|exact S7].
    + (* no room: the call is flagged and nothing is written *)
      destruct (bind_device_refused rt s db key l v fp Hn Hin Hge) as [H1 H2].
      destruct (run s (bind_device rt key l v) db) as [db1 r] eqn:E.
      cbn [fst snd] in H1, H2.
      assert (Hl1 : stored db1 key l) by (unfold stored; now rewrite H1).
      destruct (IH fps db1 l Hl1 Hr Hcs Hfps Hnd) as
        (l' & S1 & S2 & S3 & S4 & S5 & S6 & S7).
      * intros x Hx. apply Hfresh. now right.
      * destruct (verify_all t cs db1) as [db2 rs].
        cbn [fst snd] in *. exists l'.
        assert (Hroom : room = 0%nat) by (subst room; lia).
        rewrite Hroom in *.
        assert (Hroom' : Z.to_nat (Supabase.device_limit l - devices_length l)
                         = 0%nat) by lia.
        rewrite Hroom' in S5, S6.
        repeat split; auto.
        -- simpl. f_equal; [now rewrite H2|].
           rewrite S6. simpl. now rewrite Nat.sub_0_r.
        -- constructor; [now rewrite H2|exact S7].
Qed.

Lemma length_filter_map {A} (f : A -> bool) (l : list A) :
  List.length (filter f l) = List.length (filter (fun b => b) (map f l)).
Proof.
  induction l as [|a r IH]; simpl; [reflexivity|].
  destruct (f a); simpl; now rewrite IH.
Qed.

Lemma filter_flags (a b : nat) :
  filter (fun x => x) (repeat false a ++ repeat true b) = repeat true b.
Proof.
  induction a as [|a IH]; simpl; [|exact IH].
  induction b as [|b IHb]; simpl; [reflexivity|now rewrite IHb].
Qed.

Lemma filter_unflagged (a b : nat) :
  filter (fun x => x) (map negb (repeat false a ++ repeat true b))
  = repeat true a.
Proof.
  induction a as [|a IH]; simpl; [|now rewrite IH].
  induction b as [|b IHb]; simpl; [reflexivity|exact IHb].
Qed.

Lemma admitted_unflagged (rs : list (Response VerifyData)) :
  Forall (fun r => ok r = true) rs ->
  map admitted rs = map negb (map flagged rs).
Proof.
  induction 1 as [|r rs Hr _ IH]; simpl; [reflexivity|].
  unfold admitted at 1. now rewrite Hr, IH.
Qed.

(** C2, as amended.  When verification calls on one license are served
    one after another, each reaching admission with a store that takes
    its update, and their [M] fingerprints normalize to distinct values
    none of which is bound yet, then with room for [room] more devices
    (the limit less the devices bound) exactly [min room M] calls are
    admitted, in order, and the [M - room] others are flagged
    [limit_exceeded]; the stored list is the old one followed by the
    admitted fingerprints.  Submitting a fingerprint that is bound, after
    that, changes neither the tables nor the count. *)
Theorem sequential_quota (t : Jwt.token) (key : string)
  (cs : list (Runtime * Service * JS.value)) (fps : list string)
  (db : Database) (l : License) :
  payload_jti t = Some key ->
  stored db key l ->
  revoked l = false ->
  Forall (fun c => update_fails (snd (fst c)) = false
                   /\ reaches_admission t l c) cs ->
  map (fun c => Fingerprint.normalizeDeviceFingerprint (snd c)) cs
  = map JS.Return fps ->
  NoDup fps ->
  (forall fp, In fp fps -> devices_include l fp = false) ->
  let room := Z.to_nat (Supabase.device_limit l - devices_length l) in
  let db' := fst (verify_all t cs db) in
  let rs := snd (verify_all t cs db) in
  List.length (filter admitted rs) = Nat.min room (List.length fps)
  /\ List.length (filter flagged rs) = (List.length fps - room)%nat
  /\ exists l',
       stored db' key l'
       /\ devices_or_empty l' = devices_or_empty l ++ firstn room fps
       /\ forall rt s v fp,
            reaches_admission t l (rt, s, v) ->
            Fingerprint.normalizeDeviceFingerprint v = JS.Return fp ->
            In fp (devices_or_empty l') ->
            run s (POST rt (Some (mkRequest t v))) db'
            = (db', result l' (devices_length l') false).
Proof.
  intros Hjti Hl Hr Hcs Hfps Hnd Hfresh room db' rs.
  destruct (verify_all_fills t key cs Hjti fps db l Hl Hr Hcs Hfps Hnd Hfresh)
    as (l' & S1 & S2 & S3 & S4 & S5 & S6 & S7).
  fold room in S5, S6. fold db' in S1. fold rs in S6, S7.
  split; [|split].
  - rewrite length_filter_map, (admitted_unflagged rs S7), S6, filter_unflagged.
    apply repeat_length.
  - rewrite length_filter_map, S6, filter_flags. apply repeat_length.
  - exists l'. split; [exact S1|]. split; [exact S5|].
    intros rt s v fp Hreach Hn Hin.
    apply (reaches_admission_expiry t l l' _ S3) in Hreach.
    destruct Hreach as (Hsel & Hexp & cl & Hv).
    rewrite (POST_reaches_admission rt s db' (mkRequest t v) key l' cl
               Hjti Hsel S1 S4 Hexp Hv).
    apply (bind_device_registered rt s db' key l' v fp Hn).
    unfold devices_include. unfold devices_or_empty in Hin.
    destruct (current_devices l') as [d|]; [|destruct Hin].
    apply existsb_exists. exists fp. split; [exact Hin|apply String.eqb_refl].
Qed.

(** The scenario: two devices, one after the other, on the one-device
    license. *)
Lemma sequential_quota_witness :
  let rt := Scenario.at_time Scenario.midlife in
  let cs := [(rt, available, JS.Str "device-aaa111");
             (rt, available, JS.Str "device-bbb222")] in
  let rs := snd (verify_all Scenario.token0 cs Scenario.db0) in
  List.length (filter admitted rs) = 1%nat
  /\ List.length (filter flagged rs) = 1%nat.
Proof.
  intros rt cs rs.
  destruct (sequential_quota Scenario.token0 "lic-0001" cs
              ["device-aaa111"; "device-bbb222"]%string
              Scenario.db0 Scenario.license0) as (H1 & H2 & _).
  - reflexivity.
  - reflexivity.
  - reflexivity.
  - repeat constructor; exists Scenario.claims0; reflexivity.
  - reflexivity.
  - repeat constructor; simpl; intuition discriminate.
  - intros fp [<-|[<-|[]]]; reflexivity.
  - split; [exact H1|exact H2].
Defined.

(** C2 as stated fails: calls in flight at once are not admitted one at
    a time.  Two calls with distinct fingerprints on the scenario's fresh
    one-device license, each looking the record up before the other
    writes, are both answered as bound (count 1, no flag), none is
    flagged, and the store keeps the second writer's fingerprint only. *)
Lemma concurrent_calls_both_bound :
  let rt := Scenario.at_time Scenario.midlife in
  let call fp := Concurrent.mkThread available
                   (POST rt (Scenario.verify_with (JS.Str fp))) in
  let final := Concurrent.run_schedule [0; 1; 0; 1; 0; 1]%nat
                 (Scenario.db0, [call "device-aaa111"; call "device-bbb222"]) in
  Supabase.device_limit Scenario.license0 = 1
  /\ Concurrent.responses final
     = [Some (result Scenario.license0 1 false);
        Some (result Scenario.license0 1 false)]
  /\ map current_devices (licenses (fst final)) = [Some ["device-bbb222"%string]]
  /\ map meta_success (license_activations (fst final)) = [true; true].
Proof. intros rt call final. repeat split; reflexivity. Qed.

End QuotaSpec.

(** ** One request at a time, as a schedule *)

Module ConcurrentFacts.
Import Supabase Concurrent.

Lemma nth_error_replace_nth {A} (i : nat) (x y : A) (l : list A) :
  nth_error l i = Some y -> nth_error (replace_nth i x l) i = Some x.
Proof.
  revert i. induction l as [|a r IH]; intros [|i]; simpl; try discriminate; auto.
Qed.

Lemma replace_nth_twice {A} (i : nat) (x y : A) (l : list A) :
  replace_nth i x (replace_nth i y l) = replace_nth i x l.
Proof.
  revert i. induction l as [|a r IH]; intros [|i]; simpl; auto.
  now rewrite IH.
Qed.

Lemma replace_nth_same {A} (i : nat) (x : A) (l : list A) :
  nth_error l i = Some x -> replace_nth i x l = l.
Proof.
  revert i. induction l as [|a r IH]; intros [|i]; simpl; try discriminate.
  - now intros [= ->].
  - intros H. now rewrite IH.
Qed.

(** Letting one thread make all its calls in a row, with no call of
    another in between, is serving its request alone. *)
Lemma serial_schedule_runs {R} (s : Service) (h : handler R) :
  forall (db : Database) (threads : list (thread R)) (i : nat),
  nth_error threads i = Some (mkThread s h) ->
  exists n,
    run_schedule (repeat i n) (db, threads)
    = (fst (run s h db),
       replace_nth i (mkThread s (Respond (snd (run s h db)))) threads).
Proof.
  induction h as [r|q k IH]; intros db threads i Hi.
  - exists 0%nat. simpl. now rewrite replace_nth_same.
  - destruct (exec s q db) as [db' a] eqn:E.
    destruct (IH a db' (replace_nth i (mkThread s (k a)) threads) i)
      as [n Hn].
    { now apply (nth_error_replace_nth i _ (mkThread s (Await q k))). }
    exists (S n). cbn [repeat run_schedule fold_left].
    unfold step at 2. rewrite Hi, E.
    unfold run_schedule in Hn. rewrite Hn.
    cbn [run]. rewrite E. now rewrite replace_nth_twice.
Qed.

(** Revocation holds through every interleaving of every handler's
    calls. *)
Lemma schedule_keeps_revoked {R} (schedule : list nat) (st : state R)
  (key : string) :
  revoked_in (fst st) key ->
  revoked_in (fst (run_schedule schedule st)) key.
Proof.
  revert st. induction schedule as [|i rest IH]; intros [db threads] H;
    [exact H|].
  cbn [run_schedule fold_left]. apply IH. unfold step.
  destruct (nth_error threads i) as [[s [r|q k]]|]; try exact H.
  pose proof (SupabaseFacts.exec_keeps_revoked s q db key H) as Hq.
  now destruct (exec s q db).
Qed.

End ConcurrentFacts.

(** ** What every storage call keeps *)

Module StoreInvariants.
Import Supabase Invariants SupabaseFacts Server.

(** A property of the tables that every single call keeps is kept by
    every handler, by every request and by every interleaving. *)
Section Lifting.
Variable P : Database -> Prop.
Hypothesis exec_keeps : forall s q db, P db -> P (fst (exec s q db)).

Lemma run_lifts {R} (s : Service) (h : handler R) (db : Database) :
  P db -> P (fst (run s h db)).
Proof.
  revert db. induction h as [r|q k IH]; intros db H; simpl; [exact H|].
  pose proof (exec_keeps s q db H) as Hq.
  destruct (exec s q db) as [db' a]. now apply IH.
Qed.

Lemma serve_lifts (c : call) (db : Database) : P db -> P (serve c db).
Proof. intros H. unfold serve. destruct (req c); now apply run_lifts. Qed.

Lemma serve_all_lifts (cs : list call) (db : Database) :
  P db -> P (serve_all cs db).
Proof.
  revert db. induction cs as [|c cs IH]; intros db H; simpl; [exact H|].
  apply IH. now apply serve_lifts.
Qed.

Lemma schedule_lifts {R} (schedule : list nat) (st : Concurrent.state R) :
  P (fst st) -> P (fst (Concurrent.run_schedule schedule st)).
Proof.
  revert st. induction schedule as [|i rest IH]; intros [db threads] H;
    [exact H|].
  cbn [Concurrent.run_schedule fold_left]. apply IH. unfold Concurrent.step.
  destruct (nth_error threads i) as [[s [r|q k]]|]; try exact H.
  pose proof (exec_keeps s q db H) as Hq.
  now destruct (exec s q db).
Qed.

End Lifting.

Lemma map_key_preserved (f : License -> License) (rows : list License) :
  (forall r, license_key (f r) = license_key r) ->
  map license_key (map f rows) = map license_key rows.
Proof. intros Hf. rewrite map_map. apply map_ext. exact Hf. Qed.

Lemma no_key_not_in (key : string) (rows : list License) :
  existsb (has_key key) rows = false -> ~ In key (map license_key rows).
Proof.
  intros H Hin. apply in_map_iff in Hin. destruct Hin as (r & Hk & Hr).
  assert (Ht : existsb (has_key key) rows = true).
  { apply existsb_exists. exists r. split; [exact Hr|].
    unfold has_key. rewrite Hk. apply String.eqb_refl. }
  congruence.
Qed.

Lemma NoDup_snoc {A} (l : list A) (x : A) :
  NoDup l -> ~ In x l -> NoDup (l ++ [x]).
Proof.
  intros Hl Hx. induction Hl as [|a l Ha Hl IH]; simpl.
  - constructor; [intros []|constructor].
  - constructor.
    + rewrite in_app_iff. intros [H|[H|[]]]; [contradiction|].
      subst. apply Hx. now left.
    + apply IH. intros H. apply Hx. now right.
Qed.

Lemma exec_keys_unique (s : Service) (q : query) (db : Database) :
  keys_unique db -> keys_unique (fst (exec s q db)).
Proof.
  unfold keys_unique. intros H.
  destruct q as [k|m t|k devices|k|row|row]; simpl.
  - now destruct (select_fails s).
  - now destruct (select_fails s).
  - destruct (update_fails s); simpl; [exact H|].
    now rewrite map_key_preserved by apply set_devices_key.
  - destruct (update_fails s); simpl; [exact H|].
    now rewrite map_key_preserved by apply set_revoked_key.
  - destruct (insert_fails s) eqn:Ei; simpl; [exact H|].
    destruct (existsb (has_key (license_key row)) (licenses db)) eqn:Ek;
      simpl; [exact H|].
    destruct (plan_check (plan row)); simpl; [|exact H].
    destruct (int4 (Supabase.device_limit row)); simpl; [|exact H].
    destruct (timestamptz (expires_at row)); simpl; [|exact H].
    rewrite map_app. simpl. apply NoDup_snoc; [exact H|].
    now apply no_key_not_in.
  - now destruct (log_fails s || _).
Qed.

Lemma set_devices_issued_as (key : string) (devices : list string)
  (r : License) :
  issued_as (set_devices key devices r) = issued_as r.
Proof. unfold set_devices. now destruct (has_key key r). Qed.

Lemma set_revoked_issued_as (key : string) (r : License) :
  issued_as (set_revoked key r) = issued_as r.
Proof. unfold set_revoked. now destruct (has_key key r). Qed.

Lemma grown_from_refl (db : Database) : grown_from db db.
Proof.
  repeat split; try (exists []; now rewrite app_nil_r). auto.
Qed.

Lemma grown_from_trans (a b c : Database) :
  grown_from a b -> grown_from b c -> grown_from a c.
Proof.
  intros ((m1 & H1) & (n1 & G1) & R1) ((m2 & H2) & (n2 & G2) & R2).
  repeat split.
  - exists (m1 ++ m2). now rewrite H2, H1, app_assoc.
  - exists (n1 ++ n2). now rewrite G2, G1, app_assoc.
  - auto.
Qed.

Lemma exec_grows (s : Service) (q : query) (db : Database) :
  grown_from db (fst (exec s q db)).
Proof.
  split; [|split].
  - destruct q as [k|m t|k devices|k|row|row]; simpl.
    + destruct (select_fails s); exists []; now rewrite app_nil_r.
    + destruct (select_fails s); exists []; now rewrite app_nil_r.
    + destruct (update_fails s); simpl; exists []; rewrite app_nil_r;
        [reflexivity|].
      rewrite map_map. apply map_ext. apply set_devices_issued_as.
    + destruct (update_fails s); simpl; exists []; rewrite app_nil_r;
        [reflexivity|].
      rewrite map_map. apply map_ext. apply set_revoked_issued_as.
    + destruct (insert_fails s || _ || _ || _ || _); simpl.
      * exists []. now rewrite app_nil_r.
      * exists [issued_as row]. now rewrite map_app.
    + destruct (log_fails s || _); simpl; exists []; now rewrite app_nil_r.
  - destruct q as [k|m t|k devices|k|row|row]; simpl.
    + destruct (select_fails s); exists []; now rewrite app_nil_r.
    + destruct (select_fails s); exists []; now rewrite app_nil_r.
    + destruct (update_fails s); simpl; exists []; now rewrite app_nil_r.
    + destruct (update_fails s); simpl; exists []; now rewrite app_nil_r.
    + destruct (insert_fails s || _ || _ || _ || _); simpl; exists [];
        now rewrite app_nil_r.
    + destruct (log_fails s || _); simpl.
      * exists []. now rewrite app_nil_r.
      * now exists [row].
  - intros key. apply exec_keeps_revoked.
Qed.

Lemma exec_keeps_grown (db0 : Database) (s : Service) (q : query)
  (db : Database) :
  grown_from db0 db -> grown_from db0 (fst (exec s q db)).
Proof. intros H. eapply grown_from_trans; [exact H|apply exec_grows]. Qed.

End StoreInvariants.

(** ** Everything a verification call can do *)

Module VerifyEffects.
Import Supabase Http VerifyLicense SupabaseFacts VerifyFacts CryptoFacts.
Import Invariants.
Local Open Scope Z_scope.

(** A lookup that returns a row returns the one stored row. *)
Lemma select_answer (s : Service) (db : Database) (key : string)
  (l : License) :
  Supabase.error (snd (exec s (SelectByKey key) db)) = false ->
  Supabase.data (snd (exec s (SelectByKey key) db)) = Some l ->
  select_fails s = false /\ stored db key l.
Proof.
  simpl. destruct (select_fails s); [discriminate|]. simpl.
  unfold stored.
  destruct (filter (has_key key) (licenses db)) as [|x [|y r]];
    simpl; try discriminate.
  intros _ [= ->]. auto.
Qed.

Lemma exec_select_db (s : Service) (db : Database) (key : string) :
  fst (exec s (SelectByKey key) db) = db.
Proof. simpl. now destruct (select_fails s). Qed.

(** A call is refused with the tables untouched, or it gets to the device
    fingerprint of a stored, unrevoked, unexpired license under a token
    that verifies. *)
Lemma POST_refused_or_admitted (rt : Runtime) (s : Service) (db : Database)
  (body : option VerifyLicenseRequest) :
  (fst (run s (POST rt body) db) = db
   /\ ok (snd (run s (POST rt body) db)) = false)
  \/ exists b key l c,
       body = Some b
       /\ payload_jti (token b) = Some key
       /\ select_fails s = false
       /\ stored db key l
       /\ revoked l = false
       /\ record_expired l (now rt) = false
       /\ Crypto.verifyLicenseToken (env rt) (now rt) (token b) = JS.Return c
       /\ run s (POST rt body) db
          = run s (bind_device rt key l (device_fingerprint b)) db.
Proof.
  destruct body as [b|]; [|left; split; reflexivity].
  unfold POST.
  destruct (no_token (token b)); [left; split; reflexivity|].
  destruct (payload_jti (token b)) as [key|] eqn:Hjti;
    [|left; split; reflexivity].
  cbn [run].
  pose proof (select_answer s db key) as Hsel.
  pose proof (exec_select_db s db key) as Hdb.
  destruct (exec s (SelectByKey key) db) as [db' a]. cbn [fst snd] in *.
  subst db'.
  destruct (Supabase.error a); [left; split; reflexivity|].
  destruct (Supabase.data a) as [l|]; [|left; split; reflexivity].
  destruct (Hsel l eq_refl eq_refl) as [Hs Hl].
  unfold checks.
  destruct (revoked l) eqn:Hr; [left; split; reflexivity|].
  destruct (record_expired l (now rt)) eqn:He; [left; split; reflexivity|].
  destruct (Crypto.verifyLicenseToken (env rt) (now rt) (token b)) as [c|m]
    eqn:Hv; [|left; split; reflexivity].
  right. exists b, key, l, c. repeat split; auto.
Qed.

Lemma run_log_written {R} (rt : Runtime) (s : Service) (db : Database)
  (key fp : string) (flag : bool) (r : R) :
  license_activations (fst (run s (log_activation rt key fp flag (Respond r)) db))
  = if log_fails s || negb (existsb (has_key key) (licenses db))
    then license_activations db
    else license_activations db ++ [activation_of rt key fp flag].
Proof.
  unfold log_activation. cbn [run exec a_license_key].
  now destruct (log_fails s || negb (existsb (has_key key) (licenses db))).
Qed.

Lemma existsb_key_map (f : License -> License) (key : string)
  (rows : list License) :
  (forall r, license_key (f r) = license_key r) ->
  existsb (has_key key) (map f rows) = existsb (has_key key) rows.
Proof.
  intros Hf. induction rows as [|r rs IH]; simpl; [reflexivity|].
  unfold has_key at 1. rewrite Hf. fold (has_key key r). now rewrite IH.
Qed.

(** Every way through [bind_device] on a stored license. *)
Lemma bind_device_cases (rt : Runtime) (s : Service) (db : Database)
  (key : string) (l : License) (v : JS.value) :
  stored db key l ->
  run s (bind_device rt key l v) db = (db, internal_error)
  \/ run s (bind_device rt key l v) db
     = (db, result l (devices_length l) false)
  \/ exists fp,
       Fingerprint.normalizeDeviceFingerprint v = JS.Return fp
       /\ devices_include l fp = false
       /\ ((devices_length l < Supabase.device_limit l
            /\ update_fails s = false
            /\ run s (bind_device rt key l v) db
               = (mkDatabase
                    (map (set_devices key (devices_or_empty l ++ [fp]))
                       (licenses db))
                    (logged rt s db key fp false),
                  result l (devices_length l + 1) false))
           \/ (devices_length l < Supabase.device_limit l
               /\ update_fails s = true
               /\ run s (bind_device rt key l v) db
                  = (mkDatabase (licenses db) (logged rt s db key fp false),
                     result l (devices_length l) false))
           \/ (~ devices_length l < Supabase.device_limit l
               /\ run s (bind_device rt key l v) db
                  = (mkDatabase (licenses db) (logged rt s db key fp true),
                     result l (devices_length l) true))).
Proof.
  intros Hl. pose proof (stored_exists db key l Hl) as Hex.
  unfold bind_device.
  destruct (JS.truthy v); [|right; left; reflexivity].
  destruct (Fingerprint.normalizeDeviceFingerprint v) as [fp|m];
    [|left; reflexivity].
  destruct (devices_include l fp) eqn:Hin; cbn [negb];
    [right; left; reflexivity|].
  right. right. exists fp. split; [reflexivity|]. split; [exact Hin|].
  unfold logged, activation_of.
  destruct (Z.ltb_spec (devices_length l) (Supabase.device_limit l)) as [Hlt|Hge].
  - destruct (update_fails s) eqn:Hu.
    + right. left. split; [exact Hlt|]. split; [reflexivity|].
      unfold log_activation. cbn [run exec]. rewrite Hu.
      cbn [Supabase.error failed negb a_license_key]. rewrite Hex.
      destruct db as [ls acts]. cbn in *.
      destruct (log_fails s); cbn; rewrite ?Z.add_0_r; reflexivity.
    + left. split; [exact Hlt|]. split; [reflexivity|].
      unfold log_activation. cbn [run exec]. rewrite Hu.
      cbn [Supabase.error succeeded negb a_license_key licenses
           license_activations].
      rewrite existsb_key_map by apply set_devices_key. rewrite Hex.
      assert (Hlen : Z.of_nat (List.length (devices_or_empty l ++ [fp]))
                     = devices_length l + 1).
      { rewrite length_app, Nat2Z.inj_add. unfold devices_length, devices_or_empty.
        destruct (current_devices l); cbn [List.length]; lia. }
      rewrite Hlen.
      destruct (log_fails s); cbn; reflexivity.
  - right. right. split; [lia|].
    unfold log_activation. cbn [run exec a_license_key]. rewrite Hex.
    destruct db as [ls acts]. cbn in *.
    destruct (log_fails s); cbn; reflexivity.
Qed.

End VerifyEffects.

(** ** What a verification response is worth *)

Module VerifySpec.
Import Supabase Http VerifyLicense SupabaseFacts VerifyFacts CryptoFacts.
Import Invariants VerifyEffects.
Local Open Scope Z_scope.

(** X1.  A verification that answers [ok] has found, under the [jti] of
    the token, a stored license that is not revoked and not past its
    [expires_at], and the token has verified under the configured key,
    issuer and audience before its own [exp]; the response reports the
    record's plan, expiry and limit, and a count that is the record's or
    one more. *)
Theorem verify_ok_sound (rt : Runtime) (s : Service) (db : Database)
  (body : option VerifyLicenseRequest) :
  ok (snd (run s (POST rt body) db)) = true ->
  exists b key l c n f,
    body = Some b
    /\ payload_jti (token b) = Some key
    /\ stored db key l
    /\ revoked l = false
    /\ record_expired l (now rt) = false
    /\ Crypto.verifyLicenseToken (env rt) (now rt) (token b) = JS.Return c
    /\ Jwt.jti (Jwt.payload c) = key
    /\ now rt / 1000 < Jwt.exp (Jwt.payload c)
    /\ snd (run s (POST rt body) db) = result l n f
    /\ devices_length l <= n <= devices_length l + 1.
Proof.
  intros Hok.
  destruct (POST_refused_or_admitted rt s db body)
    as [[_ Hno]|(b & key & l & c & -> & Hjti & Hs & Hl & Hr & He & Hv & Hrun)];
    [congruence|].
  rewrite Hrun in *.
  assert (Hkey : Jwt.jti (Jwt.payload c) = key
                 /\ now rt / 1000 < Jwt.exp (Jwt.payload c)).
  { destruct (verifyLicenseToken_checked _ _ _ _ Hv)
      as (pk & k & h & sg & _ & _ & Ht & _ & _ & Hexp & _).
    split; [|exact Hexp].
    unfold payload_jti in Hjti. rewrite Ht in Hjti. simpl in Hjti.
    destruct (blank _); [discriminate|]. now injection Hjti. }
  destruct Hkey as [Hkey Hexp].
  destruct (bind_device_cases rt s db key l (device_fingerprint b) Hl)
    as [H|[H|(fp & _ & _ & [(_ & _ & H)|[(_ & _ & H)|(_ & H)]])]];
    rewrite H in *; cbn [snd] in *; try discriminate;
    eexists b, key, l, c, _, _; repeat split; eauto; lia.
Qed.

(** The scenario's license verified in mid-life. *)
Lemma verify_ok_sound_witness :
  exists l n f,
    stored Scenario.db0 "lic-0001" l /\ revoked l = false
    /\ snd (run available
              (POST (Scenario.at_time Scenario.midlife)
                 (Scenario.verify_with JS.Undefined)) Scenario.db0)
       = result l n f.
Proof.
  destruct (verify_ok_sound (Scenario.at_time Scenario.midlife) available
              Scenario.db0 (Scenario.verify_with JS.Undefined) eq_refl)
    as (b & key & l & c & n & f & Hb & Hj & Hl & Hr & _ & _ & _ & _ & H & _).
  injection Hb as <-. injection Hj as <-.
  exists l, n, f. auto.
Defined.

(** X2.  A verification call that is refused, or that carries no device
    fingerprint, writes nothing: both tables are as they were. *)
Theorem verify_writes_only_for_a_device (rt : Runtime) (s : Service)
  (db : Database) (body : option VerifyLicenseRequest) :
  ok (snd (run s (POST rt body) db)) = false
  \/ (forall b, body = Some b -> JS.truthy (device_fingerprint b) = false) ->
  fst (run s (POST rt body) db) = db.
Proof.
  intros H.
  destruct (POST_refused_or_admitted rt s db body)
    as [[Hdb _]|(b & key & l & c & -> & Hjti & Hs & Hl & Hr & He & Hv & Hrun)];
    [exact Hdb|].
  rewrite Hrun in *.
  destruct H as [Hno|Hnofp].
  - destruct (bind_device_cases rt s db key l (device_fingerprint b) Hl)
      as [E|[E|(fp & _ & _ & [(_ & _ & E)|[(_ & _ & E)|(_ & E)]])]];
      rewrite E in *; cbn [fst snd] in *; try reflexivity; discriminate.
  - unfold bind_device. now rewrite (Hnofp b eq_refl).
Qed.

(** A fingerprint of three characters: the 500 response, and nothing
    written. *)
Lemma verify_writes_only_for_a_device_witness :
  fst (run available
         (POST (Scenario.at_time Scenario.midlife)
            (Scenario.verify_with (JS.Str "abc"))) Scenario.db0)
  = Scenario.db0.
Proof.
  apply verify_writes_only_for_a_device. left. reflexivity.
Defined.

(** X3.  When the store refuses the update for a new fingerprint but
    takes the activation row, the activation is logged with
    [success = true] and [device_limit_exceeded = false], although no
    device was bound. *)
Theorem refused_update_logged_as_success (rt : Runtime) (s : Service)
  (db : Database) (body : VerifyLicenseRequest) (key : string) (l : License)
  (c : Jwt.claims) (fp : string) :
  payload_jti (token body) = Some key ->
  select_fails s = false ->
  stored db key l ->
  revoked l = false ->
  record_expired l (now rt) = false ->
  Crypto.verifyLicenseToken (env rt) (now rt) (token body) = JS.Return c ->
  Fingerprint.normalizeDeviceFingerprint (device_fingerprint body)
    = JS.Return fp ->
  devices_include l fp = false ->
  devices_length l < Supabase.device_limit l ->
  update_fails s = true ->
  log_fails s = false ->
  fst (run s (POST rt (Some body)) db)
  = mkDatabase (licenses db)
      (license_activations db ++ [mkActivation key fp (now rt) true false]).
Proof.
  intros Hjti Hs Hl Hr He Hv Hn Hin Hlt Hu Hlog.
  rewrite (POST_reaches_admission rt s db body key l c Hjti Hs Hl Hr He Hv).
  destruct (bind_device_cases rt s db key l (device_fingerprint body) Hl)
    as [E|[E|(fp' & Hn' & _ & [(_ & Hu' & _)|[(_ & _ & E)|(Hge & _)]])]].
  - unfold bind_device in E.
    rewrite (normalized_truthy _ _ Hn), Hn, Hin in E. cbn [negb] in E.
    destruct (devices_length l <? Supabase.device_limit l) eqn:Elt;
      [|apply Z.ltb_ge in Elt; lia].
    pose proof (bind_device_update_failed rt s db key l _ fp Hn Hin Hlt Hu)
      as [_ H2].
    unfold bind_device in H2.
    rewrite (normalized_truthy _ _ Hn), Hn, Hin in H2. cbn [negb] in H2.
    rewrite Elt in H2. rewrite E in H2. discriminate.
  - pose proof (f_equal fst E) as E1. cbn [fst] in E1.
    exfalso.
    (* the activation row is written, so the tables cannot be the same *)
    unfold bind_device in E1.
    rewrite (normalized_truthy _ _ Hn), Hn, Hin in E1. cbn [negb] in E1.
    destruct (devices_length l <? Supabase.device_limit l) eqn:Elt;
      [|apply Z.ltb_ge in Elt; lia].
    cbn [run exec] in E1. rewrite Hu in E1.
    cbn [Supabase.error failed negb] in E1.
    unfold log_activation in E1. cbn [run exec a_license_key] in E1.
    rewrite Hlog, (stored_exists db key l Hl) in E1. cbn in E1.
    apply (f_equal license_activations) in E1. cbn in E1.
    apply (f_equal (@List.length _)) in E1. rewrite length_app in E1.
    simpl in E1. lia.
  - congruence.
  - rewrite E. cbn [fst]. unfold logged, activation_of. rewrite Hlog.
    rewrite Hn in Hn'. injection Hn' as <-. reflexivity.
  - contradiction.
Qed.

(** The scenario's first verification against a store that refuses the
    update. *)
Lemma refused_update_logged_as_success_witness :
  let s := mkService false true false false in
  let rt := Scenario.at_time Scenario.midlife in
  fst (run s (POST rt (Scenario.verify_with (JS.Str "device-aaa111")))
         Scenario.db0)
  = mkDatabase [Scenario.license0]
      [mkActivation "lic-0001" "device-aaa111" Scenario.midlife true false].
Proof.
  intros s rt.
  apply (refused_update_logged_as_success rt s Scenario.db0
           (mkRequest Scenario.token0 (JS.Str "device-aaa111")) "lic-0001"
           Scenario.license0 Scenario.claims0 "device-aaa111");
    reflexivity.
Defined.

End VerifySpec.

(** ** Everything the other handlers can do *)

Module LifecycleEffects.
Import Supabase Http SupabaseFacts Invariants.
Local Open Scope Z_scope.

(** [!providedToken || providedToken !== adminToken] is false for the
    configured token only. *)
Lemma authorized_header (e : Crypto.Env) (header : option string) :
  Crypto.unset (Crypto.ADMIN_ISSUE_TOKEN e) = false ->
  RevokeLicense.unauthorized
    (Crypto.or_default (Crypto.ADMIN_ISSUE_TOKEN e) EmptyString) header = false ->
  exists tok, tok <> EmptyString
    /\ Crypto.ADMIN_ISSUE_TOKEN e = Some tok /\ header = Some tok.
Proof.
  unfold Crypto.unset, Crypto.or_default, RevokeLicense.unauthorized, blank.
  destruct (Crypto.ADMIN_ISSUE_TOKEN e) as [tok|]; [|discriminate].
  intros Hset. rewrite Hset.
  destruct header as [p|]; [|discriminate].
  intros H. apply orb_false_iff in H. destruct H as [_ H].
  apply negb_false_iff, String.eqb_eq in H. subst p.
  exists tok. repeat split. intros ->. discriminate.
Qed.

(** A revocation is refused with the tables untouched, or it is the
    configured admin's, of a stored unrevoked license, and sets that
    license's flag and nothing else. *)
Lemma revoke_cases (rt : Runtime) (s : Service) (db : Database)
  (header : option string) (body : option RevokeLicense.RevokeLicenseRequest) :
  (fst (run s (RevokeLicense.POST rt header body) db) = db
   /\ ok (snd (run s (RevokeLicense.POST rt header body) db)) = false)
  \/ exists b tok l,
       body = Some b
       /\ tok <> EmptyString
       /\ Crypto.ADMIN_ISSUE_TOKEN (env rt) = Some tok
       /\ header = Some tok
       /\ RevokeLicense.license_key b <> EmptyString
       /\ stored db (RevokeLicense.license_key b) l
       /\ revoked l = false
       /\ run s (RevokeLicense.POST rt header body) db
          = (mkDatabase
               (map (set_revoked (RevokeLicense.license_key b)) (licenses db))
               (license_activations db),
             accept (RevokeLicense.mkData "License revoked successfully"
                       (RevokeLicense.license_key b) true)).
Proof.
  unfold RevokeLicense.POST.
  destruct (Crypto.unset _) eqn:Hset; [left; split; reflexivity|].
  destruct (RevokeLicense.unauthorized _ _) eqn:Hauth;
    [left; split; reflexivity|].
  destruct (authorized_header _ _ Hset Hauth) as (tok & Hne & Htok & Hh).
  destruct body as [b|]; [|left; split; reflexivity].
  destruct (blank _) eqn:Hb; [left; split; reflexivity|].
  cbn [run exec].
  destruct (select_fails s); [left; split; reflexivity|].
  destruct (filter (has_key (RevokeLicense.license_key b)) (licenses db))
    as [|l [|l' rest]] eqn:Hf; try (left; split; reflexivity).
  cbn [single Supabase.error Supabase.data].
  destruct (revoked l) eqn:Hr; [left; split; reflexivity|].
  cbn [run exec].
  destruct (update_fails s); [left; split; reflexivity|].
  right. exists b, tok, l. repeat split; auto.
  intros E. unfold blank in Hb. rewrite E in Hb. discriminate.
Qed.

(** An issuance is refused with the tables untouched, or it is the
    configured admin's, for a known plan, a positive limit that the
    column holds and a positive period that ends at a valid date, and
    adds the one row whose token it returns. *)
Lemma issue_cases (rt : Runtime) (s : Service) (db : Database)
  (header : option string) (body : option IssueLicense.IssueLicenseRequest) :
  (fst (run s (IssueLicense.POST rt header body) db) = db
   /\ ok (snd (run s (IssueLicense.POST rt header body) db)) = false)
  \/ exists b tok limit days t,
       body = Some b
       /\ tok <> EmptyString
       /\ Crypto.ADMIN_ISSUE_TOKEN (env rt) = Some tok
       /\ header = Some tok
       /\ IssueLicense.email b <> EmptyString
       /\ (IssueLicense.plan b = "pro" \/ IssueLicense.plan b = "enterprise")
       /\ IssueLicense.device_limit b = JS.Number limit
       /\ 1 <= limit <= 2147483647
       /\ IssueLicense.period_days b = JS.Number days
       /\ (1 <= days /\ valid_date (setDate_plus (now rt) days) = true)
       /\ Crypto.signLicenseToken (env rt) (now rt)
            (issued_payload rt (IssueLicense.email b) (IssueLicense.plan b)
               limit days) = JS.Return t
       /\ existsb (has_key (uuid rt)) (licenses db) = false
       /\ run s (IssueLicense.POST rt header body) db
          = (mkDatabase
               (licenses db
                ++ [issued_row rt (IssueLicense.email b) (IssueLicense.plan b)
                      limit days t])
               (license_activations db),
             accept (IssueLicense.mkData t (uuid rt)
                       (setDate_plus (now rt) days))).
Proof.
  unfold IssueLicense.POST.
  destruct (Crypto.unset _) eqn:Hset; [left; split; reflexivity|].
  destruct (RevokeLicense.unauthorized _ _) eqn:Hauth;
    [left; split; reflexivity|].
  destruct (authorized_header _ _ Hset Hauth) as (tok & Hne & Htok & Hh).
  destruct body as [b|]; [|left; split; reflexivity].
  destruct (blank (IssueLicense.email b)) eqn:Hmail;
    [left; split; reflexivity|].
  cbn [orb].
  destruct (_ || _); [left; split; reflexivity|].
  destruct (negb _) eqn:Hplan; [left; split; reflexivity|].
  destruct (IssueLicense.positive_number (IssueLicense.device_limit b))
    as [limit|] eqn:Hlimit; [|left; split; reflexivity].
  destruct (IssueLicense.positive_number (IssueLicense.period_days b))
    as [days|] eqn:Hdays; [|left; split; reflexivity].
  fold (issued_payload rt (IssueLicense.email b) (IssueLicense.plan b)
          limit days).
  destruct (Crypto.signLicenseToken _ _ _) as [t|m] eqn:Hsign;
    [|left; split; reflexivity].
  destruct (valid_date _) eqn:Hdate; [|left; split; reflexivity].
  cbn [negb run exec license_key plan Supabase.device_limit
       Supabase.expires_at].
  destruct (insert_fails s); [left; split; reflexivity|]. cbn [orb].
  destruct (existsb (has_key (uuid rt)) (licenses db)) eqn:Hex;
    [left; split; reflexivity|]. cbn [orb].
  destruct (plan_check (IssueLicense.plan b)) eqn:Hcheck;
    [|left; split; reflexivity].
  destruct (int4 limit) eqn:Hint; [|left; split; reflexivity].
  cbn [negb orb].
  destruct (timestamptz _) eqn:Hstamp; [|left; split; reflexivity].
  cbn [negb].
  apply andb_true_iff in Hint. destruct Hint as [_ Hint].
  apply Z.leb_le in Hint.
  right. exists b, tok, limit, days, t.
  assert (Hpos : forall v z, IssueLicense.positive_number v = Some z ->
                             v = JS.Number z /\ 1 <= z).
  { intros v z. destruct v as [| |x|x|x]; simpl; try discriminate.
    destruct (Z.ltb_spec x 1); [discriminate|]. intros [= ->]. auto. }
  destruct (Hpos _ _ Hlimit) as [Hl1 Hl2].
  destruct (Hpos _ _ Hdays) as [Hd1 Hd2].
  repeat split; auto.
  - intros E. unfold blank in Hmail. rewrite E in Hmail. discriminate.
  - apply negb_false_iff in Hplan. simpl in Hplan.
    rewrite orb_false_r in Hplan. apply orb_true_iff in Hplan.
    destruct Hplan as [H|H]; apply String.eqb_eq in H; auto.
Qed.

(** A generation is refused with the tables untouched, or it adds the
    one enterprise row of its email after a lookup that found none. *)
Lemma generate_cases (rt : Runtime) (s : Service) (db : Database)
  (mail msg : string) :
  (fst (run s (GenerateLicense.generate rt mail msg) db) = db
   /\ GenerateLicense.success
        (snd (run s (GenerateLicense.generate rt mail msg) db)) = false)
  \/ exists t,
       Crypto.signLicenseToken (env rt) (now rt) (generated_payload rt mail)
         = JS.Return t
       /\ existsb (has_key (uuid rt)) (licenses db) = false
       /\ run s (GenerateLicense.generate rt mail msg) db
          = (mkDatabase (licenses db ++ [generated_row rt mail t])
               (license_activations db),
             GenerateLicense.generated (uuid rt)
               (setFullYear_next (now rt)) msg).
Proof.
  unfold GenerateLicense.generate. cbn [run].
  assert (Hdb : fst (exec s (SelectByEmailPlan mail "enterprise") db) = db)
    by (simpl; now destruct (select_fails s)).
  destruct (exec s (SelectByEmailPlan mail "enterprise") db) as [db' a].
  cbn [fst] in Hdb. subst db'.
  destruct (Supabase.data a); [left; split; reflexivity|].
  fold (generated_payload rt mail).
  destruct (Crypto.signLicenseToken _ _ _) as [t|m] eqn:Hsign;
    [|left; split; reflexivity].
  cbn [run exec license_key plan Supabase.device_limit Supabase.expires_at].
  destruct (insert_fails s); [left; split; reflexivity|]. cbn [orb].
  destruct (existsb (has_key (uuid rt)) (licenses db)) eqn:Hex;
    [left; split; reflexivity|].
  cbn [orb plan_check existsb String.eqb Ascii.eqb Bool.eqb negb].
  destruct (timestamptz _); [|left; split; reflexivity].
  right. exists t. repeat split; auto.
Qed.

(** The token route reads and never writes. *)
Lemma get_token_reads (rt : Runtime) (s : Service) (db : Database)
  (body : option string) :
  fst (run s (GetLicenseToken.POST rt body) db) = db.
Proof.
  unfold GetLicenseToken.POST.
  destruct body as [key|]; [|reflexivity].
  destruct (blank key); [reflexivity|].
  cbn [run].
  assert (Hdb : fst (exec s (SelectByKey key) db) = db)
    by (simpl; now destruct (select_fails s)).
  destruct (exec s (SelectByKey key) db) as [db' a].
  cbn [fst] in Hdb. subst db'.
  destruct (Supabase.error a); [reflexivity|].
  destruct (Supabase.data a) as [l|]; [|reflexivity].
  destruct (revoked l); [reflexivity|].
  now destruct (_ <? _).
Qed.

End LifecycleEffects.

(** ** The device quota through every request *)

Module QuotaInvariant.
Import Supabase Http SupabaseFacts Invariants VerifyEffects LifecycleEffects.
Import Server.
Local Open Scope Z_scope.

Lemma within_quota_licenses (db db' : Database) :
  licenses db' = licenses db -> within_quota db -> within_quota db'.
Proof. unfold within_quota. now intros ->. Qed.

Lemma devices_length_revoked (key : string) (r : License) :
  VerifyLicense.devices_length (set_revoked key r)
  = VerifyLicense.devices_length r
  /\ device_limit (set_revoked key r) = device_limit r.
Proof. unfold set_revoked. now destruct (has_key key r). Qed.

Lemma verify_keeps_quota (rt : Runtime) (s : Service) (db : Database)
  (body : option VerifyLicense.VerifyLicenseRequest) :
  within_quota db -> within_quota (fst (run s (VerifyLicense.POST rt body) db)).
Proof.
  intros Hq.
  destruct (POST_refused_or_admitted rt s db body)
    as [[Hdb _]|(b & key & l & c & -> & _ & _ & Hl & _ & _ & _ & Hrun)];
    [now rewrite Hdb|].
  rewrite Hrun.
  destruct (bind_device_cases rt s db key l
              (VerifyLicense.device_fingerprint b) Hl)
    as [E|[E|(fp & _ & _ & [(Hlt & _ & E)|[(_ & _ & E)|(_ & E)]])]];
    rewrite E; cbn [fst]; try exact Hq;
    try (apply (within_quota_licenses db); [reflexivity|exact Hq]).
  (* the one write: the stored row, one device more, still within *)
  unfold within_quota in *. cbn [licenses]. apply Forall_forall.
  intros r' Hin. apply in_map_iff in Hin. destruct Hin as (r & <- & Hr).
  unfold set_devices. destruct (has_key key r) eqn:Hk.
  - assert (Hrl : r = l).
    { assert (Hf : In r (filter (has_key key) (licenses db)))
        by (apply filter_In; auto).
      unfold stored in Hl. rewrite Hl in Hf. destruct Hf as [<-|[]].
      reflexivity. }
    subst r. unfold VerifyLicense.devices_length. cbn.
    rewrite length_app, Nat2Z.inj_add.
    unfold VerifyLicense.devices_length, VerifyLicense.devices_or_empty in *.
    destruct (current_devices l); cbn [List.length] in *; lia.
  - rewrite Forall_forall in Hq. now apply Hq.
Qed.

Lemma revoke_keeps_quota (rt : Runtime) (s : Service) (db : Database)
  (header : option string) (body : option RevokeLicense.RevokeLicenseRequest) :
  within_quota db ->
  within_quota (fst (run s (RevokeLicense.POST rt header body) db)).
Proof.
  intros Hq.
  destruct (revoke_cases rt s db header body)
    as [[Hdb _]|(b & tok & l & _ & _ & _ & _ & _ & _ & _ & E)];
    [now rewrite Hdb|].
  rewrite E. unfold within_quota in *. cbn [fst licenses].
  apply Forall_forall. intros r' Hin. apply in_map_iff in Hin.
  destruct Hin as (r & <- & Hr).
  destruct (devices_length_revoked (RevokeLicense.license_key b) r) as [-> ->].
  rewrite Forall_forall in Hq. now apply Hq.
Qed.

Lemma issue_keeps_quota (rt : Runtime) (s : Service) (db : Database)
  (header : option string) (body : option IssueLicense.IssueLicenseRequest) :
  within_quota db ->
  within_quota (fst (run s (IssueLicense.POST rt header body) db)).
Proof.
  intros Hq.
  destruct (issue_cases rt s db header body)
    as [[Hdb _]|(b & tok & limit & days & t & _ & _ & _ & _ & _ & _ & _
                 & Hlimit & _ & _ & _ & _ & E)];
    [now rewrite Hdb|].
  rewrite E. unfold within_quota in *. cbn [fst licenses].
  apply Forall_app. split; [exact Hq|].
  constructor; [|constructor]. cbn. lia.
Qed.

Lemma generate_keeps_quota (rt : Runtime) (s : Service) (db : Database)
  (mail msg : string) :
  within_quota db ->
  within_quota (fst (run s (GenerateLicense.generate rt mail msg) db)).
Proof.
  intros Hq.
  destruct (generate_cases rt s db mail msg) as [[Hdb _]|(t & _ & _ & E)];
    [now rewrite Hdb|].
  rewrite E. unfold within_quota in *. cbn [fst licenses].
  apply Forall_app. split; [exact Hq|].
  constructor; [|constructor]. cbn. lia.
Qed.

Lemma serve_keeps_quota (c : call) (db : Database) :
  within_quota db -> within_quota (serve c db).
Proof.
  intros Hq. unfold serve. destruct (req c) as [b|h b|h b|b|b|b].
  - now apply verify_keeps_quota.
  - now apply revoke_keeps_quota.
  - now apply issue_keeps_quota.
  - unfold GenerateLicense.POST_free. destruct b as [mail|]; [|exact Hq].
    destruct (_ || _); [exact Hq|]. destruct (negb _); [exact Hq|].
    now apply generate_keeps_quota.
  - unfold GenerateLicense.POST_pro. destruct b as [mail|]; [|exact Hq].
    destruct (blank mail); [exact Hq|]. now apply generate_keeps_quota.
  - now rewrite get_token_reads.
Qed.

(** X4.  Requests served one after another never leave a license with
    more devices in its list than its [device_limit]: if no license is
    over its limit before, none is after, whatever the requests, their
    clocks and the failures of the store. *)
Theorem quota_never_exceeded (cs : list call) (db : Database) :
  within_quota db -> within_quota (serve_all cs db).
Proof.
  revert db. induction cs as [|c cs IH]; intros db Hq; simpl; [exact Hq|].
  apply IH. now apply serve_keeps_quota.
Qed.

(** The scenario's one-device license, and two devices asking for its
    seat. *)
Lemma quota_never_exceeded_witness :
  let rt := Scenario.at_time Scenario.midlife in
  within_quota
    (serve_all
       [mkCall rt available
          (VerifyRequest (Scenario.verify_with (JS.Str "device-aaa111")));
        mkCall rt available
          (VerifyRequest (Scenario.verify_with (JS.Str "device-bbb222")))]
       Scenario.db0).
Proof.
  intros rt. apply quota_never_exceeded.
  constructor; [vm_compute; discriminate|constructor].
Defined.

End QuotaInvariant.

(** ** Revocation and issuance, from the caller's side *)

Module LifecycleSpec.
Import Supabase Http SupabaseFacts Invariants VerifyFacts CryptoFacts.
Import LifecycleEffects Server.
Local Open Scope Z_scope.

(** X5.  Without the configured admin token in [X-ADMIN-TOKEN], the
    revoke and issue routes refuse and write nothing. *)
Theorem admin_token_required (rt : Runtime) (s : Service) (db : Database)
  (header : option string)
  (rbody : option RevokeLicense.RevokeLicenseRequest)
  (ibody : option IssueLicense.IssueLicenseRequest) :
  header <> Crypto.ADMIN_ISSUE_TOKEN (env rt) ->
  (fst (run s (RevokeLicense.POST rt header rbody) db) = db
   /\ ok (snd (run s (RevokeLicense.POST rt header rbody) db)) = false)
  /\ (fst (run s (IssueLicense.POST rt header ibody) db) = db
      /\ ok (snd (run s (IssueLicense.POST rt header ibody) db)) = false).
Proof.
  intros Hne. split.
  - destruct (revoke_cases rt s db header rbody)
      as [H|(b & tok & l & _ & _ & Htok & Hh & _)]; [exact H|].
    congruence.
  - destruct (issue_cases rt s db header ibody)
      as [H|(b & tok & limit & days & t & _ & _ & Htok & Hh & _)]; [exact H|].
    congruence.
Qed.

(** A guessed token against the scenario's license. *)
Lemma admin_token_required_witness :
  let rt := Scenario.at_time Scenario.midlife in
  fst (run available
         (RevokeLicense.POST rt (Some "guess")
            (Some (RevokeLicense.mkRequest "lic-0001"))) Scenario.db0)
  = Scenario.db0.
Proof.
  intros rt.
  destruct (admin_token_required rt available Scenario.db0 (Some "guess")
              (Some (RevokeLicense.mkRequest "lic-0001")) None) as [[H _] _].
  - discriminate.
  - exact H.
Defined.

(** X6.  A license that has been revoked cannot be revoked again: after
    a successful revocation and any later requests, the admin's next
    revocation of the same key, its lookup answered, gets the 400
    response "License is already revoked" and changes nothing. *)
Theorem second_revocation_refused (rt : Runtime) (s : Service) (db : Database)
  (header : option string) (body : RevokeLicense.RevokeLicenseRequest)
  (later : list call) (rt' : Runtime) (s' : Service) (tok : string) :
  ok (snd (run s (RevokeLicense.POST rt header (Some body)) db)) = true ->
  Crypto.ADMIN_ISSUE_TOKEN (env rt') = Some tok ->
  tok <> EmptyString ->
  select_fails s' = false ->
  let db' := serve_all later
               (fst (run s (RevokeLicense.POST rt header (Some body)) db)) in
  run s' (RevokeLicense.POST rt' (Some tok) (Some body)) db'
  = (db', refuse 400 "License is already revoked").
Proof.
  intros Hok Htok Hne Hs' db'.
  destruct (revoke_cases rt s db header (Some body))
    as [[_ Hno]|(b & tok0 & l & [= <-] & _ & _ & _ & Hkey & Hl & Hr & E)];
    [congruence|].
  assert (Hrev : revoked_in db' (RevokeLicense.license_key body)).
  { subst db'. apply (StoreInvariants.serve_all_lifts
                        (fun d => revoked_in d (RevokeLicense.license_key body))).
    - intros s0 q d. apply exec_keeps_revoked.
    - rewrite E. cbn [fst]. exists (set_revoked (RevokeLicense.license_key body) l).
      split.
      + unfold stored. cbn [licenses].
        rewrite filter_map_key by apply set_revoked_key.
        unfold stored in Hl. now rewrite Hl.
      + unfold set_revoked. unfold has_key.
        rewrite (stored_key db _ l Hl), String.eqb_refl. reflexivity. }
  destruct Hrev as (l' & Hl' & Hr').
  unfold RevokeLicense.POST.
  unfold Crypto.unset, Crypto.or_default, RevokeLicense.unauthorized.
  rewrite Htok.
  destruct (String.eqb_spec tok EmptyString) as [|_]; [contradiction|].
  unfold blank at 1.
  destruct (String.eqb_spec tok EmptyString) as [|_]; [contradiction|].
  rewrite String.eqb_refl. cbn [negb orb].
  unfold blank.
  destruct (String.eqb_spec (RevokeLicense.license_key body) EmptyString)
    as [|_]; [contradiction|].
  cbn [run]. rewrite (select_stored s' db' _ l' Hs' Hl').
  cbn [Supabase.error Supabase.data]. now rewrite Hr'.
Qed.

(** The scenario's license, revoked twice in a row. *)
Lemma second_revocation_refused_witness :
  let rt := Scenario.at_time Scenario.midlife in
  let revoke := RevokeLicense.POST rt (Some "admin-secret")
                  (Some (RevokeLicense.mkRequest "lic-0001")) in
  snd (run available revoke (fst (run available revoke Scenario.db0)))
  = refuse 400 "License is already revoked".
Proof.
  intros rt revoke.
  assert (Hne : "admin-secret" <> EmptyString) by discriminate.
  exact (f_equal snd
           (second_revocation_refused rt available Scenario.db0
              (Some "admin-secret") (RevokeLicense.mkRequest "lic-0001")
              [] rt available "admin-secret" eq_refl eq_refl Hne eq_refl)).
Defined.

End LifecycleSpec.

(** ** A license from issuance on *)

Module IssuanceLifecycle.
Import Supabase Http SupabaseFacts Invariants VerifyFacts CryptoFacts.
Import LifecycleEffects.
Local Open Scope Z_scope.

Lemma filter_none {A} (f : A -> bool) (l : list A) :
  existsb f l = false -> filter f l = [].
Proof.
  induction l as [|a r IH]; simpl; [reflexivity|].
  intros H. apply orb_false_iff in H. destruct H as [Ha Hr].
  rewrite Ha. auto.
Qed.

(** A row inserted under a key that was free is the row stored under
    that key. *)
Lemma stored_after_insert (rows : list License) (acts : list Activation)
  (row : License) :
  existsb (has_key (license_key row)) rows = false ->
  stored (mkDatabase (rows ++ [row]) acts) (license_key row) row.
Proof.
  intros H. unfold stored. cbn [licenses].
  rewrite filter_app, (filter_none _ _ H). simpl.
  now rewrite has_key_refl.
Qed.

(** A token that was signed was signed with a private key, over the
    payload as stamped. *)
Lemma signed_token (e : Crypto.Env) (now : Z) (p : Jwt.LicensePayload)
  (t : Jwt.token) :
  Crypto.signLicenseToken e now p = JS.Return t ->
  exists k,
    Crypto.loadPrivateKey e = JS.Return (Jwt.RsaPrivate k)
    /\ let h := Jwt.mkHeader "RS256" "JWT" in
       let c := Jwt.mkClaims (Jwt.stamped (now / 1000) p)
                  (Some (Crypto.or_default (Crypto.JWT_ISSUER e)
                           "levox-license-server"))
                  (Some (Crypto.or_default (Crypto.JWT_AUDIENCE e) "levox-cli")) in
       t = Jwt.Jws h c (Jwt.Signed k h c).
Proof.
  unfold Crypto.signLicenseToken. intros H. apply rethrow_return in H.
  destruct (Crypto.loadPrivateKey e) as [key|m]; [|discriminate].
  destruct key as [k|k|text]; simpl in H; try discriminate.
  injection H as <-. exists k. split; reflexivity.
Qed.

(** The routes sign a payload whose [iat] is the clock's second: their
    token carries the payload as they built it. *)
Lemma signed_at_clock (e : Crypto.Env) (now : Z) (p : Jwt.LicensePayload)
  (t : Jwt.token) :
  Jwt.iat p = now / 1000 ->
  Crypto.signLicenseToken e now p = JS.Return t ->
  exists k,
    Crypto.loadPrivateKey e = JS.Return (Jwt.RsaPrivate k)
    /\ let h := Jwt.mkHeader "RS256" "JWT" in
       let c := Jwt.mkClaims p
                  (Some (Crypto.or_default (Crypto.JWT_ISSUER e)
                           "levox-license-server"))
                  (Some (Crypto.or_default (Crypto.JWT_AUDIENCE e) "levox-cli")) in
       t = Jwt.Jws h c (Jwt.Signed k h c).
Proof.
  intros Hiat H. destruct (signed_token e now p t H) as (k & Hk & Ht).
  cbv zeta in Ht. rewrite (stamped_at_clock _ _ Hiat) in Ht.
  exists k. split; [exact Hk|exact Ht].
Qed.

Lemma signature_valid_refl (k : N) (h : Jwt.header) (c : Jwt.claims) :
  Jwt.signature_valid k h c (Jwt.Signed k h c) = true.
Proof.
  unfold Jwt.signature_valid.
  now rewrite N.eqb_refl, header_eqb_refl, claims_eqb_refl.
Qed.

Lemma whole_days_later (t days : Z) :
  1 <= days -> t / 1000 < setDate_plus t days / 1000.
Proof.
  intros H. unfold setDate_plus, day_ms.
  replace (t + days * 86400000) with (t + (days * 86400) * 1000) by lia.
  rewrite Z.div_add by lia. lia.
Qed.

(** X7.  For a request whose [device_limit] is an integer, what the
    admin route issues respects the data model and agrees with the stored
    record: the token's [jti] is the license key that is returned and
    stored, its [sub] and [tier] are the request's email and plan, the
    request's limit is at least 1 and within the range of the [int]
    column, and is the token's and the record's [device_limit]; the
    token's [exp] is later than its [iat] and is the record's [expires_at]
    in whole seconds; the record starts with no device and unrevoked. *)
Theorem issued_license_well_formed (rt : Runtime) (s : Service)
  (db : Database) (header : option string)
  (b : IssueLicense.IssueLicenseRequest) (limit : Z)
  (d : IssueLicense.IssueData) :
  IssueLicense.device_limit b = JS.Number limit ->
  snd (run s (IssueLicense.POST rt header (Some b)) db) = accept d ->
  exists h c l,
    Jwt.decode (IssueLicense.token d) = Some (h, c)
    /\ Jwt.jti (Jwt.payload c) = IssueLicense.license_key d
    /\ Jwt.sub (Jwt.payload c) = IssueLicense.email b
    /\ Jwt.tier (Jwt.payload c) = IssueLicense.plan b
    /\ (IssueLicense.plan b = "pro" \/ IssueLicense.plan b = "enterprise")
    /\ 1 <= limit <= 2147483647
    /\ Jwt.device_limit (Jwt.payload c) = limit
    /\ Jwt.iat (Jwt.payload c) < Jwt.exp (Jwt.payload c)
    /\ Jwt.exp (Jwt.payload c) = IssueLicense.expires_at d / 1000
    /\ stored (fst (run s (IssueLicense.POST rt header (Some b)) db))
         (IssueLicense.license_key d) l
    /\ jwt l = IssueLicense.token d
    /\ email l = IssueLicense.email b
    /\ plan l = IssueLicense.plan b
    /\ Supabase.device_limit l = limit
    /\ Supabase.expires_at l = Some (IssueLicense.expires_at d)
    /\ current_devices l = Some []
    /\ revoked l = false.
Proof.
  intros Hlim Hd.
  destruct (issue_cases rt s db header (Some b))
    as [[_ Hno]|(b' & tok & limit' & days & t & [= <-] & _ & _ & _ & _ & Hplan
                 & Hlimit & Hrange & _ & [Hdays _] & Hsign & Hex & E)].
  - rewrite Hd in Hno. discriminate.
  - rewrite Hlim in Hlimit. injection Hlimit as <-.
    rewrite E in *. cbn [fst snd] in *.
    injection Hd as <-. cbn [IssueLicense.token IssueLicense.license_key
                             IssueLicense.expires_at].
    destruct (signed_at_clock (env rt) (now rt)
                (issued_payload rt (IssueLicense.email b) (IssueLicense.plan b)
                   limit days) t eq_refl Hsign) as (k & _ & Ht).
    cbv zeta in Ht.
    eexists _, _, (issued_row rt _ _ limit days t).
    split; [rewrite Ht; reflexivity|].
    cbn [Jwt.payload issued_payload Jwt.jti Jwt.sub Jwt.tier
         Jwt.device_limit Jwt.iat Jwt.exp].
    repeat split; auto; try lia.
    + now apply whole_days_later.
    + apply (stored_after_insert (licenses db) (license_activations db)
               (issued_row rt (IssueLicense.email b) (IssueLicense.plan b)
                  limit days t)).
      exact Hex.
Qed.

(** A thirty-day pro license for the scenario's owner. *)
Lemma issued_license_well_formed_witness :
  let rt := Scenario.at_time Scenario.midlife in
  let body := IssueLicense.mkRequest "user@example.com" "pro"
                (JS.Number 1) (JS.Number 30) in
  exists d l,
    snd (run available (IssueLicense.POST rt (Some "admin-secret") (Some body))
           Scenario.db0) = accept d
    /\ stored (fst (run available
                      (IssueLicense.POST rt (Some "admin-secret") (Some body))
                      Scenario.db0)) (IssueLicense.license_key d) l
    /\ jwt l = IssueLicense.token d
    /\ Supabase.device_limit l = 1.
Proof.
  intros rt body. eexists.
  destruct (issued_license_well_formed rt available Scenario.db0
              (Some "admin-secret") body 1 _ eq_refl eq_refl)
    as (h & c & l & _ & _ & _ & _ & _ & _ & _ & _ & _ & Hl & Hj & _ & _
        & Hlim & _).
  exists l. split; [reflexivity|]. split; [exact Hl|].
  split; [exact Hj|exact Hlim].
Defined.

(** X8.  A license the admin route has just issued verifies: under a
    public key that matches the signing key, a verification of the
    returned token at any instant whose second is before the expiry's
    answers valid, with the plan, expiry and limit that were issued and
    no device bound. *)
Theorem issued_license_verifies (rt : Runtime) (s : Service) (db : Database)
  (header : option string) (body : IssueLicense.IssueLicenseRequest)
  (d : IssueLicense.IssueData) (rt' : Runtime) (s' : Service)
  (k : N) (pk : Jwt.pem) (limit : Z) :
  snd (run s (IssueLicense.POST rt header (Some body)) db) = accept d ->
  IssueLicense.device_limit body = JS.Number limit ->
  uuid rt <> EmptyString ->
  Crypto.loadPrivateKey (env rt) = JS.Return (Jwt.RsaPrivate k) ->
  Crypto.loadPublicKey (env rt) = JS.Return pk ->
  Jwt.verification_key pk = Some k ->
  env rt' = env rt ->
  select_fails s' = false ->
  now rt' / 1000 < IssueLicense.expires_at d / 1000 ->
  let db' := fst (run s (IssueLicense.POST rt header (Some body)) db) in
  run s' (VerifyLicense.POST rt'
            (Some (VerifyLicense.mkRequest (IssueLicense.token d) JS.Undefined)))
      db'
  = (db', accept (VerifyLicense.mkData true (IssueLicense.plan body)
                    (Some (IssueLicense.expires_at d)) limit 0 false)).
Proof.
  intros Hd Hlim Huuid Hsk Hpk Hk Henv Hs' Hnow db'. subst db'.
  destruct (issue_cases rt s db header (Some body))
    as [[_ Hno]|(b & tok & limit' & days & t & [= <-] & _ & _ & _ & _ & _
                 & Hlimit & _ & _ & _ & Hsign & Hex & E)].
  - rewrite Hd in Hno. discriminate.
  - rewrite E in *. cbn [fst snd] in *. injection Hd as <-.
    cbn [IssueLicense.token IssueLicense.expires_at] in *.
    rewrite Hlim in Hlimit. injection Hlimit as <-.
    destruct (signed_at_clock (env rt) (now rt)
                (issued_payload rt (IssueLicense.email body)
                   (IssueLicense.plan body) limit days) t eq_refl Hsign) as (k' & Hsk' & Ht).
    cbv zeta in Ht.
    rewrite Hsk in Hsk'. injection Hsk' as <-.
    set (row := issued_row rt (IssueLicense.email body) (IssueLicense.plan body)
                  limit days t).
    set (db' := mkDatabase (licenses db ++ [row]) (license_activations db)).
    assert (Hl : stored db' (uuid rt) row)
      by (apply (stored_after_insert (licenses db) _ row); exact Hex).
    assert (Hjti : VerifyLicense.payload_jti t = Some (uuid rt)).
    { rewrite Ht. unfold VerifyLicense.payload_jti. cbn. unfold blank.
      destruct (String.eqb_spec (uuid rt) EmptyString); [contradiction|].
      reflexivity. }
    assert (Hv : Crypto.verifyLicenseToken (env rt') (now rt') t
                 = JS.Return (Jwt.mkClaims
                                (issued_payload rt (IssueLicense.email body)
                                   (IssueLicense.plan body) limit days)
                                (Some (Crypto.or_default
                                         (Crypto.JWT_ISSUER (env rt))
                                         "levox-license-server"))
                                (Some (Crypto.or_default
                                         (Crypto.JWT_AUDIENCE (env rt))
                                         "levox-cli")))).
    { rewrite Ht, Henv.
      apply (verifyLicenseToken_accepts (env rt) (now rt') pk k); auto.
      apply signature_valid_refl. }
    assert (He : VerifyLicense.record_expired row (now rt') = false).
    { unfold VerifyLicense.record_expired. cbn.
      apply Z.ltb_ge.
      destruct (Z_lt_le_dec (setDate_plus (now rt) days) (now rt')) as [Hlt|];
        [|assumption].
      exfalso.
      assert (setDate_plus (now rt) days / 1000 <= now rt' / 1000)
        by (apply Z.div_le_mono; lia).
      lia. }
    rewrite (POST_reaches_admission rt' s' db'
               (VerifyLicense.mkRequest t JS.Undefined) (uuid rt) row _
               Hjti Hs' Hl eq_refl He Hv).
    reflexivity.
Qed.

(** The thirty-day license verified a day after its issuance. *)
Lemma issued_license_verifies_witness :
  let rt := Scenario.at_time Scenario.midlife in
  let rt' := Scenario.at_time (Scenario.midlife + 86400000) in
  let body := IssueLicense.mkRequest "user@example.com" "pro"
                (JS.Number 1) (JS.Number 30) in
  let issue := run available
                 (IssueLicense.POST rt (Some "admin-secret") (Some body))
                 Scenario.db0 in
  exists d,
    snd issue = accept d
    /\ snd (run available
              (VerifyLicense.POST rt'
                 (Some (VerifyLicense.mkRequest (IssueLicense.token d)
                          JS.Undefined))) (fst issue))
       = accept (VerifyLicense.mkData true "pro"
                   (Some (IssueLicense.expires_at d)) 1 0 false).
Proof.
  intros rt rt' body issue. eexists. split; [reflexivity|].
  exact (f_equal snd
           (issued_license_verifies rt available Scenario.db0
              (Some "admin-secret") body _ rt' available 1%N
              (Jwt.RsaPublic 1) 1 eq_refl eq_refl
              ltac:(discriminate) eq_refl eq_refl eq_refl eq_refl eq_refl
              eq_refl)).
Defined.

(** X9.  The token route returns what was issued: asked for the key of
    a license the admin route has just issued, at any instant up to its
    expiry, it answers with the very token of the issuance, the expiry
    and the plan, and writes nothing. *)
Theorem issued_token_retrievable (rt : Runtime) (s : Service) (db : Database)
  (header : option string) (body : IssueLicense.IssueLicenseRequest)
  (d : IssueLicense.IssueData) (rt' : Runtime) (s' : Service) :
  snd (run s (IssueLicense.POST rt header (Some body)) db) = accept d ->
  uuid rt <> EmptyString ->
  select_fails s' = false ->
  now rt' <= IssueLicense.expires_at d ->
  let db' := fst (run s (IssueLicense.POST rt header (Some body)) db) in
  run s' (GetLicenseToken.POST rt' (Some (IssueLicense.license_key d))) db'
  = (db', accept (GetLicenseToken.mkData (IssueLicense.token d)
                    (Some (IssueLicense.expires_at d))
                    (IssueLicense.plan body))).
Proof.
  intros Hd Huuid Hs' Hnow db'. subst db'.
  destruct (issue_cases rt s db header (Some body))
    as [[_ Hno]|(b & tok & limit & days & t & [= <-] & _ & _ & _ & _ & _
                 & _ & _ & _ & _ & _ & Hex & E)].
  - rewrite Hd in Hno. discriminate.
  - rewrite E in *. cbn [fst snd] in *. injection Hd as <-.
    cbn [IssueLicense.token IssueLicense.expires_at
         IssueLicense.license_key] in *.
    set (row := issued_row rt (IssueLicense.email body) (IssueLicense.plan body)
                  limit days t).
    set (db' := mkDatabase (licenses db ++ [row]) (license_activations db)).
    assert (Hl : stored db' (uuid rt) row)
      by (apply (stored_after_insert (licenses db) _ row); exact Hex).
    unfold GetLicenseToken.POST, blank.
    destruct (String.eqb_spec (uuid rt) EmptyString); [contradiction|].
    cbn [run]. rewrite (select_stored s' db' _ row Hs' Hl).
    cbn [Supabase.error Supabase.data revoked row issued_row
         Supabase.expires_at GetLicenseToken.date_of].
    destruct (Z.ltb_spec (setDate_plus (now rt) days) (now rt')); [lia|].
    reflexivity.
Qed.

(** The thirty-day license asked back on the day of its issuance. *)
Lemma issued_token_retrievable_witness :
  let rt := Scenario.at_time Scenario.midlife in
  let body := IssueLicense.mkRequest "user@example.com" "pro"
                (JS.Number 1) (JS.Number 30) in
  let issue := run available
                 (IssueLicense.POST rt (Some "admin-secret") (Some body))
                 Scenario.db0 in
  exists d,
    snd issue = accept d
    /\ snd (run available
              (GetLicenseToken.POST rt (Some (IssueLicense.license_key d)))
              (fst issue))
       = accept (GetLicenseToken.mkData (IssueLicense.token d)
                   (Some (IssueLicense.expires_at d)) "pro").
Proof.
  intros rt body issue. eexists. split; [reflexivity|].
  exact (f_equal snd
           (issued_token_retrievable rt available Scenario.db0
              (Some "admin-secret") body _ rt available eq_refl
              ltac:(discriminate) eq_refl ltac:(vm_compute; discriminate))).
Defined.

(** X10.  The token route and the verify route disagree on a record
    whose [expires_at] is NULL: the token route reads it as the epoch and
    refuses the license as expired at every instant after it. *)
Theorem token_route_refuses_null_expiry (rt : Runtime) (s : Service)
  (db : Database) (key : string) (l : License) :
  key <> EmptyString ->
  select_fails s = false ->
  stored db key l ->
  revoked l = false ->
  Supabase.expires_at l = None ->
  0 < now rt ->
  run s (GetLicenseToken.POST rt (Some key)) db
  = (db, refuse 403 "License has expired").
Proof.
  intros Hkey Hs Hl Hr He Hnow.
  unfold GetLicenseToken.POST, blank.
  destruct (String.eqb_spec key EmptyString); [contradiction|].
  cbn [run]. rewrite (select_stored s db key l Hs Hl).
  cbn [Supabase.error Supabase.data]. rewrite Hr, He.
  cbn [GetLicenseToken.date_of].
  destruct (Z.ltb_spec 0 (now rt)); [reflexivity|lia].
Qed.

(** The scenario's license with its [expires_at] set to NULL. *)
Lemma token_route_refuses_null_expiry_witness :
  let perpetual :=
    mkLicense "lic-0001" Scenario.token0 "user@example.com" "pro" 1
      (Some []) None false in
  snd (run available
         (GetLicenseToken.POST (Scenario.at_time Scenario.midlife)
            (Some "lic-0001")) (mkDatabase [perpetual] []))
  = refuse 403 "License has expired".
Proof.
  intros perpetual.
  exact (f_equal snd
           (token_route_refuses_null_expiry
              (Scenario.at_time Scenario.midlife) available
              (mkDatabase [perpetual] []) "lic-0001" perpetual
              ltac:(discriminate) eq_refl eq_refl eq_refl eq_refl eq_refl)).
Defined.

(** After a generation for [mail] that found no enterprise record, the
    record it added is the only one. *)
Lemma generated_is_single (db : Database) (mail : string) (row : License) :
  ~ has_record db mail "enterprise" ->
  email row = mail -> plan row = "enterprise" ->
  filter (has_email_plan mail "enterprise") (licenses db ++ [row]) = [row].
Proof.
  intros Hnone He Hp. rewrite filter_app.
  assert (Hf : filter (has_email_plan mail "enterprise") (licenses db) = []).
  { destruct (filter _ (licenses db)) as [|x r] eqn:E; [reflexivity|].
    exfalso. apply Hnone. exists x.
    assert (Hin : In x (filter (has_email_plan mail "enterprise") (licenses db)))
      by (rewrite E; now left).
    apply filter_In in Hin. destruct Hin as [Hin Hm].
    unfold has_email_plan in Hm. apply andb_true_iff in Hm.
    destruct Hm as [H1 H2]. apply String.eqb_eq in H1, H2. auto. }
  rewrite Hf. simpl. unfold has_email_plan.
  now rewrite He, Hp, !String.eqb_refl.
Qed.

(** X11.  The generation routes give an address one enterprise license:
    when no enterprise record of a valid address exists and a first
    request, by either route, succeeds, the next request for that address,
    by either route, its lookup answered, gets the 409 response and writes
    nothing. *)
Theorem second_generation_refused (rt rt' : Runtime) (s s' : Service)
  (db : Database) (mail : string) (first_free second_free : bool) :
  let route (free : bool) :=
    if free then GenerateLicense.POST_free else GenerateLicense.POST_pro in
  blank mail = false ->
  blank (JS.trim mail) = false ->
  GenerateLicense.emailRegex_test mail = true ->
  ~ has_record db mail "enterprise" ->
  GenerateLicense.success
    (snd (run s (route first_free rt (Some mail)) db)) = true ->
  select_fails s' = false ->
  let db' := fst (run s (route first_free rt (Some mail)) db) in
  run s' (route second_free rt' (Some mail)) db'
  = (db', GenerateLicense.refuse 409
            "An enterprise license already exists for this email").
Proof.
  intros route Hb Ht Hre Hnone Hok Hs' db'. subst db'.
  assert (Hroute : forall free r,
             exists msg, route free r (Some mail)
                         = GenerateLicense.generate r mail msg).
  { intros free r. destruct free; cbn.
    - unfold GenerateLicense.POST_free. rewrite Hb, Ht, Hre. cbn. eauto.
    - unfold GenerateLicense.POST_pro. rewrite Hb. eauto. }
  destruct (Hroute first_free rt) as [msg1 E1].
  destruct (Hroute second_free rt') as [msg2 E2].
  rewrite E1 in *. rewrite E2.
  destruct (generate_cases rt s db mail msg1) as [[_ Hno]|(t & _ & _ & E)];
    [congruence|].
  rewrite E. cbn [fst].
  unfold GenerateLicense.generate. cbn [run exec]. rewrite Hs'.
  cbn [licenses].
  rewrite (generated_is_single db mail (generated_row rt mail t) Hnone
             eq_refl eq_refl).
  reflexivity.
Qed.

(** A new address asks the free route, then the pro route. *)
Lemma second_generation_refused_witness :
  let rt := Scenario.at_time Scenario.midlife in
  let first := run available
                 (GenerateLicense.POST_free rt (Some "new@example.com"))
                 Scenario.db0 in
  snd (run available (GenerateLicense.POST_pro rt (Some "new@example.com"))
         (fst first))
  = GenerateLicense.refuse 409
      "An enterprise license already exists for this email".
Proof.
  intros rt first.
  refine (f_equal snd
            (second_generation_refused rt rt available available Scenario.db0
               "new@example.com" true false eq_refl eq_refl eq_refl _
               eq_refl eq_refl)).
  intros (l & [<-|[]] & _ & Hp). discriminate.
Defined.

End IssuanceLifecycle.

(** ** Keys, issuer and audience *)

Module ConfigurationSpec.
Import JS Jwt Crypto CryptoFacts Supabase Http.
Import VerifyFacts LifecycleEffects IssuanceLifecycle.
Local Open Scope Z_scope.

(** X12.  A token of this server verifies only under the configuration
    it was signed under: when [verifyLicenseToken] accepts a token that
    [signLicenseToken] made, the verification key is the other half of
    the signing key, the issuer and the audience of the two environments
    (each with its default) are the same, the claims returned carry the
    payload as it was signed, that is with an [iat] of 0 replaced by the
    second of signing and otherwise as given, and the clock is before its
    [exp]. *)
Theorem verified_only_as_signed (e1 e2 : Env) (p : LicensePayload)
  (t : token) (signed_at now : Z) (c : claims) :
  signLicenseToken e1 signed_at p = Return t ->
  verifyLicenseToken e2 now t = Return c ->
  payload c = stamped (signed_at / 1000) p
  /\ (iat p <> 0 -> payload c = p)
  /\ now / 1000 < exp p
  /\ or_default (JWT_ISSUER e1) "levox-license-server"
     = or_default (JWT_ISSUER e2) "levox-license-server"
  /\ or_default (JWT_AUDIENCE e1) "levox-cli"
     = or_default (JWT_AUDIENCE e2) "levox-cli"
  /\ exists k pk,
       loadPrivateKey e1 = Return (RsaPrivate k)
       /\ loadPublicKey e2 = Return pk
       /\ verification_key pk = Some k.
Proof.
  intros Hsign Hver.
  destruct (signed_token e1 signed_at p t Hsign) as (k & Hsk & Ht).
  cbv zeta in Ht.
  destruct (verifyLicenseToken_checked e2 now t c Hver)
    as (pk & k' & h & sg & Hpk & Hk & Ht' & _ & Hsig & Hexp & Haud & Hiss).
  rewrite Ht in Ht'. injection Ht' as Hh Hc Hs. subst h c sg.
  cbn [payload iss aud stamped exp] in *.
  injection Haud as Haud. injection Hiss as Hiss.
  unfold signature_valid in Hsig.
  apply andb_true_iff in Hsig. destruct Hsig as [Hsig _].
  apply andb_true_iff in Hsig. destruct Hsig as [Hkk _].
  apply N.eqb_eq in Hkk. subst k'.
  split; [reflexivity|]. split; [intros Hiat; now apply stamped_nonzero|].
  repeat split; auto. exists k, pk. auto.
Qed.

(** The scenario's payload, signed and verified by the scenario's
    server. *)
Lemma verified_only_as_signed_witness :
  exists k pk,
    loadPrivateKey Scenario.env0 = Return (RsaPrivate k)
    /\ loadPublicKey Scenario.env0 = Return pk
    /\ verification_key pk = Some k.
Proof.
  destruct (verified_only_as_signed Scenario.env0 Scenario.env0
              Scenario.payload0 Scenario.token0 (Scenario.issued_s * 1000)
              Scenario.midlife Scenario.claims0 eq_refl eq_refl)
    as (_ & _ & _ & _ & _ & H).
  exact H.
Defined.

(** X13.  Without [PUBLIC_KEY_PATH] the verify route accepts no license,
    even in production where the key itself comes from [PUBLIC_KEY]:
    every call that gets past the revocation and expiry checks is
    answered "Invalid license token signature". *)
Theorem no_public_key_path_no_license (rt : Runtime) (s : Service)
  (db : Database) (body : VerifyLicense.VerifyLicenseRequest)
  (key : string) (l : License) :
  unset (PUBLIC_KEY_PATH (env rt)) = true ->
  VerifyLicense.payload_jti (VerifyLicense.token body) = Some key ->
  select_fails s = false ->
  stored db key l ->
  revoked l = false ->
  VerifyLicense.record_expired l (Http.now rt) = false ->
  run s (VerifyLicense.POST rt (Some body)) db
  = (db, refuse 403 "Invalid license token signature").
Proof.
  intros Hpath Hjti Hs Hl Hr He.
  rewrite (POST_loads rt s db body key l Hjti Hs Hl).
  unfold VerifyLicense.checks. rewrite Hr, He.
  unfold verifyLicenseToken, loadPublicKey. rewrite Hpath. reflexivity.
Qed.

(** The scenario's server with [PUBLIC_KEY] set and the path missing. *)
Lemma no_public_key_path_no_license_witness :
  let e := mkEnv (Some "./private_key.pem") None (Some "production")
             (Some (RsaPrivate 1)) (Some (RsaPublic 1)) None None
             (Some "admin-secret") (fun _ => None) in
  let rt := mkRuntime e Scenario.midlife "lic-0002" in
  snd (run available
         (VerifyLicense.POST rt (Scenario.verify_with JS.Undefined))
         Scenario.db0)
  = refuse 403 "Invalid license token signature".
Proof.
  intros e rt.
  exact (f_equal snd
           (no_public_key_path_no_license rt available Scenario.db0
              (VerifyLicense.mkRequest Scenario.token0 JS.Undefined)
              "lic-0001" Scenario.license0
              eq_refl eq_refl eq_refl eq_refl eq_refl eq_refl)).
Defined.

(** X14.  Without [PRIVATE_KEY_PATH] no license is issued, even in
    production where the key itself comes from [PRIVATE_KEY]: the admin
    route and both generation routes refuse and write nothing. *)
Theorem no_private_key_path_no_issuance (rt : Runtime) (s : Service)
  (db : Database) (header : option string)
  (body : option IssueLicense.IssueLicenseRequest) (mail : option string) :
  unset (PRIVATE_KEY_PATH (env rt)) = true ->
  (fst (run s (IssueLicense.POST rt header body) db) = db
   /\ ok (snd (run s (IssueLicense.POST rt header body) db)) = false)
  /\ (fst (run s (GenerateLicense.POST_free rt mail) db) = db
      /\ GenerateLicense.success
           (snd (run s (GenerateLicense.POST_free rt mail) db)) = false)
  /\ (fst (run s (GenerateLicense.POST_pro rt mail) db) = db
      /\ GenerateLicense.success
           (snd (run s (GenerateLicense.POST_pro rt mail) db)) = false).
Proof.
  intros Hpath.
  assert (Hsign : forall at_ms p t,
             signLicenseToken (env rt) at_ms p <> Return t).
  { intros at_ms p t. unfold signLicenseToken, loadPrivateKey. rewrite Hpath.
    discriminate. }
  assert (Hgen : forall m msg,
             fst (run s (GenerateLicense.generate rt m msg) db) = db
             /\ GenerateLicense.success
                  (snd (run s (GenerateLicense.generate rt m msg) db)) = false).
  { intros m msg.
    destruct (generate_cases rt s db m msg) as [H|(t & Ht & _)]; [exact H|].
    now apply Hsign in Ht. }
  split; [|split].
  - destruct (issue_cases rt s db header body)
      as [H|(b & tok & limit & days & t & _ & _ & _ & _ & _ & _ & _ & _ & _
             & _ & Ht & _)]; [exact H|].
    now apply Hsign in Ht.
  - unfold GenerateLicense.POST_free. destruct mail as [m|]; [|split; reflexivity].
    destruct (_ || _); [split; reflexivity|].
    destruct (negb _); [split; reflexivity|]. apply Hgen.
  - unfold GenerateLicense.POST_pro. destruct mail as [m|]; [|split; reflexivity].
    destruct (blank m); [split; reflexivity|]. apply Hgen.
Qed.

(** The scenario's server with [PRIVATE_KEY] set and the path missing:
    the admin's request ends in the 500 response. *)
Lemma no_private_key_path_no_issuance_witness :
  let e := mkEnv None (Some "./public_key.pem") (Some "production")
             (Some (RsaPrivate 1)) (Some (RsaPublic 1)) None None
             (Some "admin-secret") (fun _ => None) in
  let rt := mkRuntime e Scenario.midlife "lic-0002" in
  let body := IssueLicense.mkRequest "user@example.com" "pro"
                (JS.Number 1) (JS.Number 30) in
  fst (run available (IssueLicense.POST rt (Some "admin-secret") (Some body))
         Scenario.db0) = Scenario.db0.
Proof.
  intros e rt body.
  destruct (no_private_key_path_no_issuance rt available Scenario.db0
              (Some "admin-secret") (Some body) None eq_refl) as [[H _] _].
  exact H.
Defined.

End ConfigurationSpec.

(** ** Fingerprints and addresses that are accepted *)

Module InputSpec.
Import JS Fingerprint JSFacts FingerprintFacts SameDevice GenerateLicense.

(** X15.  [isValidDeviceFingerprint] accepts exactly the strings that
    keep at least 8 characters of [a-z0-9_-] once lowercased: whitespace,
    punctuation and other characters do not count, and no length is too
    long. *)
Theorem valid_fingerprint_iff (v : value) :
  isValidDeviceFingerprint v = true
  <-> exists s, v = Str s
        /\ 8 <= List.length (canonical (list_ascii_of_string s)).
Proof.
  unfold isValidDeviceFingerprint. split.
  - destruct (normalizeDeviceFingerprint v) as [fp|m] eqn:E; [|discriminate].
    intros _. destruct (normalize_shape v fp E) as (s & -> & _ & Hlen & _).
    exists s. split; [reflexivity|]. now apply Nat.leb_le.
  - intros (s & -> & Hlen).
    assert (Hs : s <> EmptyString) by (intros ->; simpl in Hlen; lia).
    rewrite (normalize_nonempty s Hs).
    destruct (Nat.ltb_spec (List.length (canonical (list_ascii_of_string s))) 8);
      [lia|reflexivity].
Qed.

(** Raw inputs that differ only by case, surrounding whitespace or
    extraneous characters normalize alike. *)
Lemma normalize_differ_only (a b fp : string) :
  differ_only (list_ascii_of_string a) (list_ascii_of_string b) ->
  normalizeDeviceFingerprint (Str a) = Return fp ->
  normalizeDeviceFingerprint (Str b) = Return fp.
Proof.
  intros Hab Ha.
  destruct (normalize_shape _ _ Ha) as (s & [= <-] & Hne & Hlen & Hy).
  apply Nat.leb_le in Hlen.
  pose proof (FingerprintSpec.differ_only_canonical _ _ Hab) as Hc.
  assert (Hb : b <> EmptyString).
  { intros ->. rewrite Hc in Hlen. simpl in Hlen. lia. }
  rewrite (normalize_nonempty b Hb), <- Hc.
  destruct (Nat.ltb_spec (List.length (canonical (list_ascii_of_string a))) 8);
    [lia|now rewrite Hy].
Qed.

Lemma plus_spec (cls : ascii -> bool) (k : list ascii -> bool) (l : list ascii) :
  plus cls k l = true
  <-> exists a r, l = a ++ r /\ a <> [] /\ forallb cls a = true /\ k r = true.
Proof.
  split.
  - induction l as [|c l IH]; simpl; [discriminate|].
    intros H. apply andb_true_iff in H. destruct H as [Hc H].
    destruct (k l) eqn:Hk.
    + exists [c], l. simpl. rewrite Hc. repeat split; auto. discriminate.
    + simpl in H. destruct (IH H) as (a & r & -> & _ & Ha & Hr).
      exists (c :: a), r. simpl. rewrite Hc, Ha. repeat split; auto.
      discriminate.
  - intros (a & r & -> & Hne & Ha & Hr).
    destruct a as [|c a]; [contradiction|]. clear Hne.
    revert c Ha. induction a as [|d a IH]; intros c Ha; simpl in *.
    + rewrite andb_true_r in Ha. now rewrite Ha, Hr.
    + apply andb_true_iff in Ha. destruct Ha as [Hc Ha].
      rewrite Hc. simpl. rewrite (IH d Ha). apply orb_true_r.
Qed.

Lemma lit_spec (x : ascii) (k : list ascii -> bool) (l : list ascii) :
  lit x k l = true <-> exists r, l = x :: r /\ k r = true.
Proof.
  unfold lit. split.
  - destruct l as [|c r]; [discriminate|].
    intros H. apply andb_true_iff in H. destruct H as [Hc Hr].
    apply Ascii.eqb_eq in Hc. subst. eauto.
  - intros (r & -> & Hr). now rewrite Ascii.eqb_refl, Hr.
Qed.

(** X16.  The address check of the free route accepts exactly the
    strings of the form [local@domain.tail] whose three parts are not
    empty and hold no whitespace and no [@]; so an accepted address has
    exactly one [@] and a dot after it that is neither the first nor the
    last character of what follows the [@]. *)
Theorem email_accepted_iff (mail : string) :
  emailRegex_test mail = true
  <-> exists a b c,
        list_ascii_of_string mail = a ++ "@"%char :: b ++ "."%char :: c
        /\ a <> [] /\ b <> [] /\ c <> []
        /\ forallb not_space_nor_at a = true
        /\ forallb not_space_nor_at b = true
        /\ forallb not_space_nor_at c = true.
Proof.
  unfold emailRegex_test. split.
  - intros H.
    apply plus_spec in H. destruct H as (a & r1 & E1 & Ha0 & Ha & H).
    apply lit_spec in H. destruct H as (r2 & -> & H).
    apply plus_spec in H. destruct H as (b & r3 & -> & Hb0 & Hb & H).
    apply lit_spec in H. destruct H as (r4 & -> & H).
    apply plus_spec in H. destruct H as (c & r5 & -> & Hc0 & Hc & H).
    destruct r5; [|discriminate]. rewrite app_nil_r in E1.
    exists a, b, c. repeat split; auto.
  - intros (a & b & c & E & Ha0 & Hb0 & Hc0 & Ha & Hb & Hc).
    rewrite E. apply plus_spec. exists a, ("@"%char :: b ++ "."%char :: c).
    repeat split; auto.
    apply lit_spec. eexists. split; [reflexivity|].
    apply plus_spec. exists b, ("."%char :: c). repeat split; auto.
    apply lit_spec. eexists. split; [reflexivity|].
    apply plus_spec. exists c, []. rewrite app_nil_r. repeat split; auto.
Qed.

End InputSpec.

(** ** A device is recognized however it is written *)

Module DeviceRecognition.
Import Supabase Http VerifyLicense VerifyFacts SameDevice.
Local Open Scope Z_scope.

(** X17.  A device that is bound is recognized under any spelling of its
    fingerprint: when a raw fingerprint normalizes to a bound one, a call
    with a raw fingerprint that differs from it only by case, surrounding
    whitespace or extraneous characters is answered from the record as it
    is, count unchanged and no flag, and writes nothing. *)
Theorem respelled_device_is_recognized (rt : Runtime) (s : Service)
  (db : Database) (t : Jwt.token) (key : string) (l : License)
  (c : Jwt.claims) (a b fp : string) :
  payload_jti t = Some key ->
  select_fails s = false ->
  stored db key l ->
  revoked l = false ->
  record_expired l (now rt) = false ->
  Crypto.verifyLicenseToken (env rt) (now rt) t = JS.Return c ->
  Fingerprint.normalizeDeviceFingerprint (JS.Str a) = JS.Return fp ->
  devices_include l fp = true ->
  differ_only (list_ascii_of_string a) (list_ascii_of_string b) ->
  run s (POST rt (Some (mkRequest t (JS.Str b)))) db
  = (db, result l (devices_length l) false).
Proof.
  intros Hjti Hs Hl Hr He Hv Ha Hin Hab.
  rewrite (POST_reaches_admission rt s db (mkRequest t (JS.Str b)) key l c
             Hjti Hs Hl Hr He Hv).
  apply (bind_device_registered rt s db key l (JS.Str b) fp); [|exact Hin].
  now apply (InputSpec.normalize_differ_only a b fp).
Qed.

(** The scenario's license with "device-aaa111" bound, asked again with
    a space in front. *)
Lemma respelled_device_is_recognized_witness :
  let bound :=
    mkLicense "lic-0001" Scenario.token0 "user@example.com" "pro" 1
      (Some ["device-aaa111"]) (Some (Scenario.expires_s * 1000)) false in
  let db := mkDatabase [bound] [] in
  run available
    (POST (Scenario.at_time Scenario.midlife)
       (Scenario.verify_with (JS.Str " device-aaa111"))) db
  = (db, result bound 1 false).
Proof.
  intros bound db.
  apply (respelled_device_is_recognized (Scenario.at_time Scenario.midlife)
           available db Scenario.token0 "lic-0001" bound Scenario.claims0
           "device-aaa111" " device-aaa111" "device-aaa111");
    try reflexivity.
  apply (by_surrounding_whitespace (list_ascii_of_string " ")
           (list_ascii_of_string "device-aaa111") []); reflexivity.
Defined.

End DeviceRecognition.

(** ** What the tables keep, whatever is asked and in whatever order *)

Module StoreSpec.
Import Supabase Invariants SupabaseFacts StoreInvariants Server.

Lemma unique_key_one_row (key : string) (rows : list License) :
  NoDup (map license_key rows) ->
  List.length (filter (has_key key) rows) <= 1.
Proof.
  induction rows as [|r rs IH]; simpl; intros H; [lia|].
  apply NoDup_cons_iff in H. destruct H as [Hr Hrs].
  destruct (has_key key r) eqn:Hk; [|auto].
  apply String.eqb_eq in Hk.
  assert (Hnone : filter (has_key key) rs = []).
  { destruct (filter (has_key key) rs) as [|x xs] eqn:E; [reflexivity|].
    exfalso. apply Hr.
    assert (Hin : In x (filter (has_key key) rs)) by (rewrite E; now left).
    apply filter_In in Hin. destruct Hin as [Hin Hx].
    apply String.eqb_eq in Hx. apply in_map_iff. exists x. split; congruence. }
  rewrite Hnone. simpl. lia.
Qed.

(** X18.  License keys stay unique: if no two rows share a key, none do
    after any requests served one after another, nor after any
    interleaving of the storage calls of any handlers; so a lookup by key
    never meets two rows. *)
Theorem license_keys_stay_unique (db : Database) (cs : list call)
  (R : Type) (schedule : list nat) (threads : list (Concurrent.thread R))
  (key : string) :
  keys_unique db ->
  keys_unique (serve_all cs db)
  /\ keys_unique (fst (Concurrent.run_schedule schedule (db, threads)))
  /\ List.length (filter (has_key key) (licenses (serve_all cs db))) <= 1
  /\ List.length
       (filter (has_key key)
          (licenses (fst (Concurrent.run_schedule schedule (db, threads)))))
     <= 1.
Proof.
  intros H.
  assert (H1 : keys_unique (serve_all cs db))
    by (apply (serve_all_lifts keys_unique exec_keys_unique); exact H).
  assert (H2 : keys_unique (fst (Concurrent.run_schedule schedule (db, threads))))
    by (apply (schedule_lifts keys_unique exec_keys_unique); exact H).
  repeat split; auto; now apply unique_key_one_row.
Qed.

(** The scenario's tables after a second license is issued. *)
Lemma license_keys_stay_unique_witness :
  let rt := Scenario.at_time Scenario.midlife in
  let issue :=
    mkCall rt available
      (IssueRequest (Some "admin-secret")
         (Some (IssueLicense.mkRequest "user@example.com" "pro"
                  (JS.Number 1) (JS.Number 30)))) in
  keys_unique (serve_all [issue; issue] Scenario.db0).
Proof.
  intros rt issue.
  destruct (license_keys_stay_unique Scenario.db0 [issue; issue] unit [] []
              "lic-0001") as [H _].
  - repeat constructor. intros [].
  - exact H.
Defined.

(** X19.  The tables only grow.  After any requests served one after
    another, and after any interleaving of the storage calls of any
    handlers, every license that was there is still there with the key,
    token, email, plan, limit and expiry it had; every activation that
    was logged is still there; and every license that was revoked is
    still revoked. *)
Theorem tables_only_grow (db : Database) (cs : list call)
  (R : Type) (schedule : list nat) (threads : list (Concurrent.thread R)) :
  grown_from db (serve_all cs db)
  /\ grown_from db (fst (Concurrent.run_schedule schedule (db, threads))).
Proof.
  split.
  - apply (serve_all_lifts (grown_from db) (exec_keeps_grown db)).
    apply grown_from_refl.
  - apply (schedule_lifts (grown_from db) (exec_keeps_grown db)).
    apply grown_from_refl.
Qed.

End StoreSpec.

(** ** The quota with calls in flight at once *)

Module ConcurrentQuota.
Import Supabase Http Invariants SupabaseFacts StoreInvariants VerifyLicense.
Local Open Scope Z_scope.

Lemma issued_as_fields (r r' : License) :
  issued_as r = issued_as r' ->
  license_key r = license_key r'
  /\ Supabase.device_limit r = Supabase.device_limit r'.
Proof. unfold issued_as. intros [= ? ? ? ? ? ?]. auto. Qed.

Lemma same_licenses_back (db0 db : Database) (r : License) :
  map issued_as (licenses db) = map issued_as (licenses db0) ->
  In r (licenses db) ->
  exists r0, In r0 (licenses db0) /\ issued_as r0 = issued_as r.
Proof.
  intros H Hin. apply (in_map issued_as) in Hin. rewrite H in Hin.
  apply in_map_iff in Hin. destruct Hin as (r0 & E & Hin0). eauto.
Qed.

Lemma same_licenses_forth (db0 db : Database) (r0 : License) :
  map issued_as (licenses db) = map issued_as (licenses db0) ->
  In r0 (licenses db0) ->
  exists r, In r (licenses db) /\ issued_as r = issued_as r0.
Proof.
  intros H Hin. apply (in_map issued_as) in Hin. rewrite <- H in Hin.
  apply in_map_iff in Hin. destruct Hin as (r & E & Hin'). eauto.
Qed.

(** A safe call keeps the licenses and the quota, and what it answers is
    faithful. *)
Lemma exec_safe (db0 : Database) (s : Service) (q : query) (db : Database) :
  same_licenses_within_quota db0 db ->
  quota_safe_query db0 q ->
  same_licenses_within_quota db0 (fst (exec s q db))
  /\ faithful_answer db0 q (snd (exec s q db)).
Proof.
  intros [Hsame Hq] Hsafe.
  destruct q as [key|m t|key devices|key|row|row]; simpl.
  - destruct (select_fails s); simpl; (split; [now split|]);
      [intros l [=]|].
    intros l Hl.
    destruct (filter (has_key key) (licenses db)) as [|x [|y rest]] eqn:Hf;
      simpl in Hl; try discriminate.
    injection Hl as ->.
    assert (Hin : In l (filter (has_key key) (licenses db)))
      by (rewrite Hf; now left).
    apply filter_In in Hin. destruct Hin as [Hin Hk].
    apply String.eqb_eq in Hk. split; [exact Hk|].
    intros r0 Hr0 Hk0.
    destruct (same_licenses_forth db0 db r0 Hsame Hr0) as (r & Hr & E).
    destruct (issued_as_fields _ _ E) as [Ek El].
    assert (Hrf : In r (filter (has_key key) (licenses db))).
    { apply filter_In. split; [exact Hr|].
      unfold has_key. rewrite Ek, Hk0. apply String.eqb_refl. }
    rewrite Hf in Hrf. destruct Hrf as [<-|[]]. congruence.
  - destruct (select_fails s); simpl; (split; [now split|exact I]).
  - destruct (update_fails s); simpl; (split; [|exact I]); [now split|].
    split.
    + cbn [licenses]. rewrite map_map.
      rewrite <- Hsame. apply map_ext. apply set_devices_issued_as.
    + unfold within_quota in *. cbn [licenses]. apply Forall_forall.
      intros r' Hin. apply in_map_iff in Hin. destruct Hin as (r & <- & Hr).
      unfold set_devices. destruct (has_key key r) eqn:Hk.
      * destruct (same_licenses_back db0 db r Hsame Hr) as (r0 & Hr0 & E).
        destruct (issued_as_fields _ _ E) as [Ek El].
        apply String.eqb_eq in Hk.
        unfold devices_length. cbn. rewrite <- El.
        apply Hsafe; [exact Hr0|congruence].
      * rewrite Forall_forall in Hq. now apply Hq.
  - destruct (update_fails s); simpl; (split; [|exact I]); [now split|].
    split.
    + cbn [licenses]. rewrite map_map.
      rewrite <- Hsame. apply map_ext. apply set_revoked_issued_as.
    + unfold within_quota in *. cbn [licenses]. apply Forall_forall.
      intros r' Hin. apply in_map_iff in Hin. destruct Hin as (r & <- & Hr).
      rewrite Forall_forall in Hq. specialize (Hq r Hr).
      unfold set_revoked. destruct (has_key key r); [|exact Hq].
      unfold devices_length in *. cbn. exact Hq.
  - destruct Hsafe.
  - destruct (log_fails s || _); simpl; (split; [now split|exact I]).
Qed.

(** A verification call is safe: the one device list it writes is the
    list it read with one more device, and it writes it only when the
    list it read was below the limit. *)
Lemma verify_is_safe (db0 : Database) (rt : Runtime)
  (body : option VerifyLicenseRequest) :
  quota_safe db0 (POST rt body).
Proof.
  unfold POST. destruct body as [b|]; [|constructor].
  destruct (no_token (token b)); [constructor|].
  destruct (payload_jti (token b)) as [key|]; [|constructor].
  constructor; [exact I|]. intros a Ha.
  destruct (Supabase.error a); [constructor|].
  destruct (Supabase.data a) as [l|] eqn:Hd; [|constructor].
  destruct (Ha l Hd) as [Hk Hlim].
  unfold checks.
  destruct (revoked l); [constructor|].
  destruct (record_expired l (now rt)); [constructor|].
  destruct (Crypto.verifyLicenseToken _ _ _); [|constructor].
  unfold bind_device.
  destruct (JS.truthy _); [|constructor].
  destruct (Fingerprint.normalizeDeviceFingerprint _) as [fp|m]; [|constructor].
  destruct (devices_include l fp); cbn [negb]; [constructor|].
  destruct (Z.ltb_spec (devices_length l) (Supabase.device_limit l)) as [Hlt|Hge].
  - constructor.
    + intros r0 Hr0 Hk0. rewrite (Hlim r0 Hr0 Hk0).
      rewrite length_app, Nat2Z.inj_add.
      unfold devices_length, devices_or_empty in *.
      destruct (current_devices l); cbn [List.length] in *; lia.
    + intros u _. unfold log_activation. constructor; [exact I|].
      intros _ _. constructor.
  - unfold log_activation. constructor; [exact I|]. intros _ _. constructor.
Qed.

Lemma Forall_replace_nth {A} (P : A -> Prop) (i : nat) (x : A) (l : list A) :
  Forall P l -> P x -> Forall P (Concurrent.replace_nth i x l).
Proof.
  intros Hl Hx. revert i.
  induction Hl as [|a l Ha Hl IH]; intros [|i]; simpl; constructor; auto.
Qed.

(** Safe handlers, interleaved in any way, keep the licenses and the
    quota. *)
Lemma schedule_safe {R} (db0 : Database) (schedule : list nat)
  (st : Concurrent.state R) :
  same_licenses_within_quota db0 (fst st) ->
  Forall (fun t => quota_safe db0 (Concurrent.code t)) (snd st) ->
  same_licenses_within_quota db0 (fst (Concurrent.run_schedule schedule st)).
Proof.
  revert st. induction schedule as [|i rest IH]; intros [db threads] Hdb Hth;
    [exact Hdb|].
  cbn [Concurrent.run_schedule fold_left]. apply IH.
  - unfold Concurrent.step.
    destruct (nth_error threads i) as [[s [r|q k]]|] eqn:Hi; try exact Hdb.
    assert (Hsafe : quota_safe db0 (Await q k)).
    { apply nth_error_In in Hi. rewrite Forall_forall in Hth.
      exact (Hth _ Hi). }
    inversion Hsafe as [|q' k' Hq Hk]; subst.
    destruct (exec_safe db0 s q db Hdb Hq) as [H1 _].
    now destruct (exec s q db).
  - unfold Concurrent.step.
    destruct (nth_error threads i) as [[s [r|q k]]|] eqn:Hi; try exact Hth.
    assert (Hsafe : quota_safe db0 (Await q k)).
    { apply nth_error_In in Hi. rewrite Forall_forall in Hth.
      exact (Hth _ Hi). }
    inversion Hsafe as [|q' k' Hq Hk]. subst q' k'.
    destruct (exec_safe db0 s q db Hdb Hq) as [_ H2].
    destruct (exec s q db) as [db' a]. cbn [fst snd] in *.
    apply Forall_replace_nth; [exact Hth|]. cbn. now apply Hk.
Qed.

(** X20.  Verification calls in flight at once never take a license over
    its limit: if no license has more devices than its [device_limit],
    then after any interleaving of the storage calls of any verification
    calls, with any fingerprints, clocks and store failures, none has;
    and the licenses are the same, device lists and flags apart. *)
Theorem concurrent_calls_keep_quota (db : Database)
  (calls : list (Runtime * Service * option VerifyLicenseRequest))
  (schedule : list nat) :
  within_quota db ->
  let threads :=
    map (fun c : Runtime * Service * option VerifyLicenseRequest =>
           Concurrent.mkThread (snd (fst c)) (POST (fst (fst c)) (snd c)))
        calls in
  same_licenses_within_quota db
    (fst (Concurrent.run_schedule schedule (db, threads))).
Proof.
  intros Hq threads. apply schedule_safe.
  - split; [reflexivity|exact Hq].
  - subst threads. cbn [snd]. apply Forall_forall. intros t Hin.
    apply in_map_iff in Hin. destruct Hin as (c & <- & _).
    cbn. apply verify_is_safe.
Qed.

(** The two calls that are both answered as bound leave one device on
    the one-device license. *)
Lemma concurrent_calls_keep_quota_witness :
  let rt := Scenario.at_time Scenario.midlife in
  let threads :=
    [Concurrent.mkThread available
       (POST rt (Scenario.verify_with (JS.Str "device-aaa111")));
     Concurrent.mkThread available
       (POST rt (Scenario.verify_with (JS.Str "device-bbb222")))] in
  within_quota
    (fst (Concurrent.run_schedule [0; 1; 0; 1; 0; 1]%nat
            (Scenario.db0, threads))).
Proof.
  intros rt threads.
  refine (proj2 (concurrent_calls_keep_quota Scenario.db0
                   [(rt, available, Scenario.verify_with (JS.Str "device-aaa111"));
                    (rt, available, Scenario.verify_with (JS.Str "device-bbb222"))]
                   [0; 1; 0; 1; 0; 1]%nat _)).
  constructor; [vm_compute; discriminate|constructor].
Defined.

End ConcurrentQuota.
